(** * stori-challenge: CSV loader, summarizer and DynamoDB repository

    A shallow embedding of the transaction pipeline of the repository:
    - [transactions.LoadTransactions] and its field parsers
      ([parseIDOptimized], [parseDateOptimized], [parseAmountOptimized]),
    - [summaries.CalculateSummary] and its helpers,
    - [transactions.Save], [saveBatch] and [handleUnprocessedItems],
    together with models of the Go library calls they make. *)

From Stdlib Require Import ZArith String Ascii List Lia Bool.
From Stdlib Require Import Floats Uint63.
From stdpp Require Import base option list gmap strings.
From Equations Require Import Equations.

Local Open Scope string_scope.
Local Open Scope Z_scope.

(** ** Go strings as byte sequences *)

(** The byte value of a character, [s[i]] read as a number. *)
Definition byte (c : ascii) : Z := Z.of_N (N_of_ascii c).

(** [s[n:]] *)
Fixpoint slice_from (n : nat) (s : string) : string :=
  match n, s with
  | O, _ => s
  | S n', String _ s' => slice_from n' s'
  | S _, EmptyString => EmptyString
  end.

(** [s[:n]] *)
Fixpoint slice_to (n : nat) (s : string) : string :=
  match n, s with
  | O, _ => EmptyString
  | S n', String c s' => String c (slice_to n' s')
  | S _, EmptyString => EmptyString
  end.

(** [len(s)] as a Go [int]. *)
Definition len (s : string) : Z := Z.of_nat (String.length s).

(** Fixed-width integer conversions of a 64-bit platform. *)
Definition uint64 (z : Z) : Z := z mod 2 ^ 64.
Definition int64 (z : Z) : Z := (z + 2 ^ 63) mod 2 ^ 64 - 2 ^ 63.

(** ** strconv *)
Module GoStrconv.

Inductive NumError := ErrSyntax | ErrRange.

Definition maxUint64 : Z := 2 ^ 64 - 1.

(** [lower(c)]: [c | ('x' - 'X')]. *)
Definition lower (c : Z) : Z := Z.lor c (byte "x" - byte "X").

(** [strconv.ParseUint(s, base, bitSize)] for the call the loader makes,
    [base = 10] and [bitSize = 32].  The loop keeps the accumulator [n] as
    a [uint64]; [cutoff] is the smallest number with [cutoff*base >
    maxUint64] and [maxVal] the largest value of [bitSize] bits.  The
    result is Go's pair of value and error. *)
Definition base : Z := 10.
Definition bitSize : Z := 32.
Definition cutoff : Z := maxUint64 / 10 + 1.
Definition maxVal : Z := uint64 (Z.shiftl 1 bitSize - 1).

Fixpoint ParseUint_loop (s : string) (n : Z) : Z * option NumError :=
  match s with
  | EmptyString => (n, None)
  | String ch s' =>
      let c := byte ch in
      let digit :=
        if (byte "0" <=? c) && (c <=? byte "9") then Some (c - byte "0")
        else if (byte "a" <=? lower c) && (lower c <=? byte "z")
             then Some (lower c - byte "a" + 10)
             else None in
      match digit with
      | None => (0, Some ErrSyntax)
      | Some d =>
          if base <=? d then (0, Some ErrSyntax)
          else if cutoff <=? n then (maxVal, Some ErrRange)
          else
            let n := uint64 (n * base) in
            let n1 := uint64 (n + d) in
            if (n1 <? n) || (maxVal <? n1) then (maxVal, Some ErrRange)
            else ParseUint_loop s' n1
      end
  end.

Definition ParseUint (s : string) : Z * option NumError :=
  if String.eqb s "" then (0, Some ErrSyntax) else ParseUint_loop s 0.

(** [strconv.Itoa(i)]: the decimal digits of [i], most significant first,
    with a leading minus sign for a negative [i].  [formatBits] is the
    digit loop of [FormatInt] for base 10, one digit per round. *)
Definition digitChar (d : Z) : ascii := ascii_of_N (Z.to_N (byte "0" + d)).

Equations? formatBits (u : Z) (a : string) : string by wf (Z.to_nat u) lt :=
  formatBits u a with Z_lt_dec u 10 := {
    | left _ => String (digitChar u) a
    | right _ => formatBits (u / 10) (String (digitChar (u mod 10)) a) }.
Proof. apply Z2Nat.inj_lt; [apply Z.div_pos; lia | lia | apply Z.div_lt; lia]. Qed.

Definition Itoa (i : Z) : string :=
  if i <? 0 then String "-" (formatBits (- i) "") else formatBits i "".

End GoStrconv.

(** ** strings *)
Module GoStrings.

(** The UTF-8 encodings of the code points for which [unicode.IsSpace]
    holds: the ASCII ones, U+0085, U+00A0, U+1680, U+2000..U+200A,
    U+2028, U+2029, U+202F, U+205F and U+3000. *)
Definition space1 (c : Z) : bool :=
  (c =? 9) || (c =? 10) || (c =? 11) || (c =? 12) || (c =? 13) || (c =? 32).

Definition space2 (c0 c1 : Z) : bool :=
  (c0 =? 194) && ((c1 =? 133) || (c1 =? 160)).

Definition space3 (c0 c1 c2 : Z) : bool :=
  ((c0 =? 225) && (c1 =? 154) && (c2 =? 128))
  || ((c0 =? 226) && (c1 =? 128)
      && (((128 <=? c2) && (c2 <=? 138)) || (c2 =? 168) || (c2 =? 169) || (c2 =? 175)))
  || ((c0 =? 226) && (c1 =? 129) && (c2 =? 159))
  || ((c0 =? 227) && (c1 =? 128) && (c2 =? 128)).

(** [strings.TrimLeftFunc(s, unicode.IsSpace)] on the bytes of [s]. *)
Fixpoint trimLeft (s : list ascii) : list ascii :=
  match s with
  | c0 :: s1 =>
      if space1 (byte c0) then trimLeft s1
      else match s1 with
           | c1 :: s2 =>
               if space2 (byte c0) (byte c1) then trimLeft s2
               else match s2 with
                    | c2 :: s3 =>
                        if space3 (byte c0) (byte c1) (byte c2)
                        then trimLeft s3 else s
                    | [] => s
                    end
           | [] => s
           end
  | [] => s
  end.

(** [strings.TrimRightFunc(s, unicode.IsSpace)], on the reversed bytes. *)
Fixpoint trimRight (r : list ascii) : list ascii :=
  match r with
  | c0 :: r1 =>
      if space1 (byte c0) then trimRight r1
      else match r1 with
           | c1 :: r2 =>
               if space2 (byte c1) (byte c0) then trimRight r2
               else match r2 with
                    | c2 :: r3 =>
                        if space3 (byte c2) (byte c1) (byte c0)
                        then trimRight r3 else r
                    | [] => r
                    end
           | [] => r
           end
  | [] => r
  end.

(** [strings.TrimSpace(s)]: [s] without leading and trailing white
    space. *)
Definition TrimSpace (s : string) : string :=
  string_of_list_ascii
    (rev (trimRight (rev (trimLeft (list_ascii_of_string s))))).

(** [strings.HasPrefix(s, prefix)] *)
Fixpoint HasPrefix (s prefix : string) {struct prefix} : bool :=
  match prefix, s with
  | EmptyString, _ => true
  | String p prefix', String c s' => (byte c =? byte p) && HasPrefix s' prefix'
  | String _ _, EmptyString => false
  end.

(** [strings.TrimPrefix(s, prefix)]: [s] without the prefix when it has
    it, [s] itself otherwise. *)
Definition TrimPrefix (s prefix : string) : string :=
  if HasPrefix s prefix then slice_from (String.length prefix) s else s.

(** [strings.IndexByte(s, c)]: the index of the first [c] of [s]; [None] is
    the result -1. *)
Fixpoint IndexByte (s : string) (c : ascii) : option nat :=
  match s with
  | EmptyString => None
  | String x s' =>
      if byte x =? byte c then Some O else option_map S (IndexByte s' c)
  end.

(** The loop of [genSplit]: at most [n] cuts at the separator, and the
    rest of the string as the last element. *)
Fixpoint genSplit (s : string) (sep : ascii) (n : nat) : list string :=
  match n with
  | O => [s]
  | S n' =>
      match IndexByte s sep with
      | None => [s]
      | Some m => slice_to m s :: genSplit (slice_from (S m) s) sep n'
      end
  end.

(** [strings.SplitN(s, sep, n)] for a separator of one byte and a count
    [n >= 0] (the storage calls it with "/" and 2): no element for [n = 0],
    otherwise at most [n] elements, the last one the unsplit rest. *)
Definition SplitN (s : string) (sep : ascii) (n : nat) : list string :=
  if (n =? 0)%nat then []
  else
    let n := if (String.length s + 1 <? n)%nat then (String.length s + 1)%nat else n in
    genSplit s sep (n - 1).

(** [strings.ToLower(s)].  A string of ASCII bytes only is mapped byte by
    byte, the letters A to Z to a to z; any other string goes through
    [strings.Map(unicode.ToLower, s)], which is a parameter here. *)
Definition isASCII (s : string) : bool :=
  forallb (fun c => byte c <? 128) (list_ascii_of_string s).

Definition hasUpper (s : string) : bool :=
  existsb (fun c => (byte "A" <=? byte c) && (byte c <=? byte "Z")) (list_ascii_of_string s).

Definition toLowerByte (c : ascii) : ascii :=
  if (byte "A" <=? byte c) && (byte c <=? byte "Z")
  then ascii_of_N (Z.to_N (byte c + (byte "a" - byte "A")))
  else c.

Fixpoint toLowerASCII (s : string) : string :=
  match s with
  | EmptyString => EmptyString
  | String c s' => String (toLowerByte c) (toLowerASCII s')
  end.

Definition ToLower (Map_unicode_ToLower : string -> string) (s : string) : string :=
  if isASCII s then (if hasUpper s then toLowerASCII s else s)
  else Map_unicode_ToLower s.

End GoStrings.

(** ** Go's [(value, error)] results *)

(** A call that returns a value or an error: [inl e] is the error, [inr v]
    the value returned with a nil error. *)
Notation "'try' x ':=' e 'in' k" :=
  (match e with inl err => inl err | inr x => k end)
  (at level 10, x pattern, e at level 200, k at level 200, only parsing).

(** What a call does: it returns its results, or it panics. *)
Inductive outcome (A : Type) :=
| Returns (results : A)
| Panics.
Arguments Returns {A} results.
Arguments Panics {A}.

(** ** time *)
Module GoTime.

(** A [time.Time] at 00:00:00 UTC: the value of
    [time.Date(year, month, day, 0, 0, 0, 0, time.UTC)], read back by the
    methods [Year()], [Month()] and [Day()]. *)
Record Time := Date { Year : Z; Month : Z; Day : Z }.

(** [time.Time{}], January 1 of year 1. *)
Definition zeroTime : Time := Date 1 1 1.

Definition IsZero (t : Time) : bool :=
  (Year t =? 1) && (Month t =? 1) && (Day t =? 1).

Inductive ParseError :=
| errBad          (* a layout element does not match the value *)
| errMonthRange   (* "month out of range" *)
| errDayRange     (* "day out of range" *)
| errExtraText.   (* "extra text" after the layout is exhausted *)

(** [isDigit(s, i)] *)
Definition isDigit (s : string) (i : nat) : bool :=
  match String.get i s with
  | Some ch => (byte "0" <=? byte ch) && (byte ch <=? byte "9")
  | None => false
  end.

(** [int(s[i] - '0')] *)
Definition digitAt (s : string) (i : nat) : Z :=
  match String.get i s with
  | Some ch => byte ch - byte "0"
  | None => 0
  end.

(** [getnum(s, fixed)]: one or two leading digits. *)
Definition getnum (s : string) (fixed : bool) : ParseError + Z * string :=
  if negb (isDigit s 0) then inl errBad
  else if negb (isDigit s 1) then
    if fixed then inl errBad else inr (digitAt s 0, slice_from 1 s)
  else inr (digitAt s 0 * 10 + digitAt s 1, slice_from 2 s).

(** [leadingInt(s)]: the leading digits of [s] as a [uint64] and the
    rest of [s]; [None] is [errLeadingInt]. *)
Fixpoint leadingInt (s : string) (x : Z) : option (Z * string) :=
  match s with
  | EmptyString => Some (x, s)
  | String ch s' =>
      let c := byte ch in
      if (c <? byte "0") || (byte "9" <? c) then Some (x, s)
      else if Z.shiftl 1 63 / 10 <? x then None
      else
        let x := uint64 (x * 10 + c - byte "0") in
        if Z.shiftl 1 63 <? x then None else leadingInt s' x
  end.

(** [atoi(s)]: an optionally signed decimal number that is all of [s]. *)
Definition atoi (s : string) : ParseError + Z :=
  let '(neg, s) :=
    match s with
    | String ch s' =>
        if (byte ch =? byte "-") || (byte ch =? byte "+")
        then (byte ch =? byte "-", s') else (false, s)
    | EmptyString => (false, s)
    end in
  match leadingInt s 0 with
  | None => inl errBad
  | Some (q, rem) =>
      if 0 <? len rem then inl errBad
      else let x := int64 q in inr (if neg then int64 (- x) else x)
  end.

(** [isLeap(year)]; Go's [%] is the remainder of truncated division. *)
Definition isLeap (year : Z) : bool :=
  (Z.rem year 4 =? 0) && (negb (Z.rem year 100 =? 0) || (Z.rem year 400 =? 0)).

(** [daysBefore[m]]: the days of a non-leap year before month [m+1]. *)
Definition daysBefore (m : Z) : Z :=
  nth (Z.to_nat m) [0; 31; 59; 90; 120; 151; 181; 212; 243; 273; 304; 334; 365] 0.

(** [daysIn(m, year)] *)
Definition daysIn (m year : Z) : Z :=
  if (m =? 2) && isLeap year then 29 else daysBefore m - daysBefore (m - 1).

(** [skip(value, prefix)] for a prefix without spaces (the layout's
    prefixes are the single character "/"). *)
Fixpoint skip (value prefix : string) {struct prefix} : ParseError + string :=
  match prefix with
  | EmptyString => inr value
  | String p prefix' =>
      match value with
      | String v value' =>
          if byte v =? byte p then skip value' prefix' else inl errBad
      | EmptyString => inl errBad
      end
  end.

(** [time.Parse("1/2/2006", value)].  The layout splits into the chunks
    [stdNumMonth], "/" [stdDay], "/" [stdLongYear] and the end of the
    layout; the value is consumed chunk by chunk, the day is validated
    against the month and year at the end, and the result is in UTC. *)
Definition Parse_1_2_2006 (value : string) : ParseError + Time :=
  (* "1": stdNumMonth *)
  try (month, value) := getnum value false in
  if (month <=? 0) || (12 <? month) then inl errMonthRange else
  (* "/2": stdDay, any one- or two-digit day *)
  try value := skip value "/" in
  try (day, value) := getnum value false in
  (* "/2006": stdLongYear *)
  try value := skip value "/" in
  if (len value <? 4) || negb (isDigit value 0) then inl errBad else
  let p := slice_to 4 value in
  let value := slice_from 4 value in
  try year := atoi p in
  (* end of the layout *)
  if negb (len value =? 0) then inl errExtraText else
  if (day <? 1) || (daysIn month year <? day) then inl errDayRange else
  inr (Date year month day).

(** [time.Parse(layout, value)].  The loader only ever holds the layout
    "1/2/2006" (set by its constructor); no other layout is modelled. *)
Definition Parse (layout value : string) : ParseError + Time :=
  if String.eqb layout "1/2/2006" then Parse_1_2_2006 value else inl errBad.

(** [appendInt(b, x, width)]: [x] in decimal, zero-padded to [width]. *)
Definition appendInt (x : Z) (width : nat) : string :=
  let digits := GoStrconv.formatBits (Z.abs x) "" in
  let pad := string_of_list_ascii (repeat "0"%char (width - String.length digits)) in
  (if x <? 0 then "-" else "") ++ pad ++ digits.

(** [t.Format("2006-01-02T15:04:05Z")] *)
Definition Format_RFC3339_Z (t : Time) : string :=
  appendInt (Year t) 4 ++ "-" ++ appendInt (Month t) 2 ++ "-" ++ appendInt (Day t) 2
    ++ "T" ++ appendInt 0 2 ++ ":" ++ appendInt 0 2 ++ ":" ++ appendInt 0 2 ++ "Z".

End GoTime.

(** ** encoding/csv *)
Module GoCsv.

(** What the reader finds for one record of the stream: its fields
    (leading white space already trimmed, as [TrimLeadingSpace] asks), or
    a quoting error. *)
Inductive Line :=
| Fields (record : list string)
| Malformed.

(** A line of the text of the stream, as the reader takes it: the line on
    which a record starts, with what the reader finds for the record; an
    empty line, which [Read()] skips; or a further line of a record, inside
    a quoted field that holds line breaks.  The lines of a text are
    numbered from 1. *)
Inductive TextLine :=
| Starts (l : Line)
| Blank
| Inside.

(** The records of a text, in the order of their lines. *)
Fixpoint records (text : list TextLine) : list Line :=
  match text with
  | [] => []
  | Starts l :: text' => l :: records text'
  | Blank :: text' | Inside :: text' => records text'
  end.

(** The text that has one record on each line, and no other line. *)
Definition text_of (lines : list Line) : list TextLine := map Starts lines.

Inductive ParseError := ErrFieldCount | ErrQuote.

(** The results of the successive calls of [Read()] until [io.EOF], for
    a reader with the given [FieldsPerRecord]: a positive value is
    required of every record, zero is replaced by the field count of the
    first record, a negative value checks nothing. *)
Fixpoint reads (FieldsPerRecord : Z) (input : list Line) : list (ParseError + list string) :=
  match input with
  | [] => []
  | Malformed :: input' => inl ErrQuote :: reads FieldsPerRecord input'
  | Fields record :: input' =>
      if 0 <? FieldsPerRecord then
        (if negb (Z.of_nat (length record) =? FieldsPerRecord)
         then inl ErrFieldCount else inr record) :: reads FieldsPerRecord input'
      else if FieldsPerRecord =? 0 then
        inr record :: reads (Z.of_nat (length record)) input'
      else inr record :: reads FieldsPerRecord input'
  end.

End GoCsv.

(** ** Go slices and contexts *)

(** A slice result that may be [nil]: [Nil] is the nil slice and
    [Slice xs] a non-nil slice holding [xs] (possibly none). *)
Inductive slice (A : Type) :=
| Nil
| Slice (xs : list A).
Arguments Nil {A}.
Arguments Slice {A} xs.

(** A [context.Context] as the loader observes it: [ctx n] tells whether
    the context is done at the [n]-th time it is polled ([ctx.Err()] before
    processing is poll 0, the [select] of the [k]-th round of the loop is
    poll [k]). *)
Definition Context := nat -> bool.

(** [context.Background()] is never done. *)
Definition Background : Context := fun _ => false.

(** The elements of a slice: a nil slice has none, and [len] 0. *)
Definition elems {A} (s : slice A) : list A :=
  match s with
  | Nil => []
  | Slice xs => xs
  end.

(** A loop [for i := range s] that assigns [f s[i]] to each [s[i]]. *)
Definition update_each {A} (f : A -> A) (s : slice A) : slice A :=
  match s with
  | Nil => Nil
  | Slice xs => Slice (map f xs)
  end.

(** * Package transactions *)
Module transactions.

(** ** transaction.go *)
Record Transaction := {
  ID : Z;               (* uint *)
  Date : GoTime.Time;
  Amount : float;       (* float64 *)
  AccountID : string
}.

(** ** The CSV loader *)

Record CSVTransactionLoaderConfig := {
  BufferSize : Z;
  ExpectedRecords : Z;
  FieldsPerRecord : Z
}.

Record CSVTransactionLoader := {
  dateLayout : string;
  currentYear : Z;
  csvConfig : CSVTransactionLoaderConfig
}.

Definition DefaultCSVConfig : CSVTransactionLoaderConfig :=
  {| BufferSize := 64 * 1024; ExpectedRecords := 100; FieldsPerRecord := 3 |}.

(** [NewCSVTransactionLoaderWithConfig(config)]; [now_year] is the value
    of [time.Now().Year()] when the loader is built. *)
Definition NewCSVTransactionLoaderWithConfig (now_year : Z)
    (config : CSVTransactionLoaderConfig) : CSVTransactionLoader :=
  {| dateLayout := "1/2/2006"; currentYear := now_year; csvConfig := config |}.

Definition NewCSVTransactionLoader (now_year : Z) : CSVTransactionLoader :=
  NewCSVTransactionLoaderWithConfig now_year DefaultCSVConfig.

(** The errors of the loader, one constructor per [fmt.Errorf]. *)
Inductive IDError :=
| IDEmpty                    (* "ID cannot be empty" *)
| IDEmptyAfterTrimming       (* "ID cannot be empty after trimming" *)
| IDNotPositiveInteger.      (* "must be a valid positive integer" *)

Inductive DateError :=
| DateEmpty                              (* "date cannot be empty" *)
| DateNotMD (e : GoTime.ParseError).     (* "must be in M/D format: %w" *)

Inductive AmountError :=
| AmountEmpty                (* "amount cannot be empty" *)
| AmountNotNumber.           (* "must be a valid number: %w" *)

Inductive RecordError :=
| ExpectedThreeFields (got : nat)                      (* "expected 3 fields, got %d" *)
| InvalidID (field : string) (e : IDError)             (* "invalid ID '%s': %w" *)
| InvalidDate (field : string) (e : DateError)         (* "invalid date '%s': %w" *)
| InvalidAmount (field : string) (e : AmountError).    (* "invalid amount '%s': %w" *)

Inductive LoadError :=
| ContextBeforeProcessing                               (* "context error before processing: %w" *)
| HeaderReadFailed (e : option GoCsv.ParseError)        (* "failed to read CSV header: %w"; [None] is io.EOF *)
| ContextCancelledAt (lineNumber : Z)                   (* "context cancelled at line %d: %w" *)
| CSVParsingErrorAt (lineNumber : Z) (e : GoCsv.ParseError)   (* "CSV parsing error at line %d: %w" *)
| RecordValidationErrorAt (lineNumber : Z) (e : RecordError). (* "record validation error at line %d: %w" *)

(** [make([]Transaction, 0, cap)] panics when [cap] is negative, and when
    the memory of [cap] transactions, of 56 bytes each ([uint], [time.Time],
    [float64] and [string] on a 64-bit platform), is above the [maxAlloc] of
    the runtime, 2^48 bytes on 64-bit Linux.  An allocation within these
    bounds is taken to succeed: running out of memory is not modelled. *)
Definition maxAlloc : Z := 2 ^ 48.

Definition makeslice_panics (cap : Z) : bool := (cap <? 0) || (maxAlloc <? 56 * cap).

Section Loader.

(** [strconv.ParseFloat(s, 64)]: [None] when it returns an error. *)
Variable ParseFloat : string -> option float.

Variable loader : CSVTransactionLoader.

Definition parseIDOptimized (idStr : string) : IDError + Z :=
  if String.eqb idStr "" then inl IDEmpty else
  match GoStrconv.ParseUint idStr with
  | (id, None) => inr id
  | (_, Some _) =>
      let trimmed := GoStrings.TrimSpace idStr in
      if String.eqb trimmed "" then inl IDEmptyAfterTrimming else
      match GoStrconv.ParseUint trimmed with
      | (id, None) => inr id
      | (_, Some _) => inl IDNotPositiveInteger
      end
  end.

Definition parseDateOptimized (dateStr : string) : DateError + GoTime.Time :=
  if String.eqb dateStr "" then inl DateEmpty else
  let dateBuilder := dateStr ++ "/" ++ GoStrconv.Itoa (currentYear loader) in
  match GoTime.Parse (dateLayout loader) dateBuilder with
  | inl err => inl (DateNotMD err)
  | inr date => inr date
  end.

Definition parseFloat (s : string) : AmountError + float :=
  match ParseFloat s with
  | None => inl AmountNotNumber
  | Some amount => inr amount
  end.

Definition parseAmountOptimized (amountStr : string) : AmountError + float :=
  match amountStr with
  | EmptyString => inl AmountEmpty
  | String c0 rest =>
      if negb (byte c0 =? byte "+") && negb (byte c0 =? byte "-")
      then parseFloat amountStr
      else if byte c0 =? byte "+" then parseFloat rest
      else parseFloat amountStr
  end.

Definition parseRecord (record : list string) (lineNumber : Z) : RecordError + Transaction :=
  match record with
  | [f0; f1; f2] =>
      match parseIDOptimized f0 with
      | inl err => inl (InvalidID f0 err)
      | inr id =>
          match parseDateOptimized f1 with
          | inl err => inl (InvalidDate f1 err)
          | inr date =>
              match parseAmountOptimized f2 with
              | inl err => inl (InvalidAmount f2 err)
              | inr amount =>
                  inr {| ID := id; Date := date; Amount := amount; AccountID := "" |}
              end
          end
      end
  | _ => inl (ExpectedThreeFields (length record))
  end.

(** The loop of [LoadTransactions], over the results that the remaining
    calls of [csvReader.Read()] give; running out of them is [io.EOF]. *)
Fixpoint LoadTransactions_loop (ctx : Context) (poll : nat)
    (csvReader : list (GoCsv.ParseError + list string))
    (transactions : list Transaction) (lineNumber : Z)
    : slice Transaction * option LoadError :=
  if ctx poll then (Nil, Some (ContextCancelledAt lineNumber)) else
  match csvReader with
  | [] => (Slice transactions, None)
  | inl err :: _ => (Nil, Some (CSVParsingErrorAt lineNumber err))
  | inr record :: csvReader' =>
      match parseRecord record lineNumber with
      | inl err => (Nil, Some (RecordValidationErrorAt lineNumber err))
      | inr transaction =>
          LoadTransactions_loop ctx (S poll) csvReader'
            (transactions ++ [transaction])%list (lineNumber + 1)
      end
  end.

(** [LoadTransactions(ctx, reader)]; [reader] is the stream as the lines
    of its text.  When the call returns, the result is Go's pair of the
    slice and the error; it panics when [make] does.  ([BufferSize] sizes
    a buffer, which [bufio.NewReaderSize] makes of 16 bytes at least, and
    does not show in the result.) *)
Definition LoadTransactions (ctx : Context) (reader : list GoCsv.TextLine)
    : outcome (slice Transaction * option LoadError) :=
  if ctx O then Returns (Nil, Some ContextBeforeProcessing) else
  let csvReader :=
    GoCsv.reads (FieldsPerRecord (csvConfig loader)) (GoCsv.records reader) in
  match csvReader with
  | [] => Returns (Nil, Some (HeaderReadFailed None))
  | inl err :: _ => Returns (Nil, Some (HeaderReadFailed (Some err)))
  | inr _ :: csvReader =>
      if makeslice_panics (ExpectedRecords (csvConfig loader)) then Panics
      else Returns (LoadTransactions_loop ctx 1%nat csvReader [] 2)
  end.

End Loader.

(** ** The DynamoDB repository *)

(** The structure of a transaction as stored in DynamoDB. *)
Record DynamoTransaction := {
  dynamoID : string;          (* id: the generated UUID *)
  InternalID : Z;             (* internal_id *)
  dynamoDate : string;        (* date *)
  dynamoAmount : float;       (* amount *)
  dynamoAccountID : string    (* account_id *)
}.

(** [types.WriteRequest{PutRequest: &types.PutRequest{Item: item}}], the
    item being the attribute values of a [DynamoTransaction]
    ([attributevalue.MarshalMap] has no error for a structure of strings
    and numbers). *)
Record WriteRequest := PutRequest { Item : DynamoTransaction }.

(** What [client.BatchWriteItem] returns: an error, or an output with its
    [UnprocessedItems], a map from table name to write requests. *)
Inductive BatchWriteItemResult :=
| BatchWriteItemError
| BatchWriteItemOutput (UnprocessedItems : gmap string (list WriteRequest)).

(** The two call sites of [client.BatchWriteItem]: the one of
    [saveBatch], and the one of [handleUnprocessedItems] with the value
    of [retryCount] at the call. *)
Inductive CallSite :=
| InitialWrite
| RetryWrite (retryCount : nat).

(** One call of [client.BatchWriteItem]: where it was made, the
    [RequestItems] of its input and what the service returned. *)
Record CallRecord := {
  site : CallSite;
  input : gmap string (list WriteRequest);
  result : BatchWriteItemResult
}.

Inductive BatchError :=
| ExecuteBatchWriteFailed       (* "failed to execute batch write: %w" *)
| RetryFailed (retryCount : nat)  (* "failed to retry unprocessed items (attempt %d): %w" *)
| ItemsRemainUnprocessed (maxRetries : nat) (remaining : nat).
    (* "failed to process all items after %d retries, %d items remain unprocessed" *)

(** "failed to save batch starting at index %d: %w" *)
Inductive SaveError :=
| BatchFailedAt (i : nat) (e : BatchError).

Section Repository.

(** The DynamoDB service behind [r.client]: its state and its answer to
    one [BatchWriteItem] request. *)
Variable Client : Type.
Variable BatchWriteItem :
  Client -> gmap string (list WriteRequest) -> Client * BatchWriteItemResult.

(** [uuid.New().String()]: the [n]-th identifier generated. *)
Variable uuid_New : nat -> string.

Variable tableName : string.

(** What the repository acts on: the service, the number of identifiers
    generated so far, and the calls made to the service, oldest first. *)
Record World := {
  client : Client;
  uuids : nat;
  calls : list CallRecord
}.

(** One call of [r.client.BatchWriteItem(ctx, input)], recorded. *)
Definition callBatchWriteItem (from : CallSite)
    (RequestItems : gmap string (list WriteRequest)) (w : World)
    : World * BatchWriteItemResult :=
  let '(c, output) := BatchWriteItem (client w) RequestItems in
  ({| client := c;
      uuids := uuids w;
      calls := (calls w ++ [{| site := from; input := RequestItems; result := output |}])%list |},
   output).

Definition maxRetries : nat := 3.

(** The [for] loop of [handleUnprocessedItems]: the items still
    unprocessed when it ends, or the error of a failed retry. *)
Equations? handleUnprocessedItems_loop
    (unprocessedItems : gmap string (list WriteRequest)) (retryCount : nat) (w : World)
    : World * (BatchError + gmap string (list WriteRequest))
    by wf (maxRetries - retryCount)%nat lt :=
  handleUnprocessedItems_loop unprocessedItems retryCount w
    with decide (0 < size unprocessedItems /\ retryCount < maxRetries)%nat := {
    | right _ => (w, inr unprocessedItems)
    | left _ with callBatchWriteItem (RetryWrite (S retryCount)) unprocessedItems w := {
        | (w', BatchWriteItemError) => (w', inl (RetryFailed (S retryCount)))
        | (w', BatchWriteItemOutput UnprocessedItems) =>
            handleUnprocessedItems_loop UnprocessedItems (S retryCount) w' } }.
Proof. unfold maxRetries in *. lia. Qed.

Definition handleUnprocessedItems
    (unprocessedItems : gmap string (list WriteRequest)) (w : World)
    : World * option BatchError :=
  match handleUnprocessedItems_loop unprocessedItems 0 w with
  | (w, inl err) => (w, Some err)
  | (w, inr unprocessedItems) =>
      if (0 <? size unprocessedItems)%nat
      then (w, Some (ItemsRemainUnprocessed maxRetries
                       (length (default [] (unprocessedItems !! tableName)))))
      else (w, None)
  end.

(** The write requests of a batch; the [n]-th identifier goes to the
    first transaction. *)
Fixpoint writeRequestsOf (transactions : list Transaction) (n : nat) : list WriteRequest :=
  match transactions with
  | [] => []
  | transaction :: rest =>
      let primaryID := uuid_New n in
      let dynamoTx :=
        {| dynamoID := primaryID;
           InternalID := ID transaction;
           dynamoDate := GoTime.Format_RFC3339_Z (Date transaction);
           dynamoAmount := Amount transaction;
           dynamoAccountID := AccountID transaction |} in
      PutRequest dynamoTx :: writeRequestsOf rest (S n)
  end.

Definition saveBatch (transactions : list Transaction) (w : World)
    : World * option BatchError :=
  let writeRequests := writeRequestsOf transactions (uuids w) in
  let w := {| client := client w;
              uuids := (uuids w + length transactions)%nat;
              calls := calls w |} in
  let RequestItems : gmap string (list WriteRequest) := {[ tableName := writeRequests ]} in
  match callBatchWriteItem InitialWrite RequestItems w with
  | (w, BatchWriteItemError) => (w, Some ExecuteBatchWriteFailed)
  | (w, BatchWriteItemOutput UnprocessedItems) =>
      if (0 <? size UnprocessedItems)%nat
      then handleUnprocessedItems UnprocessedItems w
      else (w, None)
  end.

Definition batchSize : nat := 25.

(** [transactions[i:j]] *)
Definition subslice {A} (l : list A) (i j : nat) : list A := take (j - i) (drop i l).

(** The [for] loop of [Save], from index [i]. *)
Equations? Save_loop (transactions : list Transaction) (i : nat) (w : World)
    : World * option SaveError by wf (length transactions - i)%nat lt :=
  Save_loop transactions i w with lt_dec i (length transactions) := {
    | right _ => (w, None)
    | left _ with saveBatch
                    (subslice transactions i
                       (if (length transactions <? i + batchSize)%nat
                        then length transactions else i + batchSize)%nat) w := {
        | (w', Some err) => (w', Some (BatchFailedAt i err))
        | (w', None) => Save_loop transactions (i + batchSize)%nat w' } }.
Proof. unfold batchSize. lia. Qed.

Definition Save (transactions : list Transaction) (w : World) : World * option SaveError :=
  if (length transactions =? 0)%nat then (w, None) else Save_loop transactions 0 w.

End Repository.

End transactions.

(** * Package summary *)
Module summary.

(** ** summary_file.go: a transaction file with its content and metadata.
    [Content] is an [io.Reader]; [Reader] is what can be read from it. *)
Record SummaryFile (Reader : Type) := {
  Path : string;
  AccountID : string;
  AccountEmail : string;
  Content : Reader
}.
Arguments Path {Reader}.
Arguments AccountID {Reader}.
Arguments AccountEmail {Reader}.
Arguments Content {Reader}.

End summary.

(** * The S3 client of the AWS SDK, as the storage uses it *)
Module AwsS3.

(** [types.Tag]: a key and a value, both pointers to strings ([None] is
    nil). *)
Record Tag := { Key : option string; Value : option string }.

(** The requests that the storage makes. *)
Inductive Call :=
| GetObject (Bucket Key : string)
| GetObjectTagging (Bucket Key : string).

End AwsS3.

(** * Package summaries *)
Module summaries.

Import transactions.

(** [SummaryYear(txn.Date.Year())]: the conversion of an [int] to [uint]. *)
Definition SummaryYear (year : Z) : Z := uint64 year.

Record MonthlySummary := {
  TransactionCount : Z;
  AverageDebit : float;
  AverageCredit : float
}.

(** [YearlyData] is a map from [SummaryYear] to [MonthlyData], itself a
    map from [time.Month] to [MonthlySummary]. *)
Record Summary := {
  TotalBalance : float;
  YearlyData : gmap Z (gmap Z MonthlySummary)
}.

(** [float64(n)] for a length [n]. *)
Definition float64_of_len (n : nat) : float :=
  PrimFloat.of_uint63 (Uint63.of_Z (Z.of_nat n)).

Definition calculateTotalBalance (txns : list Transaction) : float :=
  fold_left (fun total txn => PrimFloat.add total (Amount txn)) txns 0%float.

(** The body of the loop of [groupTransactionsByYearAndMonth]. *)
Definition group_step (yearlyGroups : gmap Z (gmap Z (list Transaction))) (txn : Transaction)
    : gmap Z (gmap Z (list Transaction)) :=
  let year := SummaryYear (GoTime.Year (Date txn)) in
  let month := GoTime.Month (Date txn) in
  let yearlyGroups :=
    match yearlyGroups !! year with
    | None => <[year := ∅]> yearlyGroups
    | Some _ => yearlyGroups
    end in
  let monthGroups : gmap Z (list Transaction) := default ∅ (yearlyGroups !! year) in
  <[year := <[month := (default [] (monthGroups !! month) ++ [txn])%list]> monthGroups]>
    yearlyGroups.

Definition groupTransactionsByYearAndMonth (txns : list Transaction)
    : gmap Z (gmap Z (list Transaction)) :=
  fold_left group_step txns ∅.

Definition separateDebitsAndCredits (txns : list Transaction) : list float * list float :=
  fold_left
    (fun '(debits, credits) txn =>
       if PrimFloat.ltb (Amount txn) 0 then ((debits ++ [Amount txn])%list, credits)
       else if PrimFloat.ltb 0 (Amount txn) then (debits, (credits ++ [Amount txn])%list)
       else (debits, credits))
    txns ([], []).

Definition calculateAverage (values : list float) : float :=
  if (length values =? 0)%nat then 0%float
  else
    let sum := fold_left (fun sum value => PrimFloat.add sum value) values 0%float in
    PrimFloat.div sum (float64_of_len (length values)).

(** The body of the inner loop: the summary of one month's group. *)
Definition monthlySummaryOf (monthTxns : list Transaction) : MonthlySummary :=
  let '(debits, credits) := separateDebitsAndCredits monthTxns in
  let avgDebit := calculateAverage debits in
  let avgCredit := calculateAverage credits in
  {| TransactionCount := Z.of_nat (length monthTxns);
     AverageDebit := avgDebit;
     AverageCredit := avgCredit |}.

(** The two [range] loops visit the entries of a map once each, in an
    order Go leaves open: [map_fold] over the groups. *)
Definition computeMonthlyDataFromYearlyGroups
    (yearlyGroups : gmap Z (gmap Z (list Transaction))) : gmap Z (gmap Z MonthlySummary) :=
  map_fold
    (fun year (monthGroups : gmap Z (list Transaction))
         (result : gmap Z (gmap Z MonthlySummary)) =>
       <[year :=
           map_fold
             (fun month monthTxns (monthly : gmap Z MonthlySummary) =>
                <[month := monthlySummaryOf monthTxns]> monthly)
             ∅ monthGroups]> result)
    ∅ yearlyGroups.

Definition calculateYearlyData (txns : list Transaction) : gmap Z (gmap Z MonthlySummary) :=
  let yearlyGroups := groupTransactionsByYearAndMonth txns in
  computeMonthlyDataFromYearlyGroups yearlyGroups.

Definition CalculateSummary (txns : list Transaction) : Summary :=
  if (length txns =? 0)%nat then {| TotalBalance := 0%float; YearlyData := ∅ |}
  else
    let totalBalance := calculateTotalBalance txns in
    let yearlyData := calculateYearlyData txns in
    {| TotalBalance := totalBalance; YearlyData := yearlyData |}.

(** ** s3_summary_files_storage.go *)

Inductive PathError :=
| PathIsEmpty       (* "path is empty" *)
| PathMalformed.    (* "path must be 'bucket/key' or 's3://bucket/key'" *)

Inductive StorageError :=
| InvalidS3Path (path : string) (e : PathError)     (* "invalid S3 path %q: %w" *)
| GetObjectFailed (bucket key : string)               (* "get object s3://%s/%s: %w" *)
| GetTagsFailed (bucket key : string)                 (* "get tags s3://%s/%s: %w" *)
| MissingRequiredTags (bucket key accountID accountEmail : string).
    (* "missing required tags in s3://%s/%s (found: AccountID=%q, AccountEmail=%q)" *)

(** [parsePath] extracts bucket and key from "s3://bucket/key" or
    "bucket/key". *)
Definition parsePath (path : string) : PathError + string * string :=
  if String.eqb path "" then inl PathIsEmpty else
  let parts := GoStrings.SplitN (GoStrings.TrimPrefix path "s3://") "/" 2 in
  match parts with
  | part0 :: part1 :: _ =>
      if String.eqb part0 "" || String.eqb part1 "" then inl PathMalformed
      else inr (part0, part1)
  | _ => inl PathMalformed
  end.

Section S3SummaryFilesStorage.

(** [strings.Map(unicode.ToLower, s)], for the keys of tags that are
    not ASCII. *)
Variable Map_unicode_ToLower : string -> string.

(** What an object body gives to read. *)
Variable Reader : Type.

(** The S3 service behind [s.client]: its state, and its answers to
    [GetObject] (the body of the object) and to [GetObjectTagging] (the
    tag set); [None] is an error. *)
Variable S3Client : Type.
Variable GetObject : S3Client -> string -> string -> S3Client * option Reader.
Variable GetObjectTagging : S3Client -> string -> string -> S3Client * option (list AwsS3.Tag).

(** What the storage acts on: the service and the requests made to it,
    oldest first. *)
Record S3World := {
  s3client : S3Client;
  s3calls : list AwsS3.Call
}.

Definition callGetObject (bucket key : string) (w : S3World) : S3World * option Reader :=
  let '(c, output) := GetObject (s3client w) bucket key in
  ({| s3client := c; s3calls := (s3calls w ++ [AwsS3.GetObject bucket key])%list |}, output).

Definition callGetObjectTagging (bucket key : string) (w : S3World)
    : S3World * option (list AwsS3.Tag) :=
  let '(c, output) := GetObjectTagging (s3client w) bucket key in
  ({| s3client := c; s3calls := (s3calls w ++ [AwsS3.GetObjectTagging bucket key])%list |},
   output).

(** The body of the loop of [getFileMetadata] over the tag set. *)
Definition tag_step (found : string * string) (t : AwsS3.Tag) : string * string :=
  let '(accountID, accountEmail) := found in
  match AwsS3.Key t, AwsS3.Value t with
  | Some tagKey, Some tagValue =>
      let lowered := GoStrings.ToLower Map_unicode_ToLower tagKey in
      if String.eqb lowered "accountid" || String.eqb lowered "account_id"
      then (tagValue, accountEmail)
      else if String.eqb lowered "accountemail" || String.eqb lowered "account_email"
              || String.eqb lowered "email"
      then (accountID, tagValue)
      else (accountID, accountEmail)
  | _, _ => (accountID, accountEmail)
  end.

(** [getFileMetadata] extracts AccountID and AccountEmail from the tags of
    the object. *)
Definition getFileMetadata (bucket key : string) (w : S3World)
    : S3World * (StorageError + string * string) :=
  match callGetObjectTagging bucket key w with
  | (w, None) => (w, inl (GetTagsFailed bucket key))
  | (w, Some TagSet) =>
      let '(accountID, accountEmail) := fold_left tag_step TagSet ("", "") in
      if String.eqb accountID "" || String.eqb accountEmail ""
      then (w, inl (MissingRequiredTags bucket key accountID accountEmail))
      else (w, inr (accountID, accountEmail))
  end.

(** [Get] retrieves a [SummaryFile] by its path: the content of the object
    and the metadata of its tags. *)
Definition Get (path : string) (w : S3World)
    : S3World * (StorageError + summary.SummaryFile Reader) :=
  match parsePath path with
  | inl err => (w, inl (InvalidS3Path path err))
  | inr (bucket, key) =>
      match callGetObject bucket key w with
      | (w, None) => (w, inl (GetObjectFailed bucket key))
      | (w, Some Body) =>
          match getFileMetadata bucket key w with
          | (w, inl err) => (w, inl err)
          | (w, inr (accountID, accountEmail)) =>
              (w, inr {| summary.Path := "s3://" ++ bucket ++ "/" ++ key;
                         summary.AccountID := accountID;
                         summary.AccountEmail := accountEmail;
                         summary.Content := Body |})
          end
      end
  end.

End S3SummaryFilesStorage.

End summaries.

(** * Package blend *)
Module blend.

(** ** levels.go *)

(** A log level is a string. *)
Definition Level := string.

Definition Equal (level other : Level) : bool := String.eqb level other.

Definition Debug : Level := "debug".
Definition Info : Level := "info".
Definition Warn : Level := "warn".
Definition Error : Level := "error".
Definition Fatal : Level := "fatal".

(** ** The [Logger] interface: one method per level, each taking a format
    and returning an error or nil.  A call is modelled by its format; the
    arguments of the format are not.  [W] is what the logger writes to. *)
Module Logger.

Record Logger (W E : Type) := {
  Debug : string -> W -> W * option E;
  Info : string -> W -> W * option E;
  Warn : string -> W -> W * option E;
  Error : string -> W -> W * option E;
  Fatal : string -> W -> W * option E
}.
Arguments Debug {W E}.
Arguments Info {W E}.
Arguments Warn {W E}.
Arguments Error {W E}.
Arguments Fatal {W E}.

End Logger.

(** [DummyLogger] logs nothing. *)
Definition NewDummyLogger {W E : Type} : Logger.Logger W E :=
  {| Logger.Debug := fun _ w => (w, None);
     Logger.Info := fun _ w => (w, None);
     Logger.Warn := fun _ w => (w, None);
     Logger.Error := fun _ w => (w, None);
     Logger.Fatal := fun _ w => (w, None) |}.

End blend.

(** * Package application *)
Module application.

(** ** transaction_processor.go *)

(** The outcome of one file. *)
Record ProcessingResult := {
  FilePath : string;
  AccountID : string;
  AccountEmail : string;
  TransactionCount : Z;
  Summary : summaries.Summary
}.

Section DefaultProcessor.

(** What the content of a file gives to read, the state of the services
    behind the collaborators, and the errors of each collaborator. *)
Variable Reader : Type.
Variable W : Type.
Variables StorageError LoadError SaveError SendError LogError : Type.

(** "failed to load file: %w", "failed to parse transactions: %w", "failed
    to persist transactions: %w" and "failed to send email: %w". *)
Inductive ProcessError :=
| FailedToLoadFile (err : StorageError)
| FailedToParseTransactions (err : LoadError)
| FailedToPersistTransactions (err : SaveError)
| FailedToSendEmail (err : SendError).

(** The collaborators of the processor, each by the method of its
    interface: [SummaryFilesStorage.Get], [TransactionLoader.LoadTransactions],
    [TransactionsRepository.Save], [Summarizer.CalculateSummary],
    [Mailer.Send], and the [Logger]. *)
Record DefaultProcessor := {
  storage : Context -> string -> W -> W * (StorageError + summary.SummaryFile Reader);
  loader : Context -> Reader -> W -> W * (slice transactions.Transaction * option LoadError);
  repository : Context -> list transactions.Transaction -> W -> W * option SaveError;
  summarizer : Context -> list transactions.Transaction -> W -> W * summaries.Summary;
  mailer : Context -> string -> summaries.Summary -> W -> W * option SendError;
  logger : blend.Logger.Logger W LogError
}.

Definition NewProcessor
    (logger : blend.Logger.Logger W LogError)
    (storage : Context -> string -> W -> W * (StorageError + summary.SummaryFile Reader))
    (loader : Context -> Reader -> W -> W * (slice transactions.Transaction * option LoadError))
    (repository : Context -> list transactions.Transaction -> W -> W * option SaveError)
    (summarizer : Context -> list transactions.Transaction -> W -> W * summaries.Summary)
    (mailer : Context -> string -> summaries.Summary -> W -> W * option SendError)
    : DefaultProcessor :=
  {| logger := logger; storage := storage; loader := loader; repository := repository;
     summarizer := summarizer; mailer := mailer |}.

(** The calls that the processor makes to its collaborators, with what
    they return. *)
Inductive Call :=
| LoggerCall (level : blend.Level) (message : string)
| GetCall (path : string) (result : StorageError + summary.SummaryFile Reader)
| LoadTransactionsCall (reader : Reader)
    (result : slice transactions.Transaction * option LoadError)
| SaveCall (txns : list transactions.Transaction) (result : option SaveError)
| CalculateSummaryCall (txns : list transactions.Transaction) (result : summaries.Summary)
| SendCall (to : string) (summary : summaries.Summary) (result : option SendError).

(** What the processor acts on: the services, and the calls made so far,
    oldest first. *)
Record World := {
  services : W;
  trace : list Call
}.

Variable tp : DefaultProcessor.

(** [tp.logger.Info(ctx, message, ...)] and [tp.logger.Error(ctx, message,
    ...)]; what the logger returns is dropped. *)
Definition logger_Info (message : string) (w : World) : World :=
  let '(s, _) := blend.Logger.Info (logger tp) message (services w) in
  {| services := s; trace := (trace w ++ [LoggerCall blend.Info message])%list |}.

Definition logger_Error (message : string) (w : World) : World :=
  let '(s, _) := blend.Logger.Error (logger tp) message (services w) in
  {| services := s; trace := (trace w ++ [LoggerCall blend.Error message])%list |}.

Definition storage_Get (ctx : Context) (path : string) (w : World)
    : World * (StorageError + summary.SummaryFile Reader) :=
  let '(s, result) := storage tp ctx path (services w) in
  ({| services := s; trace := (trace w ++ [GetCall path result])%list |}, result).

Definition loader_LoadTransactions (ctx : Context) (reader : Reader) (w : World)
    : World * (slice transactions.Transaction * option LoadError) :=
  let '(s, result) := loader tp ctx reader (services w) in
  ({| services := s; trace := (trace w ++ [LoadTransactionsCall reader result])%list |}, result).

Definition repository_Save (ctx : Context) (txns : list transactions.Transaction) (w : World)
    : World * option SaveError :=
  let '(s, result) := repository tp ctx txns (services w) in
  ({| services := s; trace := (trace w ++ [SaveCall txns result])%list |}, result).

Definition summarizer_CalculateSummary (ctx : Context) (txns : list transactions.Transaction)
    (w : World) : World * summaries.Summary :=
  let '(s, result) := summarizer tp ctx txns (services w) in
  ({| services := s; trace := (trace w ++ [CalculateSummaryCall txns result])%list |}, result).

Definition mailer_Send (ctx : Context) (to : string) (summary : summaries.Summary) (w : World)
    : World * option SendError :=
  let '(s, result) := mailer tp ctx to summary (services w) in
  ({| services := s; trace := (trace w ++ [SendCall to summary result])%list |}, result).

(** [txns[i].AccountID = accountID] *)
Definition withAccountID (accountID : string) (txn : transactions.Transaction)
    : transactions.Transaction :=
  {| transactions.ID := transactions.ID txn;
     transactions.Date := transactions.Date txn;
     transactions.Amount := transactions.Amount txn;
     transactions.AccountID := accountID |}.

(** [ProcessFile] executes the entire pipeline strictly: any failure
    aborts processing with an error. *)
Definition ProcessFile (ctx : Context) (bucket key : string) (w : World)
    : World * (ProcessError + ProcessingResult) :=
  let path := "s3://" ++ bucket ++ "/" ++ key in
  (* Obtain the summary file *)
  let w := logger_Info "Obtaining summary file content from %s..." w in
  match storage_Get ctx path w with
  | (w, inl err) =>
      let w := logger_Error "Failed to load summary file: %v" w in
      (w, inl (FailedToLoadFile err))
  | (w, inr summaryFile) =>
  let w := logger_Info "Successfully loaded summary file for account %s" w in
  (* Parse transactions *)
  let w := logger_Info "Parsing transactions..." w in
  match loader_LoadTransactions ctx (summary.Content summaryFile) w with
  | (w, (_, Some err)) =>
      let w := logger_Error "Failed to parse transactions: %v" w in
      (w, inl (FailedToParseTransactions err))
  | (w, (txns, None)) =>
  let txns := update_each (withAccountID (summary.AccountID summaryFile)) txns in
  let w := logger_Info "Transactions parsed successfully (%d transactions)" w in
  (* Persist transactions *)
  let w := logger_Info "Persisting transactions to repository..." w in
  match repository_Save ctx (elems txns) w with
  | (w, Some err) =>
      let w := logger_Error "Failed to persist transactions: %v" w in
      (w, inl (FailedToPersistTransactions err))
  | (w, None) =>
  let w := logger_Info "Successfully persisted %d transactions" w in
  (* Calculate summary *)
  let w := logger_Info "Calculating summary..." w in
  let '(w, summaryData) := summarizer_CalculateSummary ctx (elems txns) w in
  let w := logger_Info "Calculated summary for account: $(%s)" w in
  let result :=
    {| FilePath := summary.Path summaryFile;
       AccountID := summary.AccountID summaryFile;
       AccountEmail := summary.AccountEmail summaryFile;
       TransactionCount := Z.of_nat (length (elems txns));
       Summary := summaryData |} in
  (* Send email if address is provided *)
  if negb (String.eqb (summary.AccountEmail summaryFile) "") then
    let w := logger_Info "Sending summary email to %s..." w in
    match mailer_Send ctx (summary.AccountEmail summaryFile) summaryData w with
    | (w, Some err) =>
        let w := logger_Error "Failed to send email: %v" w in
        (w, inl (FailedToSendEmail err))
    | (w, None) =>
        let w := logger_Info "Sent summary email to %s" w in
        let w := logger_Info "File %s processed successfully" w in
        (w, inr result)
    end
  else
    let w := logger_Info "No account email provided; skipping email sending..." w in
    let w := logger_Info "File %s processed successfully" w in
    (w, inr result)
  end end end.

End DefaultProcessor.

Arguments FailedToLoadFile {StorageError LoadError SaveError SendError} err.
Arguments FailedToParseTransactions {StorageError LoadError SaveError SendError} err.
Arguments FailedToPersistTransactions {StorageError LoadError SaveError SendError} err.
Arguments FailedToSendEmail {StorageError LoadError SaveError SendError} err.
Arguments storage {Reader W StorageError LoadError SaveError SendError LogError} d.
Arguments loader {Reader W StorageError LoadError SaveError SendError LogError} d.
Arguments repository {Reader W StorageError LoadError SaveError SendError LogError} d.
Arguments summarizer {Reader W StorageError LoadError SaveError SendError LogError} d.
Arguments mailer {Reader W StorageError LoadError SaveError SendError LogError} d.
Arguments logger {Reader W StorageError LoadError SaveError SendError LogError} d.
Arguments LoggerCall {Reader StorageError LoadError SaveError SendError} level message.
Arguments GetCall {Reader StorageError LoadError SaveError SendError} path result.
Arguments LoadTransactionsCall {Reader StorageError LoadError SaveError SendError} reader result.
Arguments SaveCall {Reader StorageError LoadError SaveError SendError} txns result.
Arguments CalculateSummaryCall {Reader StorageError LoadError SaveError SendError} txns result.
Arguments SendCall {Reader StorageError LoadError SaveError SendError} to summary result.
Arguments services {Reader W StorageError LoadError SaveError SendError} w.
Arguments trace {Reader W StorageError LoadError SaveError SendError} w.
Arguments ProcessFile {Reader W StorageError LoadError SaveError SendError LogError}
  tp ctx bucket key w.

(** ** env_provider.go and the configuration *)

(** [ErrEnvVarNotSet], [ErrSecretNotFound] and [ErrSecretTypeMismatch]. *)
Inductive ConfigError :=
| ErrEnvVarNotSet          (* "environment variable not set" *)
| ErrSecretNotFound        (* "secret not found" *)
| ErrSecretTypeMismatch.   (* "secret type mismatch" *)

Record TransactionsDynamoDBConfig := { TableName : string }.

Record SMTPConfig := {
  Host : string;
  Port : Z;
  Username : string;
  Password : string;
  From : string
}.

Record ApplicationConfig := {
  TransactionsDynamoDB : TransactionsDynamoDBConfig;
  EmailSMTP : SMTPConfig
}.

Section Providers.

(** The state behind the providers (the environment of the process, the
    secrets manager) and their errors. *)
Variable W : Type.
Variable E : Type.

(** The interfaces [EnvProvider] and [SecretsProvider]. *)
Record EnvProvider := { GetEnv : string -> W -> W * (E + string) }.

Record SecretsProvider := {
  GetString : string -> W -> W * (E + string);
  GetInt : string -> W -> W * (E + Z)
}.

(** The values asked of the providers, with what they return. *)
Inductive Lookup :=
| GetEnvLookup (key : string) (result : E + string)
| GetStringLookup (key : string) (result : E + string)
| GetIntLookup (key : string) (result : E + Z).

Record ConfigWorld := {
  providers : W;
  lookups : list Lookup
}.

Variable env : EnvProvider.
Variable secrets : SecretsProvider.

Definition env_GetEnv (key : string) (w : ConfigWorld) : ConfigWorld * (E + string) :=
  let '(s, result) := GetEnv env key (providers w) in
  ({| providers := s; lookups := (lookups w ++ [GetEnvLookup key result])%list |}, result).

Definition secrets_GetString (key : string) (w : ConfigWorld) : ConfigWorld * (E + string) :=
  let '(s, result) := GetString secrets key (providers w) in
  ({| providers := s; lookups := (lookups w ++ [GetStringLookup key result])%list |}, result).

Definition secrets_GetInt (key : string) (w : ConfigWorld) : ConfigWorld * (E + Z) :=
  let '(s, result) := GetInt secrets key (providers w) in
  ({| providers := s; lookups := (lookups w ++ [GetIntLookup key result])%list |}, result).

(** [config.Load(ctx, env, secrets)] loads the configuration from the
    providers; the result is the configuration after the call, and the
    error. *)
Definition Load (config : ApplicationConfig) (w : ConfigWorld)
    : ConfigWorld * (ApplicationConfig * option E) :=
  (* DynamoDB table name (must be present) *)
  match env_GetEnv "DYNAMODB_TABLE_NAME" w with
  | (w, inl err) => (w, (config, Some err))
  | (w, inr table) =>
  (* SMTP configuration (all must be present) *)
  match secrets_GetString "SMTP_HOST" w with
  | (w, inl err) => (w, (config, Some err))
  | (w, inr host) =>
  match secrets_GetInt "SMTP_PORT" w with
  | (w, inl err) => (w, (config, Some err))
  | (w, inr port) =>
  match secrets_GetString "SMTP_USERNAME" w with
  | (w, inl err) => (w, (config, Some err))
  | (w, inr user) =>
  match secrets_GetString "SMTP_PASSWORD" w with
  | (w, inl err) => (w, (config, Some err))
  | (w, inr pass) =>
  match secrets_GetString "SMTP_FROM" w with
  | (w, inl err) => (w, (config, Some err))
  | (w, inr from) =>
  (* Assign to config *)
  (w, ({| TransactionsDynamoDB := {| TableName := table |};
          EmailSMTP := {| Host := host; Port := port; Username := user;
                          Password := pass; From := from |} |}, None))
  end end end end end end.

End Providers.

Arguments GetEnv {W E} e.
Arguments GetString {W E} s.
Arguments GetInt {W E} s.
Arguments GetEnvLookup {E} key result.
Arguments GetStringLookup {E} key result.
Arguments GetIntLookup {E} key result.
Arguments providers {W E} c.
Arguments lookups {W E} c.
Arguments Load {W E} env secrets config w.

(** ** The providers of the Lambda *)
Section DefaultProviders.

(** The secrets manager behind [p.client] and its answer to one
    [GetSecretValue]: an error, or an output with its [SecretString], which
    may be nil.  [strconv.Atoi]. *)
Variable SecretsClient : Type.
Variable GetSecretValue : SecretsClient -> string -> SecretsClient * option (option string).
Variable Atoi : string -> option Z.

(** What the providers act on: [os.Getenv], which gives the empty string
    for a variable that is not set, the secrets manager, and the secrets
    asked of it so far. *)
Record ProviderWorld := {
  os_Getenv : string -> string;
  secretsClient : SecretsClient;
  secretRequests : list string
}.

(** [GetEnv] returns the value of an env var or an error if not set. *)
Definition DefaultEnvProvider_GetEnv (key : string) (w : ProviderWorld)
    : ProviderWorld * (ConfigError + string) :=
  let value := os_Getenv w key in
  if String.eqb value "" then (w, inl ErrEnvVarNotSet) else (w, inr value).

(** [GetString] retrieves a secret as string. *)
Definition AWSSecretsProvider_GetString (key : string) (w : ProviderWorld)
    : ProviderWorld * (ConfigError + string) :=
  let '(c, secret) := GetSecretValue (secretsClient w) key in
  let w := {| os_Getenv := os_Getenv w; secretsClient := c;
              secretRequests := (secretRequests w ++ [key])%list |} in
  match secret with
  | Some (Some SecretString) => (w, inr SecretString)
  | Some None | None => (w, inl ErrSecretNotFound)
  end.

(** [GetInt] retrieves a secret as int. *)
Definition AWSSecretsProvider_GetInt (key : string) (w : ProviderWorld)
    : ProviderWorld * (ConfigError + Z) :=
  match AWSSecretsProvider_GetString key w with
  | (w, inl err) => (w, inl err)
  | (w, inr val) =>
      match Atoi val with
      | None => (w, inl ErrSecretTypeMismatch)
      | Some intVal => (w, inr intVal)
      end
  end.

Definition DefaultEnvProvider : EnvProvider ProviderWorld ConfigError :=
  {| GetEnv := DefaultEnvProvider_GetEnv |}.

Definition NewAWSSecretsProvider : SecretsProvider ProviderWorld ConfigError :=
  {| GetString := AWSSecretsProvider_GetString; GetInt := AWSSecretsProvider_GetInt |}.

End DefaultProviders.

Arguments os_Getenv {SecretsClient} p.
Arguments secretsClient {SecretsClient} p.
Arguments secretRequests {SecretsClient} p.

End application.

(** * Package main: the Lambda entrypoint *)
Module main.

(** What the handler reads of an [events.S3EventRecord]:
    [rec.S3.Bucket.Name] and [rec.S3.Object.Key]. *)
Record S3EventRecord := {
  Bucket_Name : string;
  Object_Key : string
}.

Inductive ValidationError :=
| MissingBucketAndKey               (* "missing both bucket name and object key" *)
| MissingBucketName (key : string)  (* "missing bucket name for object key: %s" *)
| MissingObjectKey (bucket : string).  (* "missing object key for bucket: %s" *)

(** [validateS3Record] ensures the record has the minimum information
    required. *)
Definition validateS3Record (rec : S3EventRecord) : ValidationError + string * string :=
  let bucket := Bucket_Name rec in
  let key := Object_Key rec in
  if String.eqb bucket "" && String.eqb key "" then inl MissingBucketAndKey
  else if String.eqb bucket "" then inl (MissingBucketName key)
  else if String.eqb key "" then inl (MissingObjectKey bucket)
  else inr (bucket, key).

(** ** The domain components that [buildDependencies] builds, and the
    processor that [buildProcessor] makes of them *)
Section Components.

(** The S3 service and the DynamoDB service, as the storage and the
    repository see them; the body of an object gives the lines of its
    text. *)
Variable Map_unicode_ToLower : string -> string.
Variable S3Client : Type.
Variable GetObject : S3Client -> string -> string -> S3Client * option (list GoCsv.TextLine).
Variable GetObjectTagging : S3Client -> string -> string -> S3Client * option (list AwsS3.Tag).
Variable DynamoClient : Type.
Variable BatchWriteItem :
  DynamoClient -> gmap string (list transactions.WriteRequest)
  -> DynamoClient * transactions.BatchWriteItemResult.
Variable uuid_New : nat -> string.

(** [strconv.ParseFloat], and [time.Now().Year()] when the loader is
    built. *)
Variable ParseFloat : string -> option float.
Variable now_year : Z.

(** What the mailer and the logger act on (the SMTP server, the standard
    output), the method [Send] of [mailing.NewSMTPMailer(...)] and the
    logger. *)
Variable Outside : Type.
Variables SendError LogError : Type.
Variable smtp_Send : string -> summaries.Summary -> Outside -> Outside * option SendError.
Variable stdout_logger : blend.Logger.Logger Outside LogError.

Record Services := {
  s3 : summaries.S3World S3Client;
  dynamodb : transactions.World DynamoClient;
  outside : Outside
}.

(** [summaries.NewS3SummaryFilesStorage(s3Client)] *)
Definition storage (ctx : Context) (path : string) (w : Services)
    : Services * (summaries.StorageError + summary.SummaryFile (list GoCsv.TextLine)) :=
  let '(s, result) :=
    summaries.Get Map_unicode_ToLower (list GoCsv.TextLine) S3Client GetObject GetObjectTagging
      path (s3 w) in
  ({| s3 := s; dynamodb := dynamodb w; outside := outside w |}, result).

(** [transactions.NewCSVTransactionLoader()].  The loader of the default
    configuration makes its slice with the capacity 100, so that its
    [LoadTransactions] always returns; the other case is never reached. *)
Definition loader (ctx : Context) (reader : list GoCsv.TextLine) (w : Services)
    : Services * (slice transactions.Transaction * option transactions.LoadError) :=
  match transactions.LoadTransactions ParseFloat
          (transactions.NewCSVTransactionLoader now_year) ctx reader with
  | Returns results => (w, results)
  | Panics => (w, (Nil, None))
  end.

(** [transactions.NewDynamoTransactionsRepository(ddbClient, tableName)] *)
Definition repo (tableName : string) (ctx : Context) (txns : list transactions.Transaction)
    (w : Services) : Services * option transactions.SaveError :=
  let '(d, result) :=
    transactions.Save DynamoClient BatchWriteItem uuid_New tableName txns (dynamodb w) in
  ({| s3 := s3 w; dynamodb := d; outside := outside w |}, result).

(** [summaries.NewDefaultSummarizer()] *)
Definition summarizer (ctx : Context) (txns : list transactions.Transaction) (w : Services)
    : Services * summaries.Summary :=
  (w, summaries.CalculateSummary txns).

Definition on_outside {A} (f : Outside -> Outside * A) (w : Services) : Services * A :=
  let '(o, result) := f (outside w) in
  ({| s3 := s3 w; dynamodb := dynamodb w; outside := o |}, result).

(** [mailing.NewSMTPMailer(...)] *)
Definition mailer (ctx : Context) (to : string) (summary : summaries.Summary) (w : Services)
    : Services * option SendError :=
  on_outside (smtp_Send to summary) w.

Definition logger : blend.Logger.Logger Services LogError :=
  {| blend.Logger.Debug := fun message => on_outside (blend.Logger.Debug stdout_logger message);
     blend.Logger.Info := fun message => on_outside (blend.Logger.Info stdout_logger message);
     blend.Logger.Warn := fun message => on_outside (blend.Logger.Warn stdout_logger message);
     blend.Logger.Error := fun message => on_outside (blend.Logger.Error stdout_logger message);
     blend.Logger.Fatal := fun message => on_outside (blend.Logger.Fatal stdout_logger message) |}.

(** [application.NewProcessor(deps.Logger, deps.Storage, deps.Loader,
    deps.Repository, deps.Summarizer, deps.Mailer)], for the table name of
    the configuration. *)
Definition processor (tableName : string) :=
  application.NewProcessor (list GoCsv.TextLine) Services
    summaries.StorageError transactions.LoadError transactions.SaveError SendError LogError
    logger storage loader (repo tableName) summarizer mailer.

End Components.

(** [ProcessingTimeout], 5 minutes in nanoseconds. *)
Definition ProcessingTimeout : Z := 5 * 60 * 1000000000.

Section Handler.

(** The state of the services behind the processor and the logger, the
    error and the result of [ProcessFile], and the errors of the logger and
    of the initialization. *)
Variable W : Type.
Variables ProcessError ProcessingResult LogError InitError : Type.

(** [application.TransactionProcessor]: the method [ProcessFile]. *)
Definition TransactionProcessor : Type :=
  Context -> string -> string -> W -> W * (ProcessError + ProcessingResult).

(** [buildProcessor()]: the processor, or the error of the
    initialization. *)
Variable buildProcessor : W -> W * (InitError + TransactionProcessor).

(** [initializeLogger()]: the logger of [blend.Default(os.Stdout)];
    [os.Stdout] is not nil, so that there is no error. *)
Variable initializeLogger : blend.Logger.Logger W LogError.

(** [context.WithTimeout(ctx, timeout)] *)
Variable WithTimeout : Context -> Z -> Context.

(** [time.Now()], in nanoseconds, and [Duration.String()]. *)
Variable time_Now : W -> Z.
Variable Duration_String : Z -> string.

(** The error of a record: "validation failed: %w" of the error of
    [validateS3Record], or the error of [ProcessFile]. *)
Inductive Cause :=
| ValidationFailed (err : ValidationError)
| ProcessingFailed (err : ProcessError).

(** "record %d (s3://%s/%s): %w" *)
Record RecordError := {
  recordIndex : Z;
  bucket : string;
  key : string;
  cause : Cause
}.

Record ProcessingStats := {
  TotalRecords : Z;
  SuccessCount : Z;
  FailureCount : Z;
  ProcessingTime : Z;
  Errors : list RecordError
}.

(** [AddError] adds an error to the processing stats. *)
Definition AddError (s : ProcessingStats) (recordIndex : Z) (bucket key : string) (err : Cause)
    : ProcessingStats :=
  let wrappedErr :=
    {| recordIndex := recordIndex; bucket := bucket; key := key; cause := err |} in
  {| TotalRecords := TotalRecords s;
     SuccessCount := SuccessCount s;
     FailureCount := FailureCount s + 1;
     ProcessingTime := ProcessingTime s;
     Errors := (Errors s ++ [wrappedErr])%list |}.

(** The calls of the handler, with what they return. *)
Inductive Call :=
| LoggerCall (level : blend.Level) (message : string)
| BuildProcessorCall
| ProcessFileCall (ctx : Context) (bucket key : string)
    (result : ProcessError + ProcessingResult).

(** What the handler acts on: the services, the package variables and
    the calls made so far.  [processorOnce] is [None] until
    [processorOnce.Do] has run; then it holds what [buildProcessor]
    returned, that is the values of [processor] and [initError]. *)
Record World := {
  services : W;
  processorOnce : option (InitError + TransactionProcessor);
  trace : list Call
}.

(** [getProcessor] returns the singleton processor instance, initializing
    it once. *)
Definition getProcessor (w : World) : World * (InitError + TransactionProcessor) :=
  match processorOnce w with
  | Some built => (w, built)
  | None =>
      let '(s, built) := buildProcessor (services w) in
      ({| services := s; processorOnce := Some built;
          trace := (trace w ++ [BuildProcessorCall])%list |}, built)
  end.

Definition logger_log (level : blend.Level)
    (method : blend.Logger.Logger W LogError -> string -> W -> W * option LogError)
    (message : string) (w : World) : World :=
  let '(s, _) := method initializeLogger message (services w) in
  {| services := s; processorOnce := processorOnce w;
     trace := (trace w ++ [LoggerCall level message])%list |}.

Definition logger_Info := logger_log blend.Info blend.Logger.Info.
Definition logger_Warn := logger_log blend.Warn blend.Logger.Warn.
Definition logger_Error := logger_log blend.Error blend.Logger.Error.

Definition proc_ProcessFile (proc : TransactionProcessor) (ctx : Context) (bucket key : string)
    (w : World) : World * (ProcessError + ProcessingResult) :=
  let '(s, result) := proc ctx bucket key (services w) in
  ({| services := s; processorOnce := processorOnce w;
      trace := (trace w ++ [ProcessFileCall ctx bucket key result])%list |}, result).

(** [processRecord] handles the processing of a single S3 record; it
    returns the stats, which it updates through its pointer, and the
    error. *)
Definition processRecord (ctx : Context) (proc : TransactionProcessor) (recordIndex : Z)
    (rec : S3EventRecord) (stats : ProcessingStats) (w : World)
    : World * (ProcessingStats * option Cause) :=
  let recordCtx := WithTimeout ctx ProcessingTimeout in
  match validateS3Record rec with
  | inl err =>
      let w := logger_Error "Failed to validate S3 record %d: %v" w in
      let stats := AddError stats recordIndex "" "" (ValidationFailed err) in
      (w, (stats, Some (ValidationFailed err)))
  | inr (bucket, key) =>
      let w := logger_Info "Processing file from S3: s3://%s/%s..." w in
      match proc_ProcessFile proc recordCtx bucket key w with
      | (w, inl err) =>
          let w := logger_Error "Failed to process file s3://%s/%s: %v" w in
          let stats := AddError stats recordIndex bucket key (ProcessingFailed err) in
          (w, (stats, Some (ProcessingFailed err)))
      | (w, inr _) =>
          let w := logger_Info "Successfully processed file s3://%s/%s" w in
          (w, (stats, None))
      end
  end.

(** [generateSummary] creates the summary of the processing results. *)
Definition generateSummary (stats : ProcessingStats) (w : World) : World * string :=
  let summary :=
    "S3 event processing completed: " ++ GoStrconv.Itoa (SuccessCount stats)
      ++ " succeeded, " ++ GoStrconv.Itoa (FailureCount stats)
      ++ " failed (total: " ++ GoStrconv.Itoa (TotalRecords stats)
      ++ ", duration: " ++ Duration_String (ProcessingTime stats) ++ ")" in
  let w :=
    if (0 <? length (Errors stats))%nat then
      let w := logger_Warn "Processing completed with %d errors" w in
      fold_left (fun w _ => logger_Error "Error details: %v" w) (Errors stats) w
    else w in
  let w := logger_Info summary w in
  (w, summary).

(** The loop of [Handler] over the records, from index [i]. *)
Fixpoint Handler_loop (ctx : Context) (proc : TransactionProcessor) (i : Z)
    (records : list S3EventRecord) (stats : ProcessingStats) (w : World)
    : World * ProcessingStats :=
  match records with
  | [] => (w, stats)
  | rec :: records' =>
      match processRecord ctx proc i rec stats w with
      | (w, (stats, Some _)) => Handler_loop ctx proc (i + 1) records' stats w
      | (w, (stats, None)) =>
          let stats :=
            {| TotalRecords := TotalRecords stats;
               SuccessCount := SuccessCount stats + 1;
               FailureCount := FailureCount stats;
               ProcessingTime := ProcessingTime stats;
               Errors := Errors stats |} in
          Handler_loop ctx proc (i + 1) records' stats w
      end
  end.

(** "failed to initialize processor: %w" *)
Inductive HandlerError :=
| FailedToInitializeProcessor (err : InitError).

(** [Handler] is the Lambda entrypoint for S3 "ObjectCreated:*"
    notifications; [Records] are the records of the event. *)
Definition Handler (ctx : Context) (Records : list S3EventRecord) (w : World)
    : World * (string * option HandlerError) :=
  let startTime := time_Now (services w) in
  match getProcessor w with
  | (w, inl err) => (w, ("", Some (FailedToInitializeProcessor err)))
  | (w, inr proc) =>
      let w := logger_Info "Starting S3 event processing with %d records..." w in
      let stats :=
        {| TotalRecords := Z.of_nat (length Records);
           SuccessCount := 0;
           FailureCount := 0;
           ProcessingTime := 0;
           Errors := [] |} in
      let '(w, stats) := Handler_loop ctx proc 0 Records stats w in
      let stats :=
        {| TotalRecords := TotalRecords stats;
           SuccessCount := SuccessCount stats;
           FailureCount := FailureCount stats;
           ProcessingTime := time_Now (services w) - startTime;
           Errors := Errors stats |} in
      let '(w, summary) := generateSummary stats w in
      (w, (summary, None))
  end.

End Handler.

Arguments ValidationFailed {ProcessError} err.
Arguments ProcessingFailed {ProcessError} err.
Arguments recordIndex {ProcessError} r.
Arguments bucket {ProcessError} r.
Arguments key {ProcessError} r.
Arguments cause {ProcessError} r.
Arguments TotalRecords {ProcessError} p.
Arguments SuccessCount {ProcessError} p.
Arguments FailureCount {ProcessError} p.
Arguments ProcessingTime {ProcessError} p.
Arguments Errors {ProcessError} p.
Arguments LoggerCall {ProcessError ProcessingResult} level message.
Arguments BuildProcessorCall {ProcessError ProcessingResult}.
Arguments ProcessFileCall {ProcessError ProcessingResult} ctx bucket key result.
Arguments services {W ProcessError ProcessingResult InitError} w.
Arguments processorOnce {W ProcessError ProcessingResult InitError} w.
Arguments trace {W ProcessError ProcessingResult InitError} w.
Arguments FailedToInitializeProcessor {InitError} err.

End main.

(** * Vocabulary of the specification *)

(** A decimal digit. *)
Definition is_digit (c : ascii) : bool := (48 <=? byte c) && (byte c <=? 57).

(** A string of decimal digits only. *)
Fixpoint all_digits (s : string) : bool :=
  match s with
  | EmptyString => true
  | String c s' => is_digit c && all_digits s'
  end.

(** The integer a digit string denotes, read after the digits of [n]. *)
Fixpoint decimal_from (n : Z) (s : string) : Z :=
  match s with
  | EmptyString => n
  | String c s' => decimal_from (n * 10 + (byte c - 48)) s'
  end.

Definition decimal (s : string) : Z := decimal_from 0 s.

(** One or two decimal digits. *)
Definition digits12 (s : string) : Prop :=
  all_digits s = true /\ (String.length s = 1 \/ String.length s = 2)%nat.

(** A string without the separator "/". *)
Fixpoint no_slash (s : string) : bool :=
  match s with
  | EmptyString => true
  | String c s' => negb (byte c =? 47) && no_slash s'
  end.

(** A context that is never done while the loader runs. *)
Definition never_done (ctx : Context) : Prop := forall n, ctx n = false.

Section LoaderVocabulary.

Import transactions.

Variable ParseFloat : string -> option float.
Variable loader : CSVTransactionLoader.

(** A data line is accepted by the loader when the reader finds a record
    in it and [parseRecord] returns no error for the record. *)
Definition line_ok (l : GoCsv.Line) : bool :=
  match l with
  | GoCsv.Fields record =>
      match parseRecord ParseFloat loader record 0 with
      | inr _ => true
      | inl _ => false
      end
  | GoCsv.Malformed => false
  end.

(** The position, from 0, of the first line among the data lines that the
    loader does not accept: the first invalid line for the loader. *)
Fixpoint first_invalid (data : list GoCsv.Line) : option nat :=
  match data with
  | [] => None
  | l :: data' => if line_ok l then option_map S (first_invalid data') else Some O
  end.

(** The transaction of each line that the loader accepts, in the order of
    the lines. *)
Fixpoint parsed (data : list GoCsv.Line) : list Transaction :=
  match data with
  | [] => []
  | GoCsv.Fields record :: data' =>
      match parseRecord ParseFloat loader record 0 with
      | inr txn => txn :: parsed data'
      | inl _ => parsed data'
      end
  | GoCsv.Malformed :: data' => parsed data'
  end.

End LoaderVocabulary.

(** ** The field rules of the specification

    The rules of section 4.1 for the three fields of a data line, in the
    words of the specification; the loader is compared with them. *)
Section FieldRules.

Import transactions.

(** "parsed as a real number": the numeric parsing, [strconv.ParseFloat];
    and "the year at the time the Parser instance was constructed". *)
Variable ParseFloat : string -> option float.
Variable now_year : Z.

(** id: "non-empty string of digits (leading/trailing whitespace
    tolerated), parsed as an unsigned integer". *)
Definition spec_id (field : string) : option Z :=
  let digits := GoStrings.TrimSpace field in
  if negb (String.eqb digits "") && all_digits digits then Some (decimal digits) else None.

(** The parts of a field that its "/" separate. *)
Fixpoint parts (field : string) : list string :=
  match field with
  | EmptyString => [""]
  | String c field' =>
      if byte c =? 47 then "" :: parts field'
      else match parts field' with
           | part :: rest => String c part :: rest
           | [] => [String c ""]
           end
  end.

(** A numeric component of a date: a month or a day, "M" or "D", of one
    or two digits, and a year, "YYYY", of four. *)
Definition month_or_day (part : string) : option Z :=
  if all_digits part && ((String.length part =? 1) || (String.length part =? 2))%nat
  then Some (decimal part) else None.

Definition year_of_four (part : string) : option Z :=
  if all_digits part && (String.length part =? 4)%nat then Some (decimal part) else None.

(** "No range validation beyond what the underlying date constructor
    rejects (e.g., month 13 fails)": the day is one of the calendar. *)
Definition calendar_date (year month day : Z) : option GoTime.Time :=
  if (1 <=? month) && (month <=? 12) && (1 <=? day) && (day <=? GoTime.daysIn month year)
  then Some (GoTime.Date year month day) else None.

(** date: "accepts M/D (year omitted, implicitly the year at the time the
    Parser instance was constructed) or M/D/YYYY.  Any other slash count,
    non-numeric component, or empty string -> error." *)
Definition spec_date (field : string) : option GoTime.Time :=
  match parts field with
  | [m; d] =>
      match month_or_day m, month_or_day d with
      | Some month, Some day => calendar_date now_year month day
      | _, _ => None
      end
  | [m; d; y] =>
      match month_or_day m, month_or_day d, year_of_four y with
      | Some month, Some day, Some year => calendar_date year month day
      | _, _, _ => None
      end
  | _ => None
  end.

(** A date field in the form with a year, M/D/YYYY: it has three parts. *)
Definition has_year (field : string) : bool := (length (parts field) =? 3)%nat.

(** amount: "optional leading + or -; + is stripped before numeric
    parsing; absence of sign is treated as positive; otherwise parsed as a
    real number.  Empty or non-numeric -> error." *)
Definition spec_amount (field : string) : option float :=
  match field with
  | EmptyString => None
  | String c rest => if byte c =? 43 then ParseFloat rest else ParseFloat field
  end.

(** The transaction that a data line spells: "exactly 3 fields: id, date,
    signed-amount", each by its rule; [None] for an invalid line.  (That
    the id is not 0 is no rule of the field: it is the invariant of the
    data model.) *)
Definition spec_transaction (l : GoCsv.Line) : option Transaction :=
  match l with
  | GoCsv.Fields [id; date; amount] =>
      match spec_id id, spec_date date, spec_amount amount with
      | Some i, Some t, Some a =>
          Some {| ID := i; Date := t; Amount := a; AccountID := "" |}
      | _, _, _ => None
      end
  | _ => None
  end.

(** A data line whose date is in the form M/D/YYYY. *)
Definition dated_with_year (l : GoCsv.Line) : bool :=
  match l with
  | GoCsv.Fields [_; date; _] => has_year date
  | _ => false
  end.

(** A plain data line: a valid one, with its date in the form M/D and an
    id of at most 32 bits. *)
Definition plain_line (l : GoCsv.Line) : Prop :=
  exists txn,
    spec_transaction l = Some txn /\ dated_with_year l = false /\ ID txn <= 4294967295.

(** A well-formed input with the data rows [rows]: "one header line
    followed by zero or more data lines, each with exactly 3 fields", the
    header "naming three columns", one line after the other without any
    other line, and every data line valid by the rules. *)
Definition well_formed (text : list GoCsv.TextLine) (rows : list GoCsv.Line) : Prop :=
  exists header,
    text = GoCsv.text_of (GoCsv.Fields header :: rows) /\ length header = 3%nat /\
    Forall (fun row => spec_transaction row <> None) rows.

End FieldRules.

(** The number of a line of a text that starts a record, the [k]-th
    record from 0, counting every line from 1; [None] when the text has no
    such record. *)
Fixpoint line_of_record (text : list GoCsv.TextLine) (k : nat) : option Z :=
  match text with
  | [] => None
  | GoCsv.Starts _ :: text' =>
      match k with
      | O => Some 1
      | S k' => option_map Z.succ (line_of_record text' k')
      end
  | _ :: text' => option_map Z.succ (line_of_record text' k)
  end.

(** The line number that an error of the loader reports. *)
Definition reportedLine (e : transactions.LoadError) : option Z :=
  match e with
  | transactions.ContextCancelledAt n => Some n
  | transactions.CSVParsingErrorAt n _ => Some n
  | transactions.RecordValidationErrorAt n _ => Some n
  | _ => None
  end.

(** ** An instance of [ParseFloat] to run the loader with

    [atof64exact], the exact path of [strconv.ParseFloat]: for a plain
    decimal literal (an optional minus sign, digits, and an optional "."
    with more digits) of at most 15 digits, the result is the digits as a
    [float64], divided by the power of ten of the number of digits after the
    point; both are exact, so the quotient is the correctly rounded value.
    Every other string is outside this instance and gets [None]. *)
Fixpoint split_point (s : string) : string * string :=
  match s with
  | EmptyString => ("", "")
  | String c s' =>
      if byte c =? 46 then ("", s')
      else let '(i, f) := split_point s' in (String c i, f)
  end.

Definition float64_of_Z (z : Z) : float := PrimFloat.of_uint63 (Uint63.of_Z z).

Definition atof64exact (s : string) : option float :=
  let '(neg, s) :=
    match s with
    | String c s' => if byte c =? 45 then (true, s') else (false, s)
    | EmptyString => (false, s)
    end in
  let '(i, f) := split_point s in
  let n := (String.length i + String.length f)%nat in
  if all_digits i && all_digits f && (0 <? n)%nat && (n <=? 15)%nat then
    let q := PrimFloat.div (float64_of_Z (decimal (i ++ f)))
                           (float64_of_Z (10 ^ Z.of_nat (String.length f))) in
    Some (if neg then PrimFloat.opp q else q)
  else None.

(** ** A sample input

    The header and the first four data lines of the sample file of the
    README, as the records the CSV reader finds, and the transactions they
    spell for a loader built in 2024. *)
Definition sample_header : list string := ["Id"; "Date"; "Transaction"].

Definition sample_data : list GoCsv.Line :=
  [GoCsv.Fields ["1"; "1/1"; "-150"];
   GoCsv.Fields ["2"; "1/3"; "+900.5"];
   GoCsv.Fields ["3"; "1/15"; "+99.5"];
   GoCsv.Fields ["4"; "1/20"; "-50"]].

Definition sample_transaction (id month day : Z) (amount : float) : transactions.Transaction :=
  {| transactions.ID := id;
     transactions.Date := GoTime.Date 2024 month day;
     transactions.Amount := amount;
     transactions.AccountID := "" |}.

Definition sample_transactions : list transactions.Transaction :=
  [sample_transaction 1 1 1 (-150)%float;
   sample_transaction 2 1 3 900.5%float;
   sample_transaction 3 1 15 99.5%float;
   sample_transaction 4 1 20 (-50)%float].

(** ** The inputs of the repository's tests for dates with a year

    The data lines of the tests "it should successfully load transactions
    with full year dates" and "it should handle mixed date formats" of
    csv_loader_test.go, under the header of the sample, and the transactions
    that the first test expects. *)
Definition full_year_data : list GoCsv.Line :=
  [GoCsv.Fields ["1"; "1/5/2022"; "+1250.0"];
   GoCsv.Fields ["2"; "2/14/2023"; "-85.5"];
   GoCsv.Fields ["3"; "12/31/2024"; "+300.0"]].

Definition dated (id year month day : Z) (amount : float) : transactions.Transaction :=
  {| transactions.ID := id;
     transactions.Date := GoTime.Date year month day;
     transactions.Amount := amount;
     transactions.AccountID := "" |}.

Definition full_year_transactions : list transactions.Transaction :=
  [dated 1 2022 1 5 1250%float; dated 2 2023 2 14 (-85.5)%float; dated 3 2024 12 31 300%float].

Definition mixed_data : list GoCsv.Line :=
  [GoCsv.Fields ["1"; "7/15"; "+60.5"];
   GoCsv.Fields ["2"; "1/5/2022"; "+1250.0"];
   GoCsv.Fields ["3"; "8/2"; "-20.46"]].

(** ** Inputs with an invalid line

    A text whose second record, with an id that is no number, is on its
    line 6, after four empty lines; and a text whose first invalid line is
    line 3, after a valid line with a date of the form M/D/YYYY. *)
Definition spaced_text : list GoCsv.TextLine :=
  [GoCsv.Starts (GoCsv.Fields sample_header);
   GoCsv.Blank; GoCsv.Blank; GoCsv.Blank; GoCsv.Blank;
   GoCsv.Starts (GoCsv.Fields ["x"; "1/1"; "5"])].

Definition late_invalid_text : list GoCsv.TextLine :=
  GoCsv.text_of
    [GoCsv.Fields sample_header;
     GoCsv.Fields ["1"; "1/5/2022"; "+1250.0"];
     GoCsv.Fields ["x"; "1/15"; "+99.5"]].

(** ** The summary of the specification *)

Section SummaryVocabulary.

Import transactions summaries.

(** The amounts added one after the other, in the order of the list, to a
    total that starts at zero. *)
Fixpoint sum_after (total : float) (values : list float) : float :=
  match values with
  | [] => total
  | value :: values' => sum_after (PrimFloat.add total value) values'
  end.

Definition sequential_sum (values : list float) : float := sum_after 0%float values.

(** The arithmetic mean: the sum divided by the count, 0 for no value;
    the count is the number of values, as a [float64]. *)
Definition mean (values : list float) : float :=
  match values with
  | [] => 0%float
  | _ => PrimFloat.div (sequential_sum values) (float64_of_Z (Z.of_nat (length values)))
  end.

Definition strictly_negative (values : list float) : list float :=
  List.filter (fun value => PrimFloat.ltb value 0) values.

Definition strictly_positive (values : list float) : list float :=
  List.filter (fun value => PrimFloat.ltb 0 value) values.

(** The transactions of a (year, month) bucket, those dated in that month
    of that year of the calendar, in the order of the list. *)
Definition bucket (year month : Z) (txns : list Transaction) : list Transaction :=
  List.filter
    (fun txn => (GoTime.Year (Date txn) =? year) && (GoTime.Month (Date txn) =? month))
    txns.

(** A transaction dated in the year -1, and the key that the conversion
    of its year to a [uint] gives, 2^64 - 1. *)
Definition before_year_zero : Transaction :=
  {| ID := 1; Date := GoTime.Date (-1) 3 15; Amount := 5%float; AccountID := "" |}.

Definition wrapped_year : Z := 18446744073709551615.

(** The statistics of a bucket. *)
Definition bucket_summary (txns : list Transaction) : MonthlySummary :=
  {| TransactionCount := Z.of_nat (length txns);
     AverageDebit := mean (strictly_negative (map Amount txns));
     AverageCredit := mean (strictly_positive (map Amount txns)) |}.

(** The entry of a (year, month) bucket in a map of years to months. *)
Definition entry {A} (m : gmap Z (gmap Z A)) (year month : Z) : option A :=
  m !! year ≫= (fun months => months !! month).

(** The transactions that the summarizer files under a key of its map:
    those whose year, converted to a [SummaryYear], is the key, and whose
    month is the month. *)
Definition keyed_group (key month : Z) (txns : list Transaction) : list Transaction :=
  List.filter
    (fun txn => (SummaryYear (GoTime.Year (Date txn)) =? key)
                && (GoTime.Month (Date txn) =? month))
    txns.

End SummaryVocabulary.

(** ** The calls of a save *)

(** The consecutive batches of at most [n] items of a list ([n] at least
    1), in the order of the list. *)
Equations? chunks {A} (n : nat) (l : list A) : list (list A) by wf (length l) lt :=
  chunks n [] := [];
  chunks n (x :: l) := (x :: take (n - 1) l) :: chunks n (drop (n - 1) l).
Proof. rewrite length_drop. cbn. lia. Qed.

(** [ceil(a / b)] *)
Definition ceil_div (a b : nat) : nat := ((a + b - 1) / b)%nat.

Section RepositoryVocabulary.

Import transactions.

Variable tableName : string.

(** A write request carries a transaction when its item holds the id, the
    formatted date, the amount and the account of the transaction. *)
Definition carries (request : WriteRequest) (txn : Transaction) : Prop :=
  InternalID (Item request) = ID txn /\
  dynamoDate (Item request) = GoTime.Format_RFC3339_Z (Date txn) /\
  dynamoAmount (Item request) = Amount txn /\
  dynamoAccountID (Item request) = AccountID txn.

(** A call submits a batch when its input holds, for the table, one write
    request per transaction of the batch, in the order of the batch. *)
Definition submits (call : CallRecord) (batch : list Transaction) : Prop :=
  exists requests,
    input call = {[ tableName := requests ]} /\ Forall2 carries requests batch.

Definition is_initial (call : CallRecord) : bool :=
  match site call with
  | InitialWrite => true
  | RetryWrite _ => false
  end.

(** The initial batch writes among the calls, in the order they were made. *)
Definition initial_writes (trace : list CallRecord) : list CallRecord :=
  List.filter is_initial trace.

(** Every call after the first one resubmits exactly the unprocessed items
    of the response to the call before it, which had some. *)
Fixpoint resubmits (calls : list CallRecord) : Prop :=
  match calls with
  | call :: (next :: _) as rest =>
      (exists unprocessed,
         result call = BatchWriteItemOutput unprocessed /\
         (0 < size unprocessed)%nat /\ input next = unprocessed) /\
      resubmits rest
  | _ => True
  end.

(** What the last call of a batch makes of the batch: a failed call fails
    it, a response without unprocessed items completes it, and a response
    with unprocessed items leaves the number of those of the table
    unwritten. *)
Definition batch_outcome (calls : list CallRecord) : option BatchError :=
  match last calls with
  | None => None
  | Some call =>
      match result call, site call with
      | BatchWriteItemError, InitialWrite => Some ExecuteBatchWriteFailed
      | BatchWriteItemError, RetryWrite n => Some (RetryFailed n)
      | BatchWriteItemOutput unprocessed, _ =>
          if (0 <? size unprocessed)%nat
          then Some (ItemsRemainUnprocessed 3
                       (length (default [] (unprocessed !! tableName))))
          else None
      end
  end.

(** The calls made for one batch: the initial write of the batch, then at
    most three retries, numbered from 1, each resubmitting what the call
    before it left unprocessed; retries go on until a call fails, a
    response has no unprocessed items, or three retries are made. *)
Definition batch_trace (batch : list Transaction) (calls : list CallRecord)
    (err : option BatchError) : Prop :=
  exists first retries,
    calls = first :: retries /\
    submits first batch /\
    map site calls = InitialWrite :: map RetryWrite (seq 1 (length retries)) /\
    (length retries <= 3)%nat /\
    resubmits calls /\
    err = batch_outcome calls /\
    (forall remaining,
       err = Some (ItemsRemainUnprocessed 3 remaining) -> (length retries = 3)%nat).

(** The calls of a save from index [i] on, batch by batch: the save goes
    through the batches in order and stops at the first that fails. *)
Inductive save_trace (transactions : list Transaction)
    : nat -> list (list CallRecord) -> option SaveError -> Prop :=
| save_trace_done i :
    (length transactions <= i)%nat ->
    save_trace transactions i [] None
| save_trace_failed i calls err :
    (i < length transactions)%nat ->
    batch_trace (take 25 (drop i transactions)) calls (Some err) ->
    save_trace transactions i [calls] (Some (BatchFailedAt i err))
| save_trace_next i calls rest err :
    (i < length transactions)%nat ->
    batch_trace (take 25 (drop i transactions)) calls None ->
    save_trace transactions (i + 25) rest err ->
    save_trace transactions i (calls :: rest) err.

End RepositoryVocabulary.

(** ** Sample services

    Three services to run the repository against: one that completes
    every request but for its first item, one that does so on its first call
    only and completes every later request, and one that fails every call.
    The state of each is the number of calls it has answered. *)
Section RepositorySamples.

Import transactions.

Definition service_leaving_first (c : nat) (RequestItems : gmap string (list WriteRequest))
    : nat * BatchWriteItemResult :=
  (S c, BatchWriteItemOutput (take 1 <$> RequestItems)).

Definition service_leaving_first_once (c : nat) (RequestItems : gmap string (list WriteRequest))
    : nat * BatchWriteItemResult :=
  (S c, BatchWriteItemOutput (if (c =? 0)%nat then take 1 <$> RequestItems else ∅)).

Definition service_down (c : nat) (RequestItems : gmap string (list WriteRequest))
    : nat * BatchWriteItemResult :=
  (S c, BatchWriteItemError).

Definition sample_uuid (n : nat) : string := "uuid-" ++ GoStrconv.Itoa (Z.of_nat n).

Definition sample_table : string := "transactions".

Definition fresh_world : World nat := {| client := 0%nat; uuids := 0%nat; calls := [] |}.

(** 26 transactions: a batch of 25 and a batch of one. *)
Definition sample_26 : list Transaction :=
  map (fun n => sample_transaction (Z.of_nat n) 1 1 1%float) (seq 1 26).

(** The number of write requests of a request or of a response. *)
Definition items (RequestItems : gmap string (list WriteRequest)) : nat :=
  map_fold (fun _ requests n => (length requests + n)%nat) 0%nat RequestItems.

(** The items that a call wrote: those of its input that its response
    does not return as unprocessed. *)
Definition written (call : CallRecord) : nat :=
  match result call with
  | BatchWriteItemOutput unprocessed => (items (input call) - items unprocessed)%nat
  | BatchWriteItemError => 0%nat
  end.

(** The transactions of a save that no call wrote. *)
Definition unwritten (transactions : list Transaction) (trace : list CallRecord) : nat :=
  (length transactions - list_sum (map written trace))%nat.

(** The sample transactions saved by the service that leaves an item once:
    the initial write and one retry. *)
Definition saved_after_one_retry : World nat * option SaveError :=
  Eval vm_compute in
    Save nat service_leaving_first_once sample_uuid sample_table sample_transactions fresh_world.

Definition batch_after_one_retry : World nat * option BatchError :=
  Eval vm_compute in
    saveBatch nat service_leaving_first_once sample_uuid sample_table sample_transactions
      fresh_world.

(** The 26 transactions against the service that always leaves an item. *)
Definition failed_after_retries : World nat * option SaveError :=
  Eval vm_compute in
    Save nat service_leaving_first sample_uuid sample_table sample_26 fresh_world.

End RepositorySamples.

(** ** Totals over a summary *)

(** The sum of a measure over the entries of a map. *)
Definition map_sum {A} (f : A -> Z) (m : gmap Z A) : Z :=
  map_fold (fun _ x total => f x + total) 0 m.

(** The transaction counts of all the buckets of a summary, added up. *)
Definition count_all (yearlyData : gmap Z (gmap Z summaries.MonthlySummary)) : Z :=
  map_sum (map_sum summaries.TransactionCount) yearlyData.

(** ** The tags of a file *)

Section TagVocabulary.

Variable Map_unicode_ToLower : string -> string.

(** A tag that has a key and a value, and whose key is, in lower case,
    one of [names]. *)
Definition tag_named (names : list string) (t : AwsS3.Tag) : bool :=
  match AwsS3.Key t, AwsS3.Value t with
  | Some tagKey, Some _ =>
      existsb (String.eqb (GoStrings.ToLower Map_unicode_ToLower tagKey)) names
  | _, _ => false
  end.

(** The value of the last tag of the set that is named so; "" when no tag
    is. *)
Definition last_value (names : list string) (TagSet : list AwsS3.Tag) : string :=
  match List.find (tag_named names) (rev TagSet) with
  | Some t => default "" (AwsS3.Value t)
  | None => ""
  end.

End TagVocabulary.

Definition accountID_names : list string := ["accountid"; "account_id"].
Definition accountEmail_names : list string := ["accountemail"; "account_email"; "email"].

(** ** The calls of the processor *)

Section ProcessorVocabulary.

Context {Reader StorageError LoadError SaveError SendError : Type}.

Local Abbreviation Call :=
  (application.Call Reader StorageError LoadError SaveError SendError).

Definition is_logger_call (call : Call) : bool :=
  match call with
  | application.LoggerCall _ _ => true
  | _ => false
  end.

(** The calls made to the storage, the loader, the repository, the
    summarizer and the mailer, in the order they were made. *)
Definition collaborator_calls (steps : list Call) : list Call :=
  List.filter (fun call => negb (is_logger_call call)) steps.

(** The lines logged at the level of errors. *)
Definition error_lines (steps : list Call) : list Call :=
  List.filter
    (fun call =>
       match call with
       | application.LoggerCall level _ => blend.Equal level blend.Error
       | _ => false
       end)
    steps.

End ProcessorVocabulary.

(** ** The calls of the handler *)

Section HandlerVocabulary.

Import main.

Context {ProcessError ProcessingResult : Type}.

(** The calls of [ProcessFile] among the calls of the handler, in the
    order they were made: the context, the bucket and the key given, and
    what the call returned. *)
Fixpoint processed (steps : list (Call ProcessError ProcessingResult))
    : list (Context * string * string * (ProcessError + ProcessingResult)) :=
  match steps with
  | [] => []
  | ProcessFileCall ctx bucket key result :: steps' =>
      (ctx, bucket, key, result) :: processed steps'
  | _ :: steps' => processed steps'
  end.

(** The records that [validateS3Record] accepts, in the order of the
    event, as a bucket and a key. *)
Fixpoint valid_records (Records : list S3EventRecord) : list (string * string) :=
  match Records with
  | [] => []
  | rec :: Records' =>
      match validateS3Record rec with
      | inr target => target :: valid_records Records'
      | inl _ => valid_records Records'
      end
  end.

(** The number of calls of [ProcessFile] that returned a result. *)
Definition successes (steps : list (Call ProcessError ProcessingResult)) : Z :=
  Z.of_nat (length (List.filter (fun call => match call with (_, inr _) => true | _ => false end)
                      (processed steps))).

(** The lines logged with a given level and format. *)
Definition lines (level : blend.Level) (message : string)
    (steps : list (Call ProcessError ProcessingResult)) : Z :=
  Z.of_nat (length (List.filter
                      (fun call =>
                         match call with
                         | LoggerCall level' message' =>
                             blend.Equal level' level && String.eqb message' message
                         | _ => false
                         end) steps)).

(** The calls of [buildProcessor]. *)
Definition builds (steps : list (Call ProcessError ProcessingResult)) : nat :=
  length (List.filter (fun call => match call with BuildProcessorCall => true | _ => false end)
            steps).

End HandlerVocabulary.

(** "S3 event processing completed: %d succeeded, %d failed (total: %d,
    duration: %v)" *)
Definition summary_text (Duration_String : Z -> string) (succeeded failed total duration : Z)
    : string :=
  "S3 event processing completed: " ++ GoStrconv.Itoa succeeded
    ++ " succeeded, " ++ GoStrconv.Itoa failed
    ++ " failed (total: " ++ GoStrconv.Itoa total
    ++ ", duration: " ++ Duration_String duration ++ ")".

(** ** A sample deployment

    An S3 service that holds the sample file under every key but two,
    "missing.csv", which it does not have, and "bad.csv", a file whose
    second data line has no amount; every object has the tags of one
    account.  The state of the service is the number of requests it has
    answered.  The mail server accepts every message and keeps the
    addresses written to; the logger writes nothing. *)
Section SampleDeployment.

Definition sample_bad_data : list GoCsv.Line :=
  [GoCsv.Fields ["1"; "1/1"; "-150"]; GoCsv.Fields ["2"; "1/3"; ""];
   GoCsv.Fields ["3"; "1/15"; "+99.5"]].

Definition sample_GetObject (c : nat) (bucket key : string) : nat * option (list GoCsv.TextLine) :=
  (S c,
   if String.eqb key "missing.csv" then None
   else if String.eqb key "bad.csv" then Some (GoCsv.text_of (GoCsv.Fields sample_header :: sample_bad_data))
   else Some (GoCsv.text_of (GoCsv.Fields sample_header :: sample_data))).

Definition sample_tags : list AwsS3.Tag :=
  [{| AwsS3.Key := Some "AccountId"; AwsS3.Value := Some "acc-1" |};
   {| AwsS3.Key := Some "owner"; AwsS3.Value := Some "someone" |};
   {| AwsS3.Key := Some "Email"; AwsS3.Value := Some "user@example.com" |}].

Definition sample_GetObjectTagging (c : nat) (bucket key : string)
    : nat * option (list AwsS3.Tag) :=
  (S c, Some sample_tags).

Definition sample_smtp_Send (to : string) (s : summaries.Summary) (sent : list string)
    : list string * option unit :=
  ((sent ++ [to])%list, None).

Definition sample_storage_Get :=
  summaries.Get (fun s => s) (list GoCsv.TextLine) nat sample_GetObject sample_GetObjectTagging.

Definition sample_s3 : summaries.S3World nat :=
  {| summaries.s3client := 0%nat; summaries.s3calls := [] |}.

Definition sample_services : main.Services nat nat (list string) :=
  {| main.s3 := sample_s3; main.dynamodb := fresh_world; main.outside := [] |}.

Definition sample_processor :=
  main.processor (fun s => s) nat sample_GetObject sample_GetObjectTagging
    nat service_leaving_first_once sample_uuid atof64exact 2024
    (list string) unit unit sample_smtp_Send blend.NewDummyLogger sample_table.

Definition SampleWorld : Type :=
  application.World (list GoCsv.TextLine) (main.Services nat nat (list string))
    summaries.StorageError transactions.LoadError transactions.SaveError unit.

Definition SampleError : Type :=
  application.ProcessError summaries.StorageError transactions.LoadError
    transactions.SaveError unit.

Definition sample_start : SampleWorld :=
  {| application.services := sample_services; application.trace := [] |}.

(** The processor on the sample file and on the file with an invalid line. *)
Definition sample_run :=
  Eval vm_compute in application.ProcessFile sample_processor Background "bucket" "file.csv" sample_start.

Definition sample_bad_run :=
  Eval vm_compute in application.ProcessFile sample_processor Background "bucket" "bad.csv" sample_start.

(** What the storage returns for the two files. *)
Definition sample_got :=
  Eval vm_compute in sample_storage_Get "s3://bucket/file.csv" sample_s3.

Definition sample_bad_file : summary.SummaryFile (list GoCsv.TextLine) :=
  {| summary.Path := "s3://bucket/bad.csv";
     summary.AccountID := "acc-1";
     summary.AccountEmail := "user@example.com";
     summary.Content := GoCsv.text_of (GoCsv.Fields sample_header :: sample_bad_data) |}.

(** An event of three records: the sample file, a record without a bucket
    name, and the file with an invalid line. *)
Definition sample_records : list main.S3EventRecord :=
  [{| main.Bucket_Name := "bucket"; main.Object_Key := "file.csv" |};
   {| main.Bucket_Name := ""; main.Object_Key := "file.csv" |};
   {| main.Bucket_Name := "bucket"; main.Object_Key := "bad.csv" |}].

(** The handler over the sample processor, with a clock that stands
    still, and the handler of a deployment whose initialization fails. *)
Definition sample_Handler :=
  main.Handler SampleWorld SampleError application.ProcessingResult unit unit
    (fun s => (s, inr (application.ProcessFile sample_processor)))
    blend.NewDummyLogger (fun ctx _ => ctx) (fun _ => 0) (fun _ => "0s").

Definition sample_failing_Handler :=
  main.Handler SampleWorld SampleError application.ProcessingResult unit unit
    (fun s => (s, inl tt))
    blend.NewDummyLogger (fun ctx _ => ctx) (fun _ => 0) (fun _ => "0s").

Definition sample_cold
    : main.World SampleWorld SampleError application.ProcessingResult unit :=
  {| main.services := sample_start; main.processorOnce := None; main.trace := [] |}.

Definition sample_summary : string * option (main.HandlerError unit) :=
  Eval vm_compute in snd (sample_Handler Background sample_records sample_cold).

(** A loader for records of two fields, and a context that is done from
    its [n]-th poll on. *)
Definition two_fields : transactions.CSVTransactionLoaderConfig :=
  {| transactions.BufferSize := 64 * 1024; transactions.ExpectedRecords := 100;
     transactions.FieldsPerRecord := 2 |}.

Definition done_from (n : nat) : Context := fun poll => (n <=? poll)%nat.

(** An environment with the table name, and a secrets manager with every
    secret of the SMTP server. *)
Definition sample_Getenv (key : string) : string :=
  if String.eqb key "DYNAMODB_TABLE_NAME" then "transactions" else "".

Definition sample_GetSecretValue (c : nat) (key : string) : nat * option (option string) :=
  (S c, Some (Some (if String.eqb key "SMTP_PORT" then "587" else "secret"))).

Definition sample_Atoi (s : string) : option Z :=
  if all_digits s && negb (String.eqb s "") then Some (decimal s) else None.

Definition sample_providers : application.ConfigWorld (application.ProviderWorld nat)
                                application.ConfigError :=
  {| application.providers :=
       {| application.os_Getenv := sample_Getenv; application.secretsClient := 0%nat;
          application.secretRequests := [] |};
     application.lookups := [] |}.

Definition sample_Load :=
  application.Load (application.DefaultEnvProvider nat)
    (application.NewAWSSecretsProvider nat sample_GetSecretValue sample_Atoi).

Definition empty_config : application.ApplicationConfig :=
  {| application.TransactionsDynamoDB := {| application.TableName := "" |};
     application.EmailSMTP :=
       {| application.Host := ""; application.Port := 0; application.Username := "";
          application.Password := ""; application.From := "" |} |}.

Definition sample_loaded := sample_Load empty_config sample_providers.

End SampleDeployment.

(** * Properties of the library functions *)

Section Strconv.

Import GoStrconv.

Lemma is_digit_range c : is_digit c = true <-> 48 <= byte c <= 57.
Proof. unfold is_digit. rewrite andb_true_iff, !Z.leb_le. tauto. Qed.

Lemma decimal_from_ge s : forall n, 0 <= n -> all_digits s = true -> n <= decimal_from n s.
Proof.
  induction s as [|c s IH]; simpl; intros n Hn Hs; [lia|].
  apply andb_true_iff in Hs as [Hc Hs]. apply is_digit_range in Hc.
  specialize (IH (n * 10 + (byte c - 48)) ltac:(lia) Hs). lia.
Qed.

Lemma maxVal_eq : maxVal = 4294967295.
Proof. reflexivity. Qed.

(** On digits, [ParseUint]'s loop computes the decimal value and reports
    a range error exactly when it exceeds 32 bits. *)
Lemma ParseUint_loop_digits s : forall n,
  0 <= n <= maxVal -> all_digits s = true ->
  ParseUint_loop s n =
    if decimal_from n s <=? maxVal then (decimal_from n s, None)
    else (maxVal, Some ErrRange).
Proof.
  induction s as [|c s IH]; intros n Hn Hs.
  - simpl. destruct (Z.leb_spec n maxVal); [reflexivity|lia].
  - apply andb_true_iff in Hs as [Hc Hs].
    pose proof Hc as Hr. apply is_digit_range in Hr.
    cbn [ParseUint_loop decimal_from].
    change (byte "0") with 48. change (byte "9") with 57.
    unfold is_digit in Hc. rewrite Hc.
    change base with 10. change cutoff with 1844674407370955162.
    rewrite maxVal_eq in *.
    destruct (Z.leb_spec 10 (byte c - 48)); [lia|].
    destruct (Z.leb_spec 1844674407370955162 n); [lia|].
    unfold uint64.
    rewrite (Z.mod_small (n * 10)) by lia.
    rewrite (Z.mod_small (n * 10 + _)) by lia.
    destruct (Z.ltb_spec (n * 10 + (byte c - 48)) (n * 10)); [lia|].
    destruct (Z.ltb_spec 4294967295 (n * 10 + (byte c - 48))); simpl.
    + pose proof (decimal_from_ge s (n * 10 + (byte c - 48)) ltac:(lia) Hs).
      destruct (Z.leb_spec (decimal_from (n * 10 + (byte c - 48)) s) 4294967295);
        [lia|reflexivity].
    + rewrite IH by (auto; lia). reflexivity.
Qed.

(** A value that [ParseUint] returns without an error fits 32 bits. *)
Lemma ParseUint_loop_range s : forall n v,
  0 <= n <= maxVal -> ParseUint_loop s n = (v, None) -> 0 <= v <= maxVal.
Proof.
  induction s as [|c s IH]; intros n v Hn; cbn [ParseUint_loop].
  - intros [= <-]. exact Hn.
  - destruct (_ && _); [|destruct (_ && _)]; try discriminate;
      (destruct (base <=? _); [discriminate|]);
      (destruct (cutoff <=? n); [discriminate|]);
      (destruct (_ || _) eqn:Hov; [discriminate|]);
      apply orb_false_iff in Hov as [H1 H2];
      apply Z.ltb_ge in H1, H2; apply IH; split; try exact H2;
      unfold uint64; apply Z.mod_pos_bound; lia.
Qed.

Lemma ParseUint_range s v : ParseUint s = (v, None) -> 0 <= v <= 4294967295.
Proof.
  unfold ParseUint. destruct (String.eqb s ""); [discriminate|].
  intros H. apply ParseUint_loop_range in H; rewrite maxVal_eq in *; lia.
Qed.

Lemma ParseUint_digits s :
  all_digits s = true -> s <> "" ->
  ParseUint s =
    if decimal s <=? 4294967295 then (decimal s, None)
    else (4294967295, Some ErrRange).
Proof.
  intros Hs Hne. unfold ParseUint.
  destruct (String.eqb_spec s ""); [contradiction|].
  rewrite ParseUint_loop_digits by (rewrite ?maxVal_eq; auto; lia). reflexivity.
Qed.

End Strconv.

Section Strings.

Import GoStrings.

(** Decide the byte comparisons of the goal that the context refutes. *)
Ltac refute_bytes :=
  repeat match goal with
    | |- context [Z.eqb ?a ?b] => destruct (Z.eqb_spec a b); [lia|]
    | |- context [Z.leb ?a ?b] => destruct (Z.leb_spec a b); [lia|]
    end.

Lemma space1_digit c : is_digit c = true -> space1 (byte c) = false.
Proof. intros H%is_digit_range. unfold space1. refute_bytes. reflexivity. Qed.

Lemma trimLeft_digit c l : is_digit c = true -> trimLeft (c :: l) = c :: l.
Proof.
  intros H. pose proof H as Hr%is_digit_range.
  cbn [trimLeft]. rewrite space1_digit by exact H.
  destruct l as [|c1 l]; [reflexivity|].
  unfold space2. destruct (Z.eqb_spec (byte c) 194); [lia|]. cbn [andb].
  destruct l as [|c2 l]; [reflexivity|].
  unfold space3.
  destruct (Z.eqb_spec (byte c) 225); [lia|].
  destruct (Z.eqb_spec (byte c) 226); [lia|].
  destruct (Z.eqb_spec (byte c) 227); [lia|]. reflexivity.
Qed.

Lemma trimRight_digit c l : is_digit c = true -> trimRight (c :: l) = c :: l.
Proof.
  intros H. pose proof H as Hr%is_digit_range.
  cbn [trimRight]. rewrite space1_digit by exact H.
  destruct l as [|c1 l]; [reflexivity|].
  unfold space2.
  destruct (Z.eqb_spec (byte c) 133); [lia|].
  destruct (Z.eqb_spec (byte c) 160); [lia|]. rewrite andb_false_r.
  destruct l as [|c2 l]; [reflexivity|].
  unfold space3.
  destruct (Z.eqb_spec (byte c) 128); [lia|].
  destruct (Z.eqb_spec (byte c) 159); [lia|].
  destruct (Z.eqb_spec (byte c) 168); [lia|].
  destruct (Z.eqb_spec (byte c) 169); [lia|].
  destruct (Z.eqb_spec (byte c) 175); [lia|].
  destruct (Z.leb_spec 128 (byte c)); [lia|].
  rewrite !andb_false_r. reflexivity.
Qed.

Lemma all_digits_list s :
  all_digits s = true <-> Forall (fun c => is_digit c = true) (list_ascii_of_string s).
Proof.
  induction s as [|c s IH]; simpl.
  - split; auto.
  - rewrite andb_true_iff, Forall_cons, IH. tauto.
Qed.

(** White space is only trimmed at the ends: a digit string is left as
    it is. *)
Lemma TrimSpace_digits s : all_digits s = true -> TrimSpace s = s.
Proof.
  intros Hs%all_digits_list. unfold TrimSpace.
  rewrite <- (string_of_list_ascii_of_string s) at 2.
  f_equal.
  destruct (list_ascii_of_string s) as [|c l] eqn:E; [reflexivity|].
  rewrite trimLeft_digit by (inversion Hs; assumption).
  rewrite <- E in *. clear E c l.
  apply Forall_rev in Hs.
  destruct (rev (list_ascii_of_string s)) as [|c l] eqn:E.
  - simpl. apply (f_equal (@rev ascii)) in E. rewrite rev_involutive in E. simpl in E.
    congruence.
  - rewrite trimRight_digit by (inversion Hs; assumption).
    rewrite <- E. apply rev_involutive.
Qed.

End Strings.

Lemma append_cons x (a b : string) : String x a ++ b = String x (a ++ b).
Proof. reflexivity. Qed.

Lemma append_nil_l (b : string) : "" ++ b = b.
Proof. reflexivity. Qed.

(** Push the appends of the goal below the leading characters. *)
Ltac norm_append := rewrite ?append_cons, ?append_nil_l.

Section StringFacts.

Lemma append_assoc (a b c : string) : (a ++ b) ++ c = a ++ (b ++ c).
Proof. induction a as [|x a IH]; norm_append; [reflexivity|]. now rewrite IH. Qed.

Lemma append_nil_r (a : string) : a ++ "" = a.
Proof. induction a as [|x a IH]; norm_append; [reflexivity|]. now rewrite IH. Qed.

Lemma length_append (a b : string) :
  String.length (a ++ b) = (String.length a + String.length b)%nat.
Proof. induction a as [|x a IH]; norm_append; simpl; [reflexivity|]. now rewrite IH. Qed.

Lemma slice_to_from n s : slice_to n s ++ slice_from n s = s.
Proof.
  revert s. induction n as [|n IH]; intros [|c s]; simpl; norm_append; try reflexivity.
  now rewrite IH.
Qed.

Lemma length_zero_empty s : String.length s = 0%nat -> s = "".
Proof. destruct s; [reflexivity|discriminate]. Qed.

Lemma length_slice_to n s :
  (n <= String.length s)%nat -> String.length (slice_to n s) = n.
Proof.
  revert s. induction n as [|n IH]; intros [|c s]; simpl; intros H; try lia.
  rewrite IH; lia.
Qed.

Lemma all_digits_app a b : all_digits (a ++ b) = all_digits a && all_digits b.
Proof.
  induction a as [|x a IH]; norm_append; simpl; [reflexivity|].
  now rewrite IH, andb_assoc.
Qed.

Lemma decimal_from_app a b n : decimal_from n (a ++ b) = decimal_from (decimal_from n a) b.
Proof.
  revert n. induction a as [|x a IH]; intros n; norm_append; simpl; [reflexivity|]. apply IH.
Qed.

Lemma no_slash_digits s : all_digits s = true -> no_slash s = true.
Proof.
  induction s as [|c s IH]; simpl; [reflexivity|].
  intros [Hc Hs]%andb_true_iff. apply is_digit_range in Hc.
  rewrite IH by exact Hs. destruct (Z.eqb_spec (byte c) 47); [lia|reflexivity].
Qed.

Lemma no_slash_app_slash a b : no_slash (a ++ String "/" b) = false.
Proof.
  induction a as [|x a IH]; norm_append; simpl; [reflexivity|].
  rewrite IH. apply andb_false_r.
Qed.

(** The part after the last "/" of a string is determined by the string. *)
Lemma split_last_slash a b c d :
  a ++ String "/" b = c ++ String "/" d ->
  no_slash b = true -> no_slash d = true -> a = c /\ b = d.
Proof.
  revert c. induction a as [|x a IH]; intros [|y c]; norm_append; intros E Hb Hd.
  - injection E as ->. auto.
  - injection E as <- ->. now rewrite no_slash_app_slash in Hb.
  - injection E as -> <-. now rewrite no_slash_app_slash in Hd.
  - injection E as -> E. destruct (IH _ E Hb Hd) as [-> ->]. auto.
Qed.

Lemma slice_app a b :
  slice_to (String.length a) (a ++ b) = a /\ slice_from (String.length a) (a ++ b) = b.
Proof.
  induction a as [|x a [IH1 IH2]]; norm_append; cbn [String.length slice_to slice_from].
  - split; [|reflexivity]. destruct b; reflexivity.
  - now rewrite IH1, IH2.
Qed.

(** A string with a single "/" is not a string with two. *)
Lemma one_slash a b p q r :
  no_slash a = true -> no_slash b = true ->
  a ++ String "/" b <> p ++ String "/" (q ++ String "/" r).
Proof.
  revert p. induction a as [|x a IH]; intros [|y p]; norm_append; intros Ha Hb E.
  - injection E as ->. now rewrite no_slash_app_slash in Hb.
  - injection E as <- ->.
    now rewrite no_slash_app_slash in Hb.
  - injection E as -> _. discriminate.
  - injection E as -> E. cbn [no_slash] in Ha. apply andb_true_iff in Ha as [_ Ha].
    exact (IH p Ha Hb E).
Qed.

End StringFacts.

Section Itoa.

Import GoStrconv.

Lemma byte_digitChar d : 0 <= d < 10 -> byte (digitChar d) = 48 + d.
Proof.
  intros Hd. unfold digitChar, byte. change (Z.of_N (N_of_ascii "0")) with 48.
  rewrite N_ascii_embedding by lia. lia.
Qed.

(** [formatBits u a] puts the decimal digits of [u] before [a]: at least
    one digit, and no leading zero unless [u] is zero. *)
Lemma formatBits_digits u a :
  0 <= u ->
  exists ds,
    formatBits u a = ds ++ a /\ all_digits ds = true /\
    (forall x, decimal_from x ds = x * 10 ^ Z.of_nat (String.length ds) + u) /\
    (0 < String.length ds)%nat /\
    (u = 0 \/ 10 ^ (Z.of_nat (String.length ds) - 1) <= u) /\
    u < 10 ^ Z.of_nat (String.length ds).
Proof.
  funelim (formatBits u a); intros Hu.
  - exists (String (digitChar u) ""). simpl.
    rewrite byte_digitChar by lia. unfold is_digit. rewrite byte_digitChar by lia.
    repeat split; lia.
  - destruct H as (ds & E & Hd & Hv & Hl & Hlo & Hhi); [apply Z.div_pos; lia|].
    assert (Hm : 0 <= u mod 10 < 10) by (apply Z.mod_pos_bound; lia).
    pose proof (Z.div_mod u 10 ltac:(lia)) as Hdm.
    exists (ds ++ String (digitChar (u mod 10)) "").
    rewrite E, append_assoc, length_append, all_digits_app, Hd. simpl.
    rewrite Nat2Z.inj_add. change (Z.of_nat 1) with 1.
    replace (Z.of_nat (String.length ds) + 1 - 1) with (Z.of_nat (String.length ds)) by lia.
    rewrite Z.pow_add_r by lia. change (10 ^ 1) with 10.
    unfold is_digit. rewrite byte_digitChar by lia.
    repeat split; try lia.
    + intros x. rewrite decimal_from_app, Hv. simpl. rewrite byte_digitChar by lia. lia.
    + right. assert (1 <= u / 10) by (apply Z.div_le_lower_bound; lia).
      destruct Hlo as [Hz|Hlo]; [lia|].
      assert (E10 : 10 ^ Z.of_nat (String.length ds)
                    = 10 * 10 ^ (Z.of_nat (String.length ds) - 1))
        by (rewrite <- Z.pow_succ_r by lia; f_equal; lia).
      rewrite E10. lia.
Qed.

Lemma Itoa_negative i : i < 0 -> exists s, Itoa i = String "-" s.
Proof. intros H. unfold Itoa. destruct (Z.ltb_spec i 0); [eauto|lia]. Qed.

(** [Itoa] writes no "/". *)
Lemma Itoa_no_slash i : no_slash (Itoa i) = true.
Proof.
  unfold Itoa. destruct (Z.ltb_spec i 0).
  - destruct (formatBits_digits (- i) "" ltac:(lia)) as (ds & -> & Hd & _).
    rewrite append_nil_r. simpl. now apply no_slash_digits.
  - destruct (formatBits_digits i "" ltac:(lia)) as (ds & -> & Hd & _).
    rewrite append_nil_r. now apply no_slash_digits.
Qed.

(** When [Itoa i] is four digits, they denote [i], between 1000 and
    9999. *)
Lemma Itoa_four_digits i :
  all_digits (Itoa i) = true -> String.length (Itoa i) = 4%nat ->
  decimal (Itoa i) = i /\ 1000 <= i <= 9999.
Proof.
  intros Hd Hl. destruct (Z.ltb_spec i 0) as [Hn|Hn].
  - destruct (Itoa_negative i Hn) as [s E]. rewrite E in Hd. discriminate.
  - unfold Itoa in *. destruct (Z.ltb_spec i 0); [lia|].
    destruct (formatBits_digits i "" Hn) as (ds & E & _ & Hv & _ & Hlo & Hhi).
    rewrite E, append_nil_r in *. rewrite Hl in *.
    unfold decimal. rewrite Hv. change (10 ^ Z.of_nat 4) with 10000 in *.
    change (10 ^ (Z.of_nat 4 - 1)) with 1000 in *.
    split; [lia|]. destruct Hlo as [->|Hlo]; [|lia].
    rewrite formatBits_equation_1 in E. simpl in E.
    destruct ds as [|? [|? ?]]; discriminate.
Qed.

(** The four digits of a year between 1000 and 9999. *)
Lemma Itoa_year y :
  1000 <= y <= 9999 ->
  Itoa y =
    String (digitChar (y / 1000)) (String (digitChar (y / 100 mod 10))
      (String (digitChar (y / 10 mod 10)) (String (digitChar (y mod 10)) ""))).
Proof.
  intros Hy. unfold Itoa. destruct (Z.ltb_spec y 0); [lia|].
  assert (H1 : 100 <= y / 10 <= 999) by (Z.div_mod_to_equations; lia).
  assert (H2 : 10 <= y / 10 / 10 <= 99) by (Z.div_mod_to_equations; lia).
  assert (H3 : 1 <= y / 10 / 10 / 10 <= 9) by (Z.div_mod_to_equations; lia).
  rewrite formatBits_equation_1. destruct (Z_lt_dec y 10); [lia|]. simpl.
  rewrite formatBits_equation_1. destruct (Z_lt_dec (y / 10) 10); [lia|]. simpl.
  rewrite formatBits_equation_1. destruct (Z_lt_dec (y / 10 / 10) 10); [lia|]. simpl.
  rewrite formatBits_equation_1. destruct (Z_lt_dec (y / 10 / 10 / 10) 10); [|lia]. simpl.
  rewrite !Z.div_div by lia. reflexivity.
Qed.

End Itoa.

Section TimeParse.

Import GoTime.

Lemma getnum_inr s n r :
  getnum s false = inr (n, r) ->
  exists pre, s = pre ++ r /\ digits12 pre /\ n = decimal pre.
Proof.
  unfold getnum, digits12. destruct s as [|a s]; [discriminate|].
  change (isDigit (String a s) 0) with (is_digit a).
  destruct (is_digit a) eqn:Ha; [|discriminate]. cbn [negb].
  destruct s as [|b s].
  - intros [= <- <-]. exists (String a ""). cbn. rewrite Ha. auto.
  - change (isDigit (String a (String b s)) 1) with (is_digit b).
    destruct (is_digit b) eqn:Hb; cbn [negb].
    + intros [= <- <-]. exists (String a (String b "")). cbn. rewrite Ha, Hb.
      repeat split; auto.
    + intros [= <- <-]. exists (String a ""). cbn. rewrite Ha. auto.
Qed.

Lemma skip_slash s r : skip s "/" = inr r <-> s = String "/" r.
Proof.
  destruct s as [|c s]; [split; discriminate|].
  change (skip (String c s) "/") with (if byte c =? 47 then inr s else @inl _ string errBad).
  destruct (Z.eqb_spec (byte c) 47) as [E|E].
  - assert (c = "/"%char) as ->.
    { rewrite <- (ascii_N_embedding c), <- (ascii_N_embedding "/").
      f_equal. unfold byte in E. change (N_of_ascii "/") with 47%N. lia. }
    split; intros [= ->]; reflexivity.
  - split; [discriminate|]. intros [= -> ->]. now destruct E.
Qed.

(** On digits that stay below 2^63/10, [leadingInt] reads the whole
    string. *)
Lemma leadingInt_digits s : forall x,
  all_digits s = true -> 0 <= x -> decimal_from x s <= 922337203685477580 ->
  leadingInt s x = Some (decimal_from x s, "").
Proof.
  induction s as [|c s IH]; intros x Hs Hx Hb; [reflexivity|].
  apply andb_true_iff in Hs as [Hc Hs]. apply is_digit_range in Hc.
  pose proof (decimal_from_ge s (x * 10 + (byte c - 48)) ltac:(lia) Hs) as Hge.
  cbn [leadingInt decimal_from] in *.
  change (byte "0") with 48. change (byte "9") with 57.
  change (Z.shiftl 1 63 / 10) with 922337203685477580.
  change (Z.shiftl 1 63) with 9223372036854775808.
  destruct (Z.ltb_spec (byte c) 48); [lia|].
  destruct (Z.ltb_spec 57 (byte c)); [lia|]. cbn [orb].
  destruct (Z.ltb_spec 922337203685477580 x); [lia|].
  unfold uint64. replace (x * 10 + byte c - 48) with (x * 10 + (byte c - 48)) by lia.
  rewrite Z.mod_small by lia.
  destruct (Z.ltb_spec 9223372036854775808 (x * 10 + (byte c - 48))); [lia|].
  apply IH; auto; lia.
Qed.

(** What [leadingInt] leaves behind starts with a character that is not
    a digit: it leaves nothing only when the string is all digits. *)
Lemma leadingInt_all s : forall x q, leadingInt s x = Some (q, "") -> all_digits s = true.
Proof.
  induction s as [|c s IH]; intros x q; [reflexivity|].
  cbn [leadingInt all_digits]. unfold is_digit.
  change (byte "0") with 48. change (byte "9") with 57.
  destruct (Z.ltb_spec (byte c) 48); [discriminate|].
  destruct (Z.ltb_spec 57 (byte c)); [discriminate|]. cbn [orb].
  destruct (_ <? x); [discriminate|]. destruct (_ <? _); [discriminate|].
  intros Hs%IH. rewrite Hs.
  destruct (Z.leb_spec 48 (byte c)); [|lia]. destruct (Z.leb_spec (byte c) 57); [reflexivity|lia].
Qed.

Lemma decimal_from_le s : forall x,
  all_digits s = true -> 0 <= x ->
  decimal_from x s <= (x + 1) * 10 ^ Z.of_nat (String.length s) - 1.
Proof.
  induction s as [|c s IH]; intros x Hs Hx.
  - cbn. lia.
  - apply andb_true_iff in Hs as [Hc Hs]. apply is_digit_range in Hc.
    cbn [decimal_from String.length]. rewrite Nat2Z.inj_succ, Z.pow_succ_r by lia.
    specialize (IH (x * 10 + (byte c - 48)) Hs ltac:(lia)).
    pose proof (Z.pow_pos_nonneg 10 (Z.of_nat (String.length s)) ltac:(lia) ltac:(lia)).
    nia.
Qed.

(** [atoi] on the four characters of a year. *)
Lemma atoi_year p year :
  String.length p = 4%nat -> isDigit p 0 = true -> atoi p = inr year ->
  all_digits p = true /\ year = decimal p /\ 0 <= year <= 9999.
Proof.
  intros Hl H0 Ha. destruct p as [|a p]; [discriminate|].
  change (isDigit (String a p) 0) with (is_digit a) in H0.
  pose proof H0 as Hr%is_digit_range.
  unfold atoi in Ha. change (byte "-") with 45 in Ha. change (byte "+") with 43 in Ha.
  destruct (Z.eqb_spec (byte a) 45); [lia|].
  destruct (Z.eqb_spec (byte a) 43); [lia|]. cbn [orb] in Ha.
  destruct (leadingInt (String a p) 0) as [[q rem]|] eqn:E; [|discriminate].
  destruct rem as [|? ?]; [|discriminate]. cbn in Ha.
  pose proof (leadingInt_all _ _ _ E) as Hd.
  pose proof (decimal_from_le (String a p) 0 Hd ltac:(lia)) as Hle.
  pose proof (decimal_from_ge (String a p) 0 ltac:(lia) Hd) as Hge.
  rewrite Hl in Hle. change ((0 + 1) * 10 ^ Z.of_nat 4 - 1) with 9999 in Hle.
  rewrite leadingInt_digits in E by (auto; lia). injection E as <-.
  unfold int64 in Ha.
  change (2 ^ 63) with 9223372036854775808 in Ha.
  change (2 ^ 64) with 18446744073709551616 in Ha.
  change (0 <? len "") with false in Ha. unfold decimal. cbn [decimal_from] in *.
  rewrite Z.mod_small in Ha by lia.
  injection Ha as <-. repeat split; auto; lia.
Qed.

Lemma slice_all n s :
  (String.length s <= n)%nat -> slice_to n s = s /\ slice_from n s = "".
Proof.
  revert s. induction n as [|n IH]; intros [|c s]; simpl; intros H; auto; try lia.
  destruct (IH s ltac:(lia)) as [-> ->]. auto.
Qed.

(** A value that [time.Parse] accepts for the layout "1/2/2006" is a one-
    or two-digit month, "/", a one- or two-digit day, "/" and a four-digit
    year, and they make a date of the calendar. *)
Lemma Parse_1_2_2006_inr s t :
  Parse_1_2_2006 s = inr t ->
  exists ms ds ys,
    s = ms ++ String "/" (ds ++ String "/" ys) /\
    digits12 ms /\ digits12 ds /\ all_digits ys = true /\ String.length ys = 4%nat /\
    t = Date (decimal ys) (decimal ms) (decimal ds) /\
    1 <= decimal ms <= 12 /\ 1 <= decimal ds <= daysIn (decimal ms) (decimal ys).
Proof.
  unfold Parse_1_2_2006.
  destruct (getnum s false) as [|[month s1]] eqn:E1; [discriminate|].
  destruct (Z.leb_spec month 0); [discriminate|].
  destruct (Z.ltb_spec 12 month); [discriminate|]. cbn [orb].
  destruct (skip s1 "/") as [|s2] eqn:E2; [discriminate|].
  destruct (getnum s2 false) as [|[day s3]] eqn:E3; [discriminate|].
  destruct (skip s3 "/") as [|s4] eqn:E4; [discriminate|].
  destruct (Z.ltb_spec (len s4) 4); [discriminate|].
  destruct (isDigit s4 0) eqn:E5; [|discriminate]. cbn [orb negb].
  destruct (atoi (slice_to 4 s4)) as [|year] eqn:E6; [discriminate|].
  destruct (Z.eqb_spec (len (slice_from 4 s4)) 0) as [E7|]; [|discriminate]. cbn [negb].
  destruct (Z.ltb_spec day 1); [discriminate|].
  destruct (Z.ltb_spec (daysIn month year) day); [discriminate|]. cbn [orb].
  intros [= <-].
  apply getnum_inr in E1 as (ms & -> & Hms & ->).
  apply getnum_inr in E3 as (ds & -> & Hds & ->).
  apply skip_slash in E2 as ->. apply skip_slash in E4 as ->.
  assert (E8 : slice_from 4 s4 = "") by (apply length_zero_empty; unfold len in E7; lia).
  pose proof (slice_to_from 4 s4) as E9. rewrite E8, append_nil_r in E9.
  rewrite E9 in E6.
  assert (Hl : String.length s4 = 4%nat).
  { rewrite <- E9. apply length_slice_to. unfold len in *. lia. }
  destruct (atoi_year s4 year Hl E5 E6) as (Hd & -> & _).
  exists ms, ds, s4. repeat split; auto; try lia; apply Hms || apply Hds.
Qed.

Lemma getnum_digits12 pre r :
  digits12 pre -> isDigit r 0 = false ->
  getnum (pre ++ r) false = inr (decimal pre, r).
Proof.
  intros [Hd Hl] Hr. unfold getnum.
  destruct pre as [|a [|b [|c pre]]]; cbn in Hl; try lia; norm_append;
    cbn in Hd; repeat (apply andb_true_iff in Hd as [? Hd]).
  - change (isDigit (String a r) 0) with (is_digit a).
    replace (isDigit (String a r) 1) with (isDigit r 0) by (destruct r; reflexivity).
    rewrite H, Hr. reflexivity.
  - change (isDigit (String a (String b r)) 0) with (is_digit a).
    change (isDigit (String a (String b r)) 1) with (is_digit b).
    rewrite H, H0. reflexivity.
Qed.

Lemma atoi_digits ys :
  all_digits ys = true -> ys <> "" -> decimal ys <= 9999 -> atoi ys = inr (decimal ys).
Proof.
  intros Hd Hne Hb. unfold atoi. destruct ys as [|a ys]; [contradiction|].
  pose proof Hd as Ha. cbn in Ha. apply andb_true_iff in Ha as [Ha%is_digit_range _].
  change (byte "-") with 45. change (byte "+") with 43.
  destruct (Z.eqb_spec (byte a) 45); [lia|].
  destruct (Z.eqb_spec (byte a) 43); [lia|]. cbn [orb].
  pose proof (decimal_from_ge (String a ys) 0 ltac:(lia) Hd).
  rewrite leadingInt_digits by (auto; unfold decimal in Hb; lia).
  change (0 <? len "") with false. cbn iota. unfold int64, decimal in *.
  change (2 ^ 63) with 9223372036854775808.
  change (2 ^ 64) with 18446744073709551616.
  rewrite Z.mod_small by lia. f_equal. lia.
Qed.

(** The converse: such a value is accepted, with the date it spells. *)
Lemma Parse_1_2_2006_digits ms ds ys :
  digits12 ms -> digits12 ds -> all_digits ys = true -> String.length ys = 4%nat ->
  1 <= decimal ms <= 12 -> 1 <= decimal ds <= daysIn (decimal ms) (decimal ys) ->
  Parse_1_2_2006 (ms ++ String "/" (ds ++ String "/" ys))
    = inr (Date (decimal ys) (decimal ms) (decimal ds)).
Proof.
  intros Hms Hds Hys Hl Hm Hd. unfold Parse_1_2_2006.
  rewrite getnum_digits12 by (auto; reflexivity).
  destruct (Z.leb_spec (decimal ms) 0); [lia|].
  destruct (Z.ltb_spec 12 (decimal ms)); [lia|]. cbn [orb].
  cbn [skip]. change (byte "/" =? byte "/") with true. cbn iota.
  rewrite getnum_digits12 by (auto; reflexivity).
  change (byte "/" =? byte "/") with true. cbn iota.
  unfold len. rewrite Hl. change (Z.of_nat 4 <? 4) with false.
  destruct ys as [|a ys]; [discriminate|].
  pose proof Hys as Ha. cbn in Ha. apply andb_true_iff in Ha as [Ha _].
  change (isDigit (String a ys) 0) with (is_digit a). rewrite Ha. cbn [orb negb].
  destruct (slice_all 4 (String a ys) ltac:(lia)) as [-> ->].
  pose proof (decimal_from_le (String a ys) 0 Hys ltac:(lia)) as Hle.
  rewrite Hl in Hle. change ((0 + 1) * 10 ^ Z.of_nat 4 - 1) with 9999 in Hle.
  rewrite atoi_digits by (auto; discriminate).
  change (Z.of_nat (String.length "") =? 0) with true. cbn [negb].
  destruct (Z.ltb_spec (decimal ds) 1); [lia|].
  destruct (Z.ltb_spec (daysIn (decimal ms) (decimal (String a ys))) (decimal ds)); [lia|].
  reflexivity.
Qed.

(** Text after the year is refused as extra text. *)
Lemma Parse_1_2_2006_extra ms ds ys extra :
  digits12 ms -> digits12 ds -> all_digits ys = true -> String.length ys = 4%nat ->
  1 <= decimal ms <= 12 -> extra <> "" ->
  Parse_1_2_2006 (ms ++ String "/" (ds ++ String "/" (ys ++ extra))) = inl errExtraText.
Proof.
  intros Hms Hds Hys Hl Hm He. unfold Parse_1_2_2006.
  rewrite getnum_digits12 by (auto; reflexivity).
  destruct (Z.leb_spec (decimal ms) 0); [lia|].
  destruct (Z.ltb_spec 12 (decimal ms)); [lia|]. cbn [orb].
  cbn [skip]. change (byte "/" =? byte "/") with true. cbn iota.
  rewrite getnum_digits12 by (auto; reflexivity).
  change (byte "/" =? byte "/") with true. cbn iota.
  destruct (Z.ltb_spec (len (ys ++ extra)) 4) as [Hlt|_].
  { unfold len in Hlt. rewrite length_append in Hlt. lia. }
  destruct (slice_app ys extra) as [E1 E2]. rewrite Hl in E1, E2. rewrite E1, E2.
  destruct ys as [|a ys]; [discriminate|]. norm_append.
  pose proof Hys as Ha. cbn in Ha. apply andb_true_iff in Ha as [Ha _].
  change (isDigit (String a (ys ++ extra)) 0) with (is_digit a). rewrite Ha. cbn [orb negb].
  pose proof (decimal_from_le (String a ys) 0 Hys ltac:(lia)) as Hle.
  rewrite Hl in Hle. change ((0 + 1) * 10 ^ Z.of_nat 4 - 1) with 9999 in Hle.
  rewrite atoi_digits by (auto; discriminate).
  destruct (Z.eqb_spec (len extra) 0) as [E0|_]; [|reflexivity].
  destruct extra; [contradiction|]. unfold len in E0. cbn [String.length] in E0. lia.
Qed.

End TimeParse.

(** * The CSV loader *)

Section LoaderFacts.

Import transactions.

Variable ParseFloat : string -> option float.

Lemma parseIDOptimized_range idStr id :
  parseIDOptimized idStr = inr id -> 0 <= id <= 4294967295.
Proof.
  unfold parseIDOptimized. destruct (String.eqb idStr ""); [discriminate|].
  destruct (GoStrconv.ParseUint idStr) as [v [e|]] eqn:E1.
  - destruct (String.eqb _ ""); [discriminate|].
    destruct (GoStrconv.ParseUint (GoStrings.TrimSpace idStr)) as [v' [e'|]] eqn:E2;
      [discriminate|].
    intros [= <-]. eapply ParseUint_range, E2.
  - intros [= <-]. eapply ParseUint_range, E1.
Qed.

(** A digit string above 32 bits is refused, also after trimming. *)
Lemma parseIDOptimized_overflow idStr :
  all_digits idStr = true -> idStr <> "" -> 4294967295 < decimal idStr ->
  parseIDOptimized idStr = inl IDNotPositiveInteger.
Proof.
  intros Hd Hne Hv. unfold parseIDOptimized.
  destruct (String.eqb_spec idStr ""); [contradiction|].
  rewrite TrimSpace_digits by exact Hd.
  destruct (String.eqb_spec idStr ""); [contradiction|].
  rewrite ParseUint_digits by assumption.
  destruct (Z.leb_spec (decimal idStr) 4294967295); [lia|reflexivity].
Qed.

Section WithYear.

Variable now_year : Z.
Variable config : CSVTransactionLoaderConfig.

Let loader := NewCSVTransactionLoaderWithConfig now_year config.

(** The dates the loader accepts: "M/D" with a month and a day of the
    calendar of the loader's year, which has four digits. *)
Lemma parseDateOptimized_inr dateStr t :
  parseDateOptimized loader dateStr = inr t ->
  1000 <= now_year <= 9999 /\
  exists ms ds,
    dateStr = ms ++ String "/" ds /\ digits12 ms /\ digits12 ds /\
    t = GoTime.Date now_year (decimal ms) (decimal ds) /\
    1 <= decimal ms <= 12 /\
    1 <= decimal ds <= GoTime.daysIn (decimal ms) now_year.
Proof.
  unfold parseDateOptimized. destruct (String.eqb dateStr ""); [discriminate|].
  cbn [loader NewCSVTransactionLoaderWithConfig dateLayout currentYear].
  change (GoTime.Parse "1/2/2006") with GoTime.Parse_1_2_2006.
  destruct (GoTime.Parse_1_2_2006 _) as [|t'] eqn:E; [discriminate|].
  intros [= ->].
  apply Parse_1_2_2006_inr in E
    as (ms & ds & ys & E & Hms & Hds & Hys & Hl & -> & Hm & Hd).
  rewrite ?append_cons, ?append_nil_l in E.
  replace (ms ++ String "/" (ds ++ String "/" ys))
    with ((ms ++ String "/" ds) ++ String "/" ys) in E
    by (rewrite append_assoc; reflexivity).
  apply split_last_slash in E as [-> E];
    [|apply Itoa_no_slash|now apply no_slash_digits].
  rewrite <- E in Hys, Hl.
  destruct (Itoa_four_digits _ Hys Hl) as [Hv Hy].
  rewrite <- E, Hv in *. split; [exact Hy|]. exists ms, ds. auto 10.
Qed.

Lemma parseDateOptimized_MD ms ds :
  1000 <= now_year <= 9999 -> digits12 ms -> digits12 ds ->
  1 <= decimal ms <= 12 ->
  1 <= decimal ds <= GoTime.daysIn (decimal ms) now_year ->
  parseDateOptimized loader (ms ++ String "/" ds)
    = inr (GoTime.Date now_year (decimal ms) (decimal ds)).
Proof.
  intros Hy Hms Hds Hm Hd. unfold parseDateOptimized.
  destruct (String.eqb_spec (ms ++ String "/" ds) "") as [E|_].
  { destruct ms; discriminate. }
  cbn [loader NewCSVTransactionLoaderWithConfig dateLayout currentYear].
  change (GoTime.Parse "1/2/2006") with GoTime.Parse_1_2_2006.
  destruct (formatBits_digits now_year "" ltac:(lia)) as (ys & E & Hys & Hv & _).
  assert (EI : GoStrconv.Itoa now_year = ys).
  { unfold GoStrconv.Itoa. destruct (Z.ltb_spec now_year 0); [lia|].
    now rewrite E, append_nil_r. }
  assert (Hl : String.length ys = 4%nat) by (rewrite <- EI, Itoa_year by lia; reflexivity).
  assert (Hdec : decimal ys = now_year) by (unfold decimal; rewrite Hv; lia).
  rewrite EI, append_assoc. norm_append.
  rewrite Parse_1_2_2006_digits by (rewrite ?Hdec; auto).
  now rewrite Hdec.
Qed.

(** A date with two "/" or more, as the form M/D/YYYY has, is never
    accepted. *)
Lemma parseDateOptimized_two_slashes m d y :
  exists e, parseDateOptimized loader (m ++ String "/" (d ++ String "/" y)) = inl e.
Proof.
  destruct (parseDateOptimized loader _) as [e|t] eqn:E; [eauto|].
  apply parseDateOptimized_inr in E as (_ & ms & ds & E & [Hms _] & [Hds _] & _).
  symmetry in E. now apply one_slash in E; [|apply no_slash_digits..].
Qed.

(** A well-formed date of the form M/D/YYYY is refused for the text that
    follows its year, which is the year of the loader. *)
Lemma parseDateOptimized_MDY ms ds ys :
  digits12 ms -> digits12 ds -> all_digits ys = true -> String.length ys = 4%nat ->
  1 <= decimal ms <= 12 ->
  parseDateOptimized loader (ms ++ String "/" (ds ++ String "/" ys))
    = inl (DateNotMD GoTime.errExtraText).
Proof.
  intros Hms Hds Hys Hl Hm. unfold parseDateOptimized.
  destruct (String.eqb_spec (ms ++ String "/" (ds ++ String "/" ys)) "") as [E|_].
  { destruct ms; discriminate. }
  cbn [loader NewCSVTransactionLoaderWithConfig dateLayout currentYear].
  change (GoTime.Parse "1/2/2006") with GoTime.Parse_1_2_2006.
  rewrite append_assoc. norm_append. rewrite append_assoc. norm_append.
  rewrite Parse_1_2_2006_extra by (auto; discriminate). reflexivity.
Qed.

End WithYear.

End LoaderFacts.

Section LoadTransactionsFacts.

Import transactions.

Variable ParseFloat : string -> option float.
Variable now_year : Z.

Let loader := NewCSVTransactionLoader now_year.

Local Abbreviation parseRecord := (parseRecord ParseFloat loader).
Local Abbreviation LoadTransactions := (LoadTransactions ParseFloat loader).
Local Abbreviation LoadTransactions_loop := (LoadTransactions_loop ParseFloat loader).
Local Abbreviation line_ok := (line_ok ParseFloat loader).
Local Abbreviation first_invalid := (first_invalid ParseFloat loader).
Local Abbreviation parsed := (parsed ParseFloat loader).

(** [parseRecord] makes no use of its line number. *)
Lemma parseRecord_lineNumber record n m : parseRecord record n = parseRecord record m.
Proof. reflexivity. Qed.

Lemma parseRecord_three record n txn :
  parseRecord record n = inr txn -> length record = 3%nat.
Proof.
  destruct record as [|f0 [|f1 [|f2 [|f3 r]]]]; try discriminate. reflexivity.
Qed.

(** What the reader of the default configuration returns for one line. *)
Lemma reads_cons l data :
  GoCsv.reads 3 (l :: data) =
    match l with
    | GoCsv.Fields record =>
        if (length record =? 3)%nat then inr record else inl GoCsv.ErrFieldCount
    | GoCsv.Malformed => inl GoCsv.ErrQuote
    end :: GoCsv.reads 3 data.
Proof.
  destruct l as [record|]; [|reflexivity]. cbn [GoCsv.reads].
  change (0 <? 3) with true. cbn iota.
  destruct (Nat.eqb_spec (length record) 3) as [->|Hn]; [reflexivity|].
  destruct (Z.eqb_spec (Z.of_nat (length record)) 3); [lia|reflexivity].
Qed.

Lemma line_ok_Fields l :
  line_ok l = true <-> exists record txn, l = GoCsv.Fields record /\ parseRecord record 0 = inr txn.
Proof.
  destruct l as [record|]; cbn [line_ok].
  - destruct (parseRecord record 0) as [e|txn] eqn:E.
    + split; [discriminate|]. intros (r & t & [= <-] & H). congruence.
    + split; eauto.
  - split; [discriminate|]. intros (r & t & [=] & _).
Qed.

(** The loop over valid lines only: one transaction per line, in order. *)
Lemma loop_all_valid ctx data :
  never_done ctx -> first_invalid data = None ->
  forall poll acc n,
    LoadTransactions_loop ctx poll (GoCsv.reads 3 data) acc n
      = (Slice (acc ++ parsed data), None).
Proof.
  intros Hctx. induction data as [|l data IH]; intros Hv poll acc n.
  - cbn. rewrite Hctx, app_nil_r. reflexivity.
  - cbn [first_invalid] in Hv. destruct (line_ok l) eqn:Hl; [|discriminate].
    destruct (first_invalid data); [discriminate|].
    rewrite reads_cons. destruct l as [record|]; [|discriminate].
    cbn [line_ok parsed] in *.
    destruct (parseRecord record 0) as [|txn] eqn:E; [discriminate|].
    rewrite (parseRecord_three _ _ _ E). cbn [Nat.eqb LoadTransactions_loop].
    rewrite Hctx, (parseRecord_lineNumber record n 0), E, IH by reflexivity.
    now rewrite <- app_assoc.
Qed.

(** The loop up to the first invalid line: it stops there, with the
    number of that line in the error. *)
Lemma loop_first_invalid ctx data k :
  never_done ctx -> first_invalid data = Some k ->
  forall poll acc n,
    exists e,
      LoadTransactions_loop ctx poll (GoCsv.reads 3 data) acc n = (Nil, Some e) /\
      reportedLine e = Some (n + Z.of_nat k) /\
      ((exists err, e = CSVParsingErrorAt (n + Z.of_nat k) err) \/
       (exists err, e = RecordValidationErrorAt (n + Z.of_nat k) err)).
Proof.
  intros Hctx. revert k. induction data as [|l data IH]; intros k Hk poll acc n;
    [discriminate|].
  cbn [first_invalid] in Hk. rewrite reads_cons. cbn [LoadTransactions_loop].
  rewrite Hctx. destruct (line_ok l) eqn:Hl.
  - destruct (first_invalid data) as [k'|]; [|discriminate]. injection Hk as <-.
    destruct l as [record|]; [|discriminate]. cbn [line_ok] in Hl.
    destruct (parseRecord record 0) as [|txn] eqn:E; [discriminate|].
    rewrite (parseRecord_three _ _ _ E). cbn [Nat.eqb].
    rewrite (parseRecord_lineNumber record n 0), E.
    destruct (IH k' eq_refl (S poll) (acc ++ [txn])%list (n + 1)) as (e & -> & Hr & He).
    replace (n + Z.of_nat (S k')) with (n + 1 + Z.of_nat k') by lia. eauto.
  - injection Hk as <-. rewrite Z.add_0_r.
    destruct l as [record|]; [|cbn; eauto 6].
    destruct (length record =? 3)%nat; [|cbn; eauto 6].
    cbn [line_ok] in Hl. rewrite (parseRecord_lineNumber record n 0).
    destruct (parseRecord record 0); [cbn; eauto 6|discriminate].
Qed.

(** With an invalid line the loop fails, whatever the context does. *)
Lemma loop_fails ctx data k :
  first_invalid data = Some k ->
  forall poll acc n,
    exists e, LoadTransactions_loop ctx poll (GoCsv.reads 3 data) acc n = (Nil, Some e).
Proof.
  revert k. induction data as [|l data IH]; intros k Hk poll acc n; [discriminate|].
  cbn [first_invalid] in Hk. rewrite reads_cons. cbn [LoadTransactions_loop].
  destruct (ctx poll); [eauto|]. destruct (line_ok l) eqn:Hl.
  - destruct (first_invalid data) as [k'|]; [|discriminate].
    destruct l as [record|]; [|discriminate]. cbn [line_ok] in Hl.
    destruct (parseRecord record 0) as [|txn] eqn:E; [discriminate|].
    rewrite (parseRecord_three _ _ _ E). cbn [Nat.eqb].
    rewrite (parseRecord_lineNumber record n 0), E. eapply IH; reflexivity.
  - destruct l as [record|]; [|eauto].
    destruct (length record =? 3)%nat; [|eauto].
    cbn [line_ok] in Hl. rewrite (parseRecord_lineNumber record n 0).
    destruct (parseRecord record 0); [eauto|discriminate].
Qed.

(** A result without an error holds the transactions of the lines, all
    of them valid. *)
Lemma loop_success ctx data :
  forall poll acc n txns,
    LoadTransactions_loop ctx poll (GoCsv.reads 3 data) acc n = (Slice txns, None) ->
    first_invalid data = None /\ txns = (acc ++ parsed data)%list.
Proof.
  induction data as [|l data IH]; intros poll acc n txns.
  - cbn. destruct (ctx poll); [discriminate|]. intros [= <-]. now rewrite app_nil_r.
  - rewrite reads_cons. cbn [LoadTransactions_loop first_invalid parsed].
    destruct (ctx poll); [discriminate|].
    destruct l as [record|]; [|discriminate].
    destruct (length record =? 3)%nat; [|discriminate]. cbn [line_ok].
    rewrite (parseRecord_lineNumber record n 0).
    destruct (parseRecord record 0) as [|txn]; [discriminate|].
    intros [Hv ->]%IH. rewrite Hv, <- app_assoc. auto.
Qed.

(** What the default loader returns for a stream with a first record; it
    never panics, as it asks [make] for 100 transactions. *)
Lemma LoadTransactions_records ctx reader l data :
  GoCsv.records reader = l :: data ->
  LoadTransactions ctx reader =
    Returns
      (if ctx O then (Nil, Some ContextBeforeProcessing) else
       match l with
       | GoCsv.Fields record =>
           if (length record =? 3)%nat
           then LoadTransactions_loop ctx 1%nat (GoCsv.reads 3 data) [] 2
           else (Nil, Some (HeaderReadFailed (Some GoCsv.ErrFieldCount)))
       | GoCsv.Malformed => (Nil, Some (HeaderReadFailed (Some GoCsv.ErrQuote)))
       end).
Proof.
  intros E. unfold transactions.LoadTransactions.
  cbn [loader NewCSVTransactionLoader NewCSVTransactionLoaderWithConfig csvConfig
       DefaultCSVConfig FieldsPerRecord ExpectedRecords].
  rewrite E, reads_cons. destruct (ctx O); [reflexivity|].
  destruct l as [record|]; [|reflexivity].
  destruct (length record =? 3)%nat; reflexivity.
Qed.

(** A stream without a record: reading the header meets [io.EOF]. *)
Lemma LoadTransactions_no_record ctx reader :
  GoCsv.records reader = [] ->
  LoadTransactions ctx reader =
    Returns (Nil, Some (if ctx O then ContextBeforeProcessing else HeaderReadFailed None)).
Proof.
  intros E. unfold transactions.LoadTransactions. rewrite E.
  destruct (ctx O); reflexivity.
Qed.

(** The loader of the default configuration always returns. *)
Lemma LoadTransactions_returns ctx reader :
  exists results, LoadTransactions ctx reader = Returns results.
Proof.
  destruct (GoCsv.records reader) as [|l data] eqn:E.
  - rewrite (LoadTransactions_no_record _ _ E). eauto.
  - rewrite (LoadTransactions_records _ _ _ _ E). eauto.
Qed.

Lemma first_invalid_None data :
  first_invalid data = None <-> Forall (fun l => line_ok l = true) data.
Proof.
  induction data as [|l data IH]; cbn [first_invalid]; [split; auto|].
  rewrite Forall_cons. destruct (line_ok l).
  - destruct (first_invalid data); cbn; split; try discriminate; try tauto.
    intros [_ H]. apply IH in H. discriminate.
  - split; [discriminate|]. intros [? _]. discriminate.
Qed.

Lemma first_invalid_app before bad after :
  first_invalid before = None -> line_ok bad = false ->
  first_invalid (before ++ bad :: after) = Some (length before).
Proof.
  intros Hb Hbad. induction before as [|l before IH]; cbn [first_invalid app length].
  - now rewrite Hbad.
  - cbn [first_invalid] in Hb. destruct (line_ok l); [|discriminate].
    destruct (first_invalid before); [discriminate|]. now rewrite IH.
Qed.

(** Where the first invalid line is: it is invalid, and the lines before
    it are valid. *)
Lemma first_invalid_Some data k :
  first_invalid data = Some k <->
  exists before bad after,
    data = (before ++ bad :: after)%list /\ length before = k /\
    Forall (fun l => line_ok l = true) before /\ line_ok bad = false.
Proof.
  split.
  - revert k. induction data as [|l data IH]; intros k; cbn [first_invalid]; [discriminate|].
    destruct (line_ok l) eqn:Hl.
    + destruct (first_invalid data) as [k'|]; [|discriminate]. intros [= <-].
      destruct (IH k' eq_refl) as (before & bad & after & -> & <- & Hb & Hbad).
      exists (l :: before), bad, after. repeat split; auto.
    + intros [= <-]. exists [], l, data. repeat split; auto.
  - intros (before & bad & after & -> & <- & Hb & Hbad).
    apply first_invalid_app; [now apply first_invalid_None|assumption].
Qed.

Lemma exists_invalid before bad after :
  line_ok bad = false -> exists k, first_invalid (before ++ bad :: after) = Some k.
Proof.
  intros Hbad. induction before as [|l before [k IH]]; cbn [first_invalid app].
  - rewrite Hbad. eauto.
  - rewrite IH. destruct (line_ok l); cbn; eauto.
Qed.

Lemma parsed_valid data txns :
  Forall2 (fun line txn =>
             exists record, line = GoCsv.Fields record /\
               exists n, parseRecord record n = inr txn) data txns ->
  first_invalid data = None /\ parsed data = txns.
Proof.
  induction 1 as [|l txn data txns (record & -> & n & E) _ [IH1 IH2]]; [auto|].
  cbn [first_invalid line_ok parsed].
  rewrite (parseRecord_lineNumber record 0 n), E, IH1, IH2. auto.
Qed.

(** When the loader accepts every data line, under a context that is
    never done and after a header of three fields, the load returns the
    transactions of the lines, in their order. *)
Lemma LoadTransactions_all_accepted ctx reader header data :
  never_done ctx -> length header = 3%nat ->
  GoCsv.records reader = GoCsv.Fields header :: data ->
  first_invalid data = None ->
  LoadTransactions ctx reader = Returns (Slice (parsed data), None).
Proof.
  intros Hctx Hh E Hv.
  rewrite (LoadTransactions_records _ _ _ _ E), Hctx, Hh. cbn [Nat.eqb].
  now rewrite loop_all_valid by assumption.
Qed.

(** When the loader refuses a data line, the load fails as a whole,
    whatever the first line and the context are. *)
Lemma LoadTransactions_refused ctx reader first data k :
  GoCsv.records reader = first :: data -> first_invalid data = Some k ->
  exists e, LoadTransactions ctx reader = Returns (Nil, Some e).
Proof.
  intros E Hk. rewrite (LoadTransactions_records _ _ _ _ E).
  destruct (ctx O); [eauto|]. destruct first as [record|]; [|eauto].
  destruct (length record =? 3)%nat; [|eauto].
  destruct (loop_fails ctx data k Hk 1%nat [] 2) as [e ->]. eauto.
Qed.

(** The number in the error is the number of the record that the loader
    refuses first, the header being record 1. *)
Lemma LoadTransactions_first_refused ctx reader header data k :
  never_done ctx -> length header = 3%nat ->
  GoCsv.records reader = GoCsv.Fields header :: data ->
  first_invalid data = Some k ->
  exists e,
    LoadTransactions ctx reader = Returns (Nil, Some e) /\
    reportedLine e = Some (Z.of_nat k + 2) /\
    ((exists err, e = CSVParsingErrorAt (Z.of_nat k + 2) err) \/
     (exists err, e = RecordValidationErrorAt (Z.of_nat k + 2) err)).
Proof.
  intros Hctx Hh E Hk.
  rewrite (LoadTransactions_records _ _ _ _ E), Hctx, Hh. cbn [Nat.eqb].
  destruct (loop_first_invalid ctx data k Hctx Hk 1%nat [] 2) as (e & -> & Hr & He).
  rewrite (Z.add_comm 2) in Hr, He. eauto.
Qed.

(** A load without an error has read a first record and data lines that
    the loader accepts, and returns their transactions. *)
Lemma LoadTransactions_success ctx reader txns :
  LoadTransactions ctx reader = Returns (Slice txns, None) ->
  exists first data,
    GoCsv.records reader = first :: data /\ first_invalid data = None /\ txns = parsed data.
Proof.
  intros H. destruct (GoCsv.records reader) as [|first data] eqn:E.
  { rewrite (LoadTransactions_no_record _ _ E) in H. discriminate. }
  rewrite (LoadTransactions_records _ _ _ _ E) in H. injection H as H.
  destruct (ctx O); [discriminate|].
  destruct first as [record|]; [|discriminate].
  destruct (length record =? 3)%nat; [|discriminate].
  apply loop_success in H as [Hv ->]. eauto.
Qed.

(** C10.  A data line whose id field is a non-empty string of digits that
    denotes a number above 4294967295 makes the whole load fail, whatever
    the other lines and the context are; when the context is never done,
    the header has three fields and the lines before it are valid, the
    error is the validation error of that line, for its id. *)
Theorem LoadTransactions_id_above_32_bits idStr :
  all_digits idStr = true -> idStr <> "" -> 4294967295 < decimal idStr ->
  (forall ctx reader first before fields after,
     GoCsv.records reader = first :: before ++ GoCsv.Fields (idStr :: fields) :: after ->
     exists e, LoadTransactions ctx reader = Returns (Nil, Some e)) /\
  (forall ctx reader header before dateStr amountStr after,
     never_done ctx -> length header = 3%nat -> first_invalid before = None ->
     GoCsv.records reader =
       GoCsv.Fields header :: before ++ GoCsv.Fields [idStr; dateStr; amountStr] :: after ->
     LoadTransactions ctx reader
       = Returns (Nil, Some (RecordValidationErrorAt (Z.of_nat (length before) + 2)
                               (InvalidID idStr IDNotPositiveInteger)))).
Proof.
  intros Hd Hne Hv.
  assert (Hbad : forall fields, line_ok (GoCsv.Fields (idStr :: fields)) = false).
  { intros fields. cbn [line_ok]. unfold transactions.parseRecord.
    destruct fields as [|f1 [|f2 [|f3 r]]]; try reflexivity.
    now rewrite parseIDOptimized_overflow. }
  split.
  - intros ctx reader first before fields after E.
    destruct (exists_invalid before _ after (Hbad fields)) as [k Hk].
    rewrite (LoadTransactions_records _ _ _ _ E).
    destruct (ctx O); [eauto|]. destruct first as [record|]; [|eauto].
    destruct (length record =? 3)%nat; [|eauto].
    destruct (loop_fails ctx _ k Hk 1%nat [] 2) as [e ->]. eauto.
  - intros ctx reader header before dateStr amountStr after Hctx Hh Hb E.
    rewrite (LoadTransactions_records _ _ _ _ E), Hctx, Hh. cbn [Nat.eqb]. f_equal.
    clear E. revert Hb. generalize 1%nat, (@nil Transaction).
    replace (Z.of_nat (length before) + 2) with (2 + Z.of_nat (length before)) by lia.
    generalize 2. induction before as [|l before IH]; intros n poll acc Hb.
    + cbn [app length]. rewrite reads_cons. cbn [length Nat.eqb LoadTransactions_loop].
      rewrite Hctx. unfold transactions.parseRecord.
      rewrite parseIDOptimized_overflow by assumption. now rewrite Z.add_0_r.
    + cbn [first_invalid] in Hb. destruct (line_ok l) eqn:Hl; [|discriminate].
      destruct (first_invalid before) eqn:Hb'; [discriminate|].
      destruct l as [record|]; [|discriminate]. cbn [line_ok] in Hl.
      destruct (parseRecord record 0) as [|txn] eqn:E'; [discriminate|].
      cbn [app]. rewrite reads_cons, (parseRecord_three _ _ _ E').
      cbn [Nat.eqb LoadTransactions_loop].
      rewrite Hctx, (parseRecord_lineNumber record n 0), E', IH by reflexivity.
      cbn [length]. do 3 f_equal. lia.
Qed.

End LoadTransactionsFacts.

Section LoaderExamples.

Import transactions.

Lemma never_done_Background : never_done Background.
Proof. intros n. reflexivity. Qed.

(** The id 4294967296 is refused. *)
Lemma LoadTransactions_id_above_32_bits_witness :
  all_digits "4294967296" = true /\ 4294967295 < decimal "4294967296" /\
  LoadTransactions atof64exact (NewCSVTransactionLoader 2024) Background
    (GoCsv.text_of
       [GoCsv.Fields sample_header; GoCsv.Fields ["1"; "1/1"; "-150"];
        GoCsv.Fields ["4294967296"; "1/3"; "+900.5"]])
    = Returns
        (Nil, Some (RecordValidationErrorAt 3 (InvalidID "4294967296" IDNotPositiveInteger))).
Proof.
  split; [reflexivity|]. split; [reflexivity|].
  destruct (LoadTransactions_id_above_32_bits atof64exact 2024 "4294967296")
    as [_ H]; [reflexivity|discriminate|reflexivity|].
  apply (H Background _ sample_header [GoCsv.Fields ["1"; "1/1"; "-150"]] "1/3" "+900.5" []).
  - exact never_done_Background.
  - reflexivity.
  - vm_compute; reflexivity.
  - reflexivity.
Defined.

(** C1, at the failing input.  A data line with the date "1/5/2022", the
    form M/D/YYYY, is refused for its date by every loader, whatever its
    year: the year of the loader is appended after the year of the date
    and is extra text for the layout, so that the load fails with the
    validation error of line 2.  No date with two "/" is ever accepted. *)
Theorem LoadTransactions_full_year_date ParseFloat now_year :
  (forall reader,
     GoCsv.records reader =
       [GoCsv.Fields ["ID"; "Date"; "Transaction"]; GoCsv.Fields ["1"; "1/5/2022"; "+1250.0"]] ->
     LoadTransactions ParseFloat (NewCSVTransactionLoader now_year) Background reader
       = Returns (Nil, Some (RecordValidationErrorAt 2
                               (InvalidDate "1/5/2022" (DateNotMD GoTime.errExtraText))))) /\
  (forall month day year,
     exists e,
       parseDateOptimized (NewCSVTransactionLoader now_year)
         (month ++ "/" ++ day ++ "/" ++ year) = inl e).
Proof.
  split.
  - intros reader E. rewrite (LoadTransactions_records _ _ _ _ _ _ E).
    cbn [Background length Nat.eqb].
    rewrite reads_cons. cbn [length Nat.eqb GoCsv.reads LoadTransactions_loop Background].
    unfold parseRecord. change (parseIDOptimized "1") with (@inr IDError Z 1).
    assert (E1 : parseDateOptimized (NewCSVTransactionLoader now_year) "1/5/2022"
                 = inl (DateNotMD GoTime.errExtraText)).
    { apply (parseDateOptimized_MDY now_year DefaultCSVConfig "1" "5" "2022").
      - split; [reflexivity|left; reflexivity].
      - split; [reflexivity|left; reflexivity].
      - reflexivity.
      - reflexivity.
      - change (decimal "1") with 1. lia. }
    now rewrite E1.
  - intros month day year. norm_append.
    apply (parseDateOptimized_two_slashes now_year DefaultCSVConfig).
Qed.

(** The dates of the form M/D are accepted by a loader of a four-digit
    year: the sample line "1,1/15,..." in any such year. *)
Lemma parseDateOptimized_month_day now_year :
  1000 <= now_year <= 9999 ->
  parseDateOptimized (NewCSVTransactionLoader now_year) "1/15"
    = inr (GoTime.Date now_year 1 15).
Proof.
  intros Hy.
  apply (parseDateOptimized_MD now_year DefaultCSVConfig "1" "15" Hy).
  - split; [reflexivity|left; reflexivity].
  - split; [reflexivity|right; reflexivity].
  - change (decimal "1") with 1. lia.
  - change (decimal "1") with 1. change (decimal "15") with 15.
    change (GoTime.daysIn 1 now_year) with 31. lia.
Qed.

End LoaderExamples.

(** * The summarizer *)

Section SummarizerFacts.

Import transactions summaries.

Lemma sum_after_fold values : forall total,
  fold_left (fun sum value => PrimFloat.add sum value) values total = sum_after total values.
Proof. induction values as [|v values IH]; intros total; [reflexivity|]. apply IH. Qed.

Lemma sum_after_snoc values value : forall total,
  sum_after total (values ++ [value]) = PrimFloat.add (sum_after total values) value.
Proof. induction values as [|v values IH]; intros total; [reflexivity|]. apply IH. Qed.

Lemma calculateTotalBalance_sum txns :
  calculateTotalBalance txns = sequential_sum (map Amount txns).
Proof.
  unfold calculateTotalBalance, sequential_sum. generalize 0%float.
  induction txns as [|txn txns IH]; intros total; [reflexivity|]. apply IH.
Qed.

Lemma calculateAverage_mean values : calculateAverage values = mean values.
Proof.
  unfold calculateAverage, mean. destruct values as [|v values]; [reflexivity|].
  cbn [length Nat.eqb]. now rewrite sum_after_fold.
Qed.

(** An amount below zero is not above zero. *)
Lemma ltb_zero_exclusive value :
  PrimFloat.ltb value 0 = true -> PrimFloat.ltb 0 value = false.
Proof.
  rewrite !FloatAxioms.ltb_spec. change (Prim2SF 0) with (S754_zero false).
  destruct (Prim2SF value) as [s|s| |s m e]; cbn; try discriminate;
    destruct s; trivial; discriminate.
Qed.

(** An amount equal to zero (of either sign) is neither below nor above
    zero. *)
Lemma zero_is_unsigned value :
  PrimFloat.eqb value 0 = true ->
  PrimFloat.ltb value 0 = false /\ PrimFloat.ltb 0 value = false.
Proof.
  rewrite FloatAxioms.eqb_spec, !FloatAxioms.ltb_spec.
  change (Prim2SF 0) with (S754_zero false).
  destruct (Prim2SF value) as [s|s| |s m e]; cbn; try discriminate; auto;
    destruct s; discriminate.
Qed.

Lemma separateDebitsAndCredits_from txns : forall debits credits,
  fold_left
    (fun '(debits, credits) txn =>
       if PrimFloat.ltb (Amount txn) 0 then ((debits ++ [Amount txn])%list, credits)
       else if PrimFloat.ltb 0 (Amount txn) then (debits, (credits ++ [Amount txn])%list)
       else (debits, credits))
    txns (debits, credits)
  = ((debits ++ strictly_negative (map Amount txns))%list,
     (credits ++ strictly_positive (map Amount txns))%list).
Proof.
  induction txns as [|txn txns IH]; intros debits credits.
  - cbn. now rewrite !app_nil_r.
  - cbn [fold_left map]. unfold strictly_negative, strictly_positive in *.
    cbn [List.filter].
    destruct (PrimFloat.ltb (Amount txn) 0) eqn:Hneg;
      [rewrite (ltb_zero_exclusive _ Hneg)|destruct (PrimFloat.ltb 0 (Amount txn))];
      rewrite IH, <- ?app_assoc; reflexivity.
Qed.

Lemma separateDebitsAndCredits_filter txns :
  separateDebitsAndCredits txns
    = (strictly_negative (map Amount txns), strictly_positive (map Amount txns)).
Proof. apply (separateDebitsAndCredits_from txns [] []). Qed.

Lemma monthlySummaryOf_bucket_summary txns : monthlySummaryOf txns = bucket_summary txns.
Proof.
  unfold monthlySummaryOf, bucket_summary.
  now rewrite separateDebitsAndCredits_filter, !calculateAverage_mean.
Qed.

(** A [range] loop that stores one entry per key maps the values. *)
Lemma map_fold_insert_fmap {A B} (f : A -> B) (m : gmap Z A) :
  map_fold (fun k v (r : gmap Z B) => <[k := f v]> r) ∅ m = f <$> m.
Proof.
  apply (map_fold_weak_ind (fun r m => r = f <$> m)).
  - now rewrite fmap_empty.
  - intros k v m' r _ ->. now rewrite fmap_insert.
Qed.

Lemma computeMonthlyDataFromYearlyGroups_fmap yearlyGroups :
  computeMonthlyDataFromYearlyGroups yearlyGroups
    = (fun monthGroups : gmap Z (list Transaction) => monthlySummaryOf <$> monthGroups)
        <$> yearlyGroups.
Proof.
  unfold computeMonthlyDataFromYearlyGroups.
  apply (map_fold_weak_ind
           (fun r (m : gmap Z (gmap Z (list Transaction))) =>
              r = (fun monthGroups : gmap Z (list Transaction) =>
                     monthlySummaryOf <$> monthGroups) <$> m)).
  - now rewrite fmap_empty.
  - intros year monthGroups m r _ ->. now rewrite fmap_insert, map_fold_insert_fmap.
Qed.

Lemma groupTransactionsByYearAndMonth_snoc txns txn :
  groupTransactionsByYearAndMonth (txns ++ [txn])
    = group_step (groupTransactionsByYearAndMonth txns) txn.
Proof. unfold groupTransactionsByYearAndMonth. now rewrite fold_left_app. Qed.

(** The step adds the transaction at the end of its own bucket and leaves
    the other buckets as they are. *)
Lemma group_step_entry yearlyGroups txn year month :
  entry (group_step yearlyGroups txn) year month =
    if (SummaryYear (GoTime.Year (Date txn)) =? year) && (GoTime.Month (Date txn) =? month)
    then Some (default [] (entry yearlyGroups year month) ++ [txn])%list
    else entry yearlyGroups year month.
Proof.
  unfold group_step, entry.
  set (y0 := SummaryYear (GoTime.Year (Date txn))). set (m0 := GoTime.Month (Date txn)).
  destruct (Z.eqb_spec y0 year) as [<-|Hy]; cbn [andb].
  - rewrite lookup_insert_eq. cbn.
    assert (E : default ∅ (match yearlyGroups !! y0 with
                           | Some _ => yearlyGroups
                           | None => <[y0 := ∅]> yearlyGroups
                           end !! y0)
                = default (∅ : gmap Z (list Transaction)) (yearlyGroups !! y0)).
    { destruct (yearlyGroups !! y0) as [months|] eqn:Ey; [now rewrite Ey|].
      now rewrite lookup_insert_eq. }
    rewrite E. destruct (Z.eqb_spec m0 month) as [<-|Hm].
    + rewrite lookup_insert_eq. destruct (yearlyGroups !! y0); reflexivity.
    + rewrite lookup_insert_ne by exact Hm. destruct (yearlyGroups !! y0); reflexivity.
  - rewrite lookup_insert_ne by exact Hy.
    destruct (yearlyGroups !! y0); [reflexivity|]. now rewrite lookup_insert_ne by exact Hy.
Qed.

(** The groups by key: every key and month under which a transaction is
    filed has its group, with the transactions in their order, and no other
    group exists. *)
Lemma groupTransactionsByYearAndMonth_entry txns year month :
  entry (groupTransactionsByYearAndMonth txns) year month =
    match keyed_group year month txns with
    | [] => None
    | group => Some group
    end.
Proof.
  induction txns as [|txn txns IH] using rev_ind; [reflexivity|].
  rewrite groupTransactionsByYearAndMonth_snoc, group_step_entry, IH.
  unfold keyed_group. rewrite List.filter_app. cbn [List.filter].
  destruct (_ && _).
  - destruct (List.filter _ txns); reflexivity.
  - now rewrite app_nil_r.
Qed.

Lemma calculateYearlyData_entry txns year month :
  entry (calculateYearlyData txns) year month =
    match keyed_group year month txns with
    | [] => None
    | group => Some (bucket_summary group)
    end.
Proof.
  unfold calculateYearlyData. rewrite computeMonthlyDataFromYearlyGroups_fmap.
  pose proof (groupTransactionsByYearAndMonth_entry txns year month) as H.
  unfold entry in *. rewrite lookup_fmap.
  destruct (groupTransactionsByYearAndMonth txns !! year) as [months|]; cbn in *.
  - rewrite lookup_fmap, H. destruct (keyed_group year month txns); cbn; [reflexivity|].
    now rewrite monthlySummaryOf_bucket_summary.
  - destruct (keyed_group year month txns); [reflexivity|discriminate].
Qed.

(** For years that are not negative, the key of a transaction is the
    year of its date, and the groups are the buckets. *)
Lemma SummaryYear_year year : 0 <= year < 2 ^ 63 -> SummaryYear year = year.
Proof.
  intros Hy. unfold SummaryYear, uint64. apply Z.mod_small.
  change (2 ^ 63) with 9223372036854775808 in Hy.
  change (2 ^ 64) with 18446744073709551616. lia.
Qed.

Lemma keyed_group_bucket txns year month :
  Forall (fun txn => 0 <= GoTime.Year (Date txn) < 2 ^ 63) txns ->
  keyed_group year month txns = bucket year month txns.
Proof.
  unfold keyed_group, bucket. induction 1 as [|txn txns Hy _ IH]; [reflexivity|].
  cbn [List.filter]. now rewrite IH, (SummaryYear_year _ Hy).
Qed.

(** C5.  In the summary of a list of transactions dated in years that are
    not negative (and within a Go [int]), the entry of a (year, month)
    bucket exists exactly when some transaction is dated in the bucket, and
    then its [TransactionCount] is the number of transactions of the
    bucket, its [AverageDebit] the mean of the strictly negative amounts of
    the bucket (0 when there is none) and its [AverageCredit] the mean of
    the strictly positive ones (0 when there is none).  The two sets hold
    the amounts below zero and the amounts above zero; an amount equal to
    zero is counted in the bucket and is in neither set. *)
Theorem CalculateSummary_bucket txns year month :
  Forall (fun txn => 0 <= GoTime.Year (Date txn) < 2 ^ 63) txns ->
  entry (YearlyData (CalculateSummary txns)) year month =
    match bucket year month txns with
    | [] => None
    | group =>
        Some {| TransactionCount := Z.of_nat (length group);
                AverageDebit := mean (strictly_negative (map Amount group));
                AverageCredit := mean (strictly_positive (map Amount group)) |}
    end /\
  (forall values value,
     In value (strictly_negative values) <->
     In value values /\ PrimFloat.ltb value 0 = true) /\
  (forall values value,
     In value (strictly_positive values) <->
     In value values /\ PrimFloat.ltb 0 value = true) /\
  (forall values value,
     PrimFloat.eqb value 0 = true ->
     ~ In value (strictly_negative values) /\ ~ In value (strictly_positive values)) /\
  mean [] = 0%float.
Proof.
  intros Hy. split; [|split; [|split; [|split]]].
  - rewrite <- (keyed_group_bucket txns year month Hy).
    unfold CalculateSummary. destruct txns as [|txn txns]; [reflexivity|].
    cbn [length Nat.eqb YearlyData]. apply calculateYearlyData_entry.
  - intros values value. unfold strictly_negative. now rewrite List.filter_In.
  - intros values value. unfold strictly_positive. now rewrite List.filter_In.
  - intros values value [Hneg Hpos]%zero_is_unsigned.
    split; intros [_ H]%filter_In; congruence.
  - reflexivity.
Qed.

(** The transactions of the sample are dated in 2024. *)
Lemma CalculateSummary_bucket_witness :
  entry (YearlyData (CalculateSummary sample_transactions)) 2024 1 =
    Some {| TransactionCount := 4;
            AverageDebit := mean [(-150)%float; (-50)%float];
            AverageCredit := mean [900.5%float; 99.5%float] |}.
Proof.
  apply (CalculateSummary_bucket sample_transactions 2024 1).
  repeat constructor; cbn; lia.
Defined.

(** C5, as stated for every list of transactions, fails: a transaction
    dated in March of the year -1 is in the bucket of that month of the
    year -1, which has no entry in the summary; the summary has an entry
    for March of the year 18446744073709551615, with a count of 1, and no
    transaction is dated in that year. *)
Lemma CalculateSummary_negative_year :
  bucket (-1) 3 [before_year_zero] = [before_year_zero] /\
  entry (YearlyData (CalculateSummary [before_year_zero])) (-1) 3 = None /\
  bucket wrapped_year 3 [before_year_zero] = [] /\
  entry (YearlyData (CalculateSummary [before_year_zero])) wrapped_year 3
    = Some {| TransactionCount := 1; AverageDebit := 0%float; AverageCredit := 5%float |}.
Proof. repeat split; vm_compute; reflexivity. Qed.

(** C6.  The total balance of the summary is the sum of the amounts taken
    from left to right in the order of the list: it is 0 for the empty list,
    and a further transaction adds its amount to the total of those before
    it.  The summary of the empty list has the empty map, with no entry. *)
Theorem CalculateSummary_total_balance :
  (forall txns, TotalBalance (CalculateSummary txns) = sequential_sum (map Amount txns)) /\
  (forall txns txn,
     TotalBalance (CalculateSummary (txns ++ [txn]))
       = PrimFloat.add (TotalBalance (CalculateSummary txns)) (Amount txn)) /\
  CalculateSummary [] = {| TotalBalance := 0%float; YearlyData := ∅ |} /\
  (forall year month, entry (YearlyData (CalculateSummary [])) year month = None).
Proof.
  assert (H : forall txns,
             TotalBalance (CalculateSummary txns) = sequential_sum (map Amount txns)).
  { intros [|txn txns]; [reflexivity|]. apply calculateTotalBalance_sum. }
  repeat split; auto.
  intros txns txn. rewrite !H. unfold sequential_sum.
  rewrite map_app. cbn [map]. apply sum_after_snoc.
Qed.

(** The summary of the sample transactions: a total of 800 and, for
    January 2024, four transactions with an average debit of -100 and an
    average credit of 500. *)
Lemma CalculateSummary_sample :
  TotalBalance (CalculateSummary sample_transactions) = 800%float /\
  entry (YearlyData (CalculateSummary sample_transactions)) 2024 1
    = Some {| TransactionCount := 4; AverageDebit := (-100)%float; AverageCredit := 500%float |}.
Proof. split; vm_compute; reflexivity. Qed.

End SummarizerFacts.

(** * Batches *)

Section Chunks.

Context {A : Type}.

Lemma chunks_cons n (x : A) l :
  chunks n (x :: l) = (x :: take (n - 1) l) :: chunks n (drop (n - 1) l).
Proof. now rewrite chunks_equation_2. Qed.

(** The batches from index [i] on: the next batch and the batches after it. *)
Lemma chunks_drop (l : list A) i :
  (i < length l)%nat ->
  chunks 25 (drop i l) = take 25 (drop i l) :: chunks 25 (drop (i + 25) l).
Proof.
  intros Hi. destruct (drop i l) as [|x l'] eqn:E.
  - apply (f_equal length) in E. rewrite length_drop in E. cbn in E. lia.
  - rewrite chunks_cons, <- drop_drop, E. reflexivity.
Qed.

Lemma chunks_drop_all (l : list A) i :
  (length l <= i)%nat -> chunks 25 (drop i l) = [].
Proof. intros Hi. now rewrite drop_ge by exact Hi. Qed.

(** Batches of at most [n]: the batches put end to end are the list, no
    batch is empty and none has more than [n] items. *)
Lemma chunks_partition n (l : list A) :
  (1 <= n)%nat ->
  concat (chunks n l) = l /\ Forall (fun b => 0 < length b <= n)%nat (chunks n l).
Proof.
  intros Hn. remember (length l) as m eqn:Hm. revert l Hm.
  induction m as [m IH] using lt_wf_ind. intros [|x l] Hm.
  - rewrite chunks_equation_1. split; [reflexivity|constructor].
  - rewrite chunks_cons. cbn [concat length] in *.
    destruct (IH (length (drop (n - 1) l))) with (l := drop (n - 1) l) as [Hc Hf];
      [rewrite length_drop; lia|reflexivity|].
    rewrite Hc. split.
    + cbn. now rewrite take_drop.
    + constructor; [|exact Hf]. cbn [length]. rewrite length_take. lia.
Qed.

Lemma ceil_div_25 m : ceil_div (S m) 25 = S (ceil_div (m - 24) 25).
Proof.
  unfold ceil_div.
  pose proof (Nat.div_mod_eq (S m + 25 - 1) 25).
  pose proof (Nat.mod_upper_bound (S m + 25 - 1) 25 ltac:(lia)).
  pose proof (Nat.div_mod_eq (m - 24 + 25 - 1) 25).
  pose proof (Nat.mod_upper_bound (m - 24 + 25 - 1) 25 ltac:(lia)).
  lia.
Qed.

(** There are [ceil(N / 25)] batches of at most 25 in a list of [N]. *)
Lemma length_chunks_25 (l : list A) : length (chunks 25 l) = ceil_div (length l) 25.
Proof.
  remember (length l) as m eqn:Hm. revert l Hm.
  induction m as [m IH] using lt_wf_ind. intros [|x l] ->.
  - now rewrite chunks_equation_1.
  - rewrite chunks_cons. cbn [length Nat.sub].
    rewrite (IH (length (drop 24 l))) with (l := drop 24 l);
      [|rewrite length_drop; cbn [length]; lia|reflexivity].
    rewrite length_drop. now rewrite ceil_div_25.
Qed.

End Chunks.

(** * The DynamoDB repository *)

Section RepositoryFacts.

Import transactions.

Variable Client : Type.
Variable BatchWriteItem :
  Client -> gmap string (list WriteRequest) -> Client * BatchWriteItemResult.
Variable uuid_New : nat -> string.
Variable tableName : string.

Local Abbreviation World := (World Client).
Local Abbreviation callBatchWriteItem := (callBatchWriteItem Client BatchWriteItem).
Local Abbreviation handleUnprocessedItems_loop :=
  (handleUnprocessedItems_loop Client BatchWriteItem).
Local Abbreviation handleUnprocessedItems :=
  (handleUnprocessedItems Client BatchWriteItem tableName).
Local Abbreviation saveBatch := (saveBatch Client BatchWriteItem uuid_New tableName).
Local Abbreviation Save_loop := (Save_loop Client BatchWriteItem uuid_New tableName).
Local Abbreviation Save := (Save Client BatchWriteItem uuid_New tableName).

(** The loops, one round at a time. *)
Lemma handleUnprocessedItems_loop_round unprocessedItems retryCount (w : World) :
  handleUnprocessedItems_loop unprocessedItems retryCount w =
    if decide (0 < size unprocessedItems /\ retryCount < maxRetries)%nat then
      match callBatchWriteItem (RetryWrite (S retryCount)) unprocessedItems w with
      | (w', BatchWriteItemError) => (w', inl (RetryFailed (S retryCount)))
      | (w', BatchWriteItemOutput UnprocessedItems) =>
          handleUnprocessedItems_loop UnprocessedItems (S retryCount) w'
      end
    else (w, inr unprocessedItems).
Proof.
  rewrite handleUnprocessedItems_loop_equation_1.
  destruct (decide _) as [H|H]; cbn; [|reflexivity].
  destruct (callBatchWriteItem _ _ _) as [w' [|u]]; reflexivity.
Qed.

Lemma Save_loop_round transactions i (w : World) :
  Save_loop transactions i w =
    if lt_dec i (length transactions) then
      match saveBatch
              (subslice transactions i
                 (if (length transactions <? i + batchSize)%nat
                  then length transactions else i + batchSize)%nat) w with
      | (w', Some err) => (w', Some (BatchFailedAt i err))
      | (w', None) => Save_loop transactions (i + batchSize)%nat w'
      end
    else (w, None).
Proof.
  rewrite Save_loop_equation_1.
  destruct (lt_dec _ _) as [H|H]; cbn; [|reflexivity].
  destruct (saveBatch _ _) as [w' [e|]]; reflexivity.
Qed.

Lemma callBatchWriteItem_calls from RequestItems (w w' : World) output :
  callBatchWriteItem from RequestItems w = (w', output) ->
  calls _ w' = (calls _ w ++ [{| site := from; input := RequestItems; result := output |}])%list /\
  uuids _ w' = uuids _ w.
Proof.
  unfold transactions.callBatchWriteItem.
  destruct (BatchWriteItem (client _ w) RequestItems) as [c o]. intros [= <- <-]. auto.
Qed.

(** The retries that the loop makes with [d] of them left. *)
Lemma handleUnprocessedItems_loop_trace d : forall unprocessedItems retryCount (w w' : World) out,
  (retryCount + d = 3)%nat ->
  handleUnprocessedItems_loop unprocessedItems retryCount w = (w', out) ->
  exists retries,
    calls _ w' = (calls _ w ++ retries)%list /\
    map site retries = map RetryWrite (seq (S retryCount) (length retries)) /\
    (length retries <= d)%nat /\
    (retries <> [] -> (0 < size unprocessedItems)%nat) /\
    (forall call, head retries = Some call -> input call = unprocessedItems) /\
    resubmits retries /\
    match out with
    | inl err =>
        exists call,
          last retries = Some call /\ result call = BatchWriteItemError /\
          site call = RetryWrite (retryCount + length retries) /\
          err = RetryFailed (retryCount + length retries)
    | inr remaining =>
        (retries = [] /\ remaining = unprocessedItems /\
         (size unprocessedItems = 0 \/ d = 0)%nat) \/
        (exists call,
           last retries = Some call /\ result call = BatchWriteItemOutput remaining /\
           (size remaining = 0 \/ length retries = d)%nat)
    end.
Proof.
  induction d as [|d IH]; intros u n w w' out Hn; rewrite handleUnprocessedItems_loop_round;
    unfold maxRetries; destruct (decide _) as [[Hu Hlt]|Hno]; try lia.
  - intros [= <- <-]. exists []. rewrite app_nil_r. cbn. repeat split; auto; try easy.
  - destruct (callBatchWriteItem _ _ _) as [w1 [|u1]] eqn:Ecall;
      apply callBatchWriteItem_calls in Ecall as [Ecalls _].
    + intros [= <- <-]. eexists [_]. split; [exact Ecalls|]. cbn [map site length seq].
      replace (n + 1)%nat with (S n) by lia.
      repeat split; auto; try lia; try (intros ? [= <-]; reflexivity).
      eexists. repeat split; reflexivity.
    + intros Hloop.
      destruct (IH u1 (S n) w1 w' out ltac:(lia) Hloop)
        as (retries & Hc & Hs & Hl & Hne & Hhd & Hre & Hout).
      eexists (_ :: retries). split; [rewrite Hc, Ecalls, <- app_assoc; reflexivity|].
      cbn [map site length seq]. rewrite Hs.
      repeat split; auto; try lia; try (intros ? [= <-]; reflexivity).
      * destruct retries as [|next retries]; [exact I|]. split; [|exact Hre].
        exists u1. repeat split; [apply Hne; discriminate|now apply Hhd].
      * destruct out as [err|remaining].
        -- destruct Hout as (call & Hlast & Hres & Hsite & ->).
           exists call. replace (n + S (length retries))%nat with (S n + length retries)%nat by lia.
           split; [|auto].
           destruct retries; [discriminate|exact Hlast].
        -- right. destruct Hout as [(-> & -> & Hd)|(call & Hlast & Hres & Hd)].
           ++ eexists. split; [reflexivity|]. split; [reflexivity|]. cbn. lia.
           ++ exists call. split; [|split; [exact Hres|cbn; lia]].
              destruct retries; [discriminate|exact Hlast].
  - intros [= <- <-]. exists []. rewrite app_nil_r. cbn.
    repeat split; auto; try easy; try lia.
    left. repeat split. lia.
Qed.

Lemma writeRequestsOf_carries batch : forall n,
  Forall2 carries (writeRequestsOf uuid_New batch n) batch.
Proof.
  induction batch as [|txn batch IH]; intros n; cbn [writeRequestsOf]; constructor;
    [repeat split|apply IH].
Qed.

(** The calls that [saveBatch] makes for a batch. *)
Lemma saveBatch_trace batch (w w' : World) err :
  saveBatch batch w = (w', err) ->
  exists batch_calls,
    calls _ w' = (calls _ w ++ batch_calls)%list /\
    batch_trace tableName batch batch_calls err.
Proof.
  unfold transactions.saveBatch.
  destruct (callBatchWriteItem _ _ _) as [w1 [|u]] eqn:Ecall;
    apply callBatchWriteItem_calls in Ecall as [Ecalls _]; cbn [calls] in Ecalls.
  - intros [= <- <-]. eexists [_]. split; [exact Ecalls|].
    eexists _, []. repeat split; try reflexivity; try (cbn; lia); try discriminate.
    eexists. split; [reflexivity|apply writeRequestsOf_carries].
  - destruct (Nat.ltb_spec 0 (size u)) as [Hu|Hu].
    + unfold transactions.handleUnprocessedItems.
      destruct (handleUnprocessedItems_loop u 0 w1) as [w2 out] eqn:Eloop.
      destruct (handleUnprocessedItems_loop_trace 3 u 0%nat w1 w2 out eq_refl Eloop)
        as (retries & Hc & Hs & Hl & Hne & Hhd & Hre & Hout).
      assert (Hsub : submits tableName
                {| site := InitialWrite;
                   input := {[tableName := writeRequestsOf uuid_New batch (uuids _ w)]};
                   result := BatchWriteItemOutput u |} batch).
      { eexists. split; [reflexivity|apply writeRequestsOf_carries]. }
      assert (Hchain : resubmits
                ({| site := InitialWrite;
                    input := {[tableName := writeRequestsOf uuid_New batch (uuids _ w)]};
                    result := BatchWriteItemOutput u |} :: retries)).
      { destruct retries as [|next retries]; [exact I|]. split; [|exact Hre].
        exists u. repeat split; [exact Hu|now apply Hhd]. }
      destruct out as [err'|remaining].
      * intros [= <- <-]. destruct Hout as (call & Hlast & Hres & Hsite & ->).
        eexists (_ :: retries).
        split; [rewrite Hc, Ecalls, <- app_assoc; reflexivity|].
        eexists _, retries. cbn [map site]. rewrite Hs.
        repeat split; auto; try discriminate.
        unfold batch_outcome. destruct retries as [|r0 retries]; [discriminate|].
        change (last (_ :: r0 :: retries)) with (last (r0 :: retries)).
        now rewrite Hlast, Hres, Hsite.
      * destruct Hout as [(-> & -> & Hd)|(call & Hlast & Hres & Hd)]; [lia|].
        assert (Hlast' : last ({| site := InitialWrite;
                                  input := {[tableName := writeRequestsOf uuid_New batch (uuids _ w)]};
                                  result := BatchWriteItemOutput u |} :: retries)
                         = Some call).
        { destruct retries as [|r0 retries]; [discriminate|exact Hlast]. }
        destruct (Nat.ltb_spec 0 (size remaining)) as [Hr|Hr]; intros [= <- <-];
          (eexists (_ :: retries);
           split; [rewrite Hc, Ecalls, <- app_assoc; reflexivity|]);
          eexists _, retries; cbn [map site]; rewrite Hs;
          repeat split; auto; try discriminate; try lia;
          unfold batch_outcome; rewrite Hlast', Hres.
        -- destruct (Nat.ltb_spec 0 (size remaining)); [|lia]. now destruct (site call).
        -- destruct (Nat.ltb_spec 0 (size remaining)); [lia|]. now destruct (site call).
    + intros [= <- <-]. eexists [_]. split; [exact Ecalls|].
      eexists _, []. repeat split; try reflexivity; try (cbn; lia); try discriminate.
      * eexists. split; [reflexivity|apply writeRequestsOf_carries].
      * unfold batch_outcome. cbn. destruct (size u); [reflexivity|lia].
Qed.

Lemma subslice_batch (transactions : list Transaction) i :
  (i < length transactions)%nat ->
  subslice transactions i
    (if (length transactions <? i + batchSize)%nat
     then length transactions else i + batchSize)%nat
  = take 25 (drop i transactions).
Proof.
  intros Hi. unfold subslice, batchSize.
  destruct (Nat.ltb_spec (length transactions) (i + 25)).
  - rewrite !take_ge by (rewrite length_drop; lia). reflexivity.
  - f_equal. lia.
Qed.

(** The calls of the loop of [Save], batch by batch. *)
Lemma Save_loop_trace (transactions : list Transaction) n : forall i (w w' : World) err,
  (length transactions - i <= n)%nat ->
  Save_loop transactions i w = (w', err) ->
  exists batches,
    calls _ w' = (calls _ w ++ concat batches)%list /\
    save_trace tableName transactions i batches err.
Proof.
  induction n as [|n IH]; intros i w w' err Hn; rewrite Save_loop_round;
    destruct (lt_dec i (length transactions)) as [Hi|Hi]; try lia;
    try (intros [= <- <-]; exists []; rewrite app_nil_r; split; [reflexivity|];
         constructor; lia).
  rewrite subslice_batch by exact Hi.
  destruct (saveBatch _ w) as [w1 [e|]] eqn:Eb;
    apply saveBatch_trace in Eb as (batch_calls & Hc & Hb).
  - intros [= <- <-]. exists [batch_calls]. cbn. rewrite app_nil_r.
    split; [exact Hc|]. now constructor.
  - intros Hloop. unfold batchSize in Hloop.
    destruct (IH (i + 25)%nat w1 w' err ltac:(lia) Hloop) as (batches & Hc' & Ht).
    exists (batch_calls :: batches). cbn. rewrite Hc', Hc, <- app_assoc.
    split; [reflexivity|]. now constructor.
Qed.

Lemma Save_trace (transactions : list Transaction) (w w' : World) err :
  Save transactions w = (w', err) ->
  exists batches,
    calls _ w' = (calls _ w ++ concat batches)%list /\
    save_trace tableName transactions 0 batches err.
Proof.
  unfold transactions.Save. destruct (Nat.eqb_spec (length transactions) 0) as [H0|H0].
  - intros [= <- <-]. exists []. rewrite app_nil_r. split; [reflexivity|].
    constructor. lia.
  - apply (Save_loop_trace transactions (length transactions)). lia.
Qed.

(** ** What the traces tell *)

Lemma retries_not_initial retries : forall ns,
  map site retries = map RetryWrite ns -> initial_writes retries = [].
Proof.
  induction retries as [|call retries IH]; intros [|n ns]; try discriminate; [reflexivity|].
  cbn [map]. intros [= Hs Hr]. unfold initial_writes, is_initial. cbn [List.filter].
  rewrite Hs. apply (IH ns Hr).
Qed.

Lemma batch_trace_initial batch batch_calls err :
  batch_trace tableName batch batch_calls err ->
  exists first, initial_writes batch_calls = [first] /\ submits tableName first batch.
Proof.
  intros (first & retries & -> & Hsub & Hs & _). cbn [map] in Hs. injection Hs as Hf Hr.
  exists first. split; [|exact Hsub].
  unfold initial_writes, is_initial. cbn [List.filter]. rewrite Hf.
  f_equal. apply (retries_not_initial _ _ Hr).
Qed.

Lemma initial_writes_batches batches bs :
  Forall2 (fun batch_calls batch => exists err, batch_trace tableName batch batch_calls err)
    batches bs ->
  Forall2 (submits tableName) (initial_writes (concat batches)) bs.
Proof.
  induction 1 as [|batch_calls batch batches bs [err Hb] _ IH]; [constructor|].
  cbn [concat]. unfold initial_writes in *. rewrite List.filter_app.
  apply batch_trace_initial in Hb as (first & Hi & Hsub).
  unfold initial_writes in Hi. rewrite Hi. now constructor.
Qed.

(** The batches that a save went through: the first ones of the list, all
    of them when the save succeeds; when it fails, the last one failed and
    the ones before it were completed. *)
Lemma save_trace_batches (transactions : list Transaction) i batches err :
  save_trace tableName transactions i batches err ->
  (length batches <= length (chunks 25 (drop i transactions)))%nat /\
  Forall2 (fun batch_calls batch => exists e, batch_trace tableName batch batch_calls e)
    batches (take (length batches) (chunks 25 (drop i transactions))) /\
  (err = None -> length batches = length (chunks 25 (drop i transactions))) /\
  (forall j e,
     err = Some (BatchFailedAt j e) ->
     exists done failed,
       batches = (done ++ [failed])%list /\
       (j = i + 25 * length done)%nat /\ (j < length transactions)%nat /\
       batch_trace tableName (take 25 (drop j transactions)) failed (Some e) /\
       Forall2 (fun batch_calls batch => batch_trace tableName batch batch_calls None)
         done (take (length done) (chunks 25 (drop i transactions)))).
Proof.
  induction 1 as [i Hi|i batch_calls e Hi Hb|i batch_calls rest err Hi Hb Hrest IH].
  - rewrite chunks_drop_all by exact Hi. cbn.
    split; [lia|]. split; [constructor|]. split; [reflexivity|discriminate].
  - rewrite chunks_drop by exact Hi. cbn [length take].
    split; [lia|]. split; [constructor; [eauto|constructor]|]. split; [discriminate|].
    intros j e' [= <- <-]. exists [], batch_calls. cbn [app length take].
    rewrite Nat.mul_0_r, Nat.add_0_r. repeat split; auto.
  - destruct IH as (Hle & Hf & Hnone & Hsome).
    rewrite chunks_drop by exact Hi. cbn [length take].
    split; [lia|]. split; [constructor; [eauto|exact Hf]|].
    split; [intros E; now rewrite (Hnone E)|].
    intros j e E. destruct (Hsome j e E) as (done & failed & -> & -> & Hj & Hfail & Hdone).
    exists (batch_calls :: done), failed. cbn [length take app].
    split; [reflexivity|]. split; [lia|]. split; [exact Hj|]. split; [exact Hfail|].
    now constructor.
Qed.

(** In a chain of resubmissions only the last call can have a response
    without unprocessed items. *)
Lemma resubmits_last batch_calls : forall j call unprocessed,
  resubmits batch_calls ->
  batch_calls !! j = Some call ->
  result call = BatchWriteItemOutput unprocessed -> size unprocessed = 0%nat ->
  last batch_calls = Some call.
Proof.
  induction batch_calls as [|c0 batch_calls IH]; intros j call u Hre Hj Hres Hu; [discriminate|].
  destruct batch_calls as [|c1 batch_calls].
  - destruct j; [|discriminate]. exact Hj.
  - destruct Hre as [(u' & Hres' & Hu' & _) Hre]. destruct j as [|j].
    + injection Hj as ->. rewrite Hres in Hres'. injection Hres' as ->. lia.
    + change (last (c0 :: c1 :: batch_calls)) with (last (c1 :: batch_calls)).
      now apply (IH j call u).
Qed.

(** C7, as the code has it.  [Save] cuts the list into the consecutive
    batches of at most 25 transactions, in the order of the list (there are
    [ceil(N / 25)] of them), and makes one initial batch write per batch,
    batch after batch in that order, until a batch fails: the initial writes
    are those of the first [k] batches.  When no batch fails they are all
    the [ceil(N / 25)] batches; when the batch at index [i] fails, it is the
    last one written, [i = 25 * (k - 1)]. *)
Theorem Save_initial_writes transactions (w w' : World) err :
  Save transactions w = (w', err) ->
  exists trace k,
    calls _ w' = (calls _ w ++ trace)%list /\
    length (initial_writes trace) = k /\
    Forall2 (submits tableName) (initial_writes trace) (take k (chunks 25 transactions)) /\
    (k <= ceil_div (length transactions) 25)%nat /\
    (err = None -> k = ceil_div (length transactions) 25) /\
    (forall i e, err = Some (BatchFailedAt i e) -> (0 < k)%nat /\ (i = 25 * (k - 1))%nat) /\
    concat (chunks 25 transactions) = transactions /\
    Forall (fun batch => 0 < length batch <= 25)%nat (chunks 25 transactions) /\
    length (chunks 25 transactions) = ceil_div (length transactions) 25.
Proof.
  intros HS. apply Save_trace in HS as (batches & Hc & Ht).
  apply save_trace_batches in Ht as (Hle & Hf & Hnone & Hsome).
  rewrite drop_0 in *. rewrite length_chunks_25 in *.
  destruct (chunks_partition 25 transactions ltac:(lia)) as [Hcat Hall].
  pose proof (initial_writes_batches _ _ Hf) as Hi.
  exists (concat batches), (length batches).
  repeat split; auto.
  - apply Forall2_length in Hi. rewrite Hi, length_take, length_chunks_25. lia.
  - destruct (Hsome i e H) as (done & failed & -> & -> & _). rewrite length_app. cbn. lia.
  - destruct (Hsome i e H) as (done & failed & -> & -> & _). rewrite length_app. cbn. lia.
Qed.

(** C8.  For a batch, [saveBatch] makes the initial write and then at most
    three retries, numbered from 1 (four submissions at most); each retry
    resubmits exactly the unprocessed items of the response before it, and
    there is a retry whenever the initial response has unprocessed items.
    When the response to some retry has no unprocessed items, that retry is
    the last call and the batch is saved; in particular, when the response
    to the first retry has none, the service is called exactly twice. *)
Theorem saveBatch_retries batch (w w' : World) err :
  saveBatch batch w = (w', err) ->
  exists first retries,
    calls _ w' = (calls _ w ++ first :: retries)%list /\
    site first = InitialWrite /\ submits tableName first batch /\
    map site retries = map RetryWrite (seq 1 (length retries)) /\
    (length retries <= 3)%nat /\
    resubmits (first :: retries) /\
    (forall unprocessed,
       result first = BatchWriteItemOutput unprocessed -> (0 < size unprocessed)%nat ->
       exists retry, head retries = Some retry /\ input retry = unprocessed) /\
    (forall retry unprocessed,
       In retry retries ->
       result retry = BatchWriteItemOutput unprocessed -> size unprocessed = 0%nat ->
       err = None /\ last retries = Some retry) /\
    (forall retry unprocessed,
       head retries = Some retry ->
       result retry = BatchWriteItemOutput unprocessed -> size unprocessed = 0%nat ->
       err = None /\ length (first :: retries) = 2%nat).
Proof.
  intros HS. apply saveBatch_trace in HS
    as (batch_calls & Hc & first & retries & -> & Hsub & Hs & Hl & Hre & Herr & Hbudget).
  cbn [map] in Hs. injection Hs as Hf Hr.
  assert (Hlast : forall retry unprocessed,
             In retry retries ->
             result retry = BatchWriteItemOutput unprocessed -> size unprocessed = 0%nat ->
             err = None /\ last retries = Some retry).
  { intros retry u Hin Hres Hu.
    apply list_elem_of_In, list_elem_of_lookup_1 in Hin as [j Hj].
    pose proof (resubmits_last (first :: retries) (S j) retry u Hre Hj Hres Hu) as Hlast.
    split.
    - rewrite Herr. unfold batch_outcome. rewrite Hlast, Hres.
      destruct (Nat.ltb_spec 0 (size u)); [lia|reflexivity].
    - destruct retries; [discriminate|exact Hlast]. }
  exists first, retries.
  split; [exact Hc|]. split; [exact Hf|]. split; [exact Hsub|]. split; [exact Hr|].
  split; [exact Hl|]. split; [exact Hre|]. split; [|split; [exact Hlast|]].
  - intros u Hres Hu. destruct retries as [|retry retries].
    + exfalso. unfold batch_outcome in Herr. cbn [last] in Herr. rewrite Hres in Herr.
      destruct (Nat.ltb_spec 0 (size u)); [|lia].
      specialize (Hbudget _ Herr). discriminate.
    + destruct Hre as [(u' & Hres' & _ & Hin) _]. exists retry. split; [reflexivity|].
      rewrite Hres in Hres'. now injection Hres' as ->.
  - intros retry u Hhd Hres Hu.
    destruct retries as [|r0 retries]; [discriminate|]. injection Hhd as ->.
    split; [eapply Hlast; eauto; now left|].
    destruct retries as [|r1 retries]; [reflexivity|].
    destruct Hre as [_ [(u' & Hres' & Hu' & _) _]].
    rewrite Hres in Hres'. injection Hres' as ->. lia.
Qed.

Lemma batch_trace_items_remain batch batch_calls maxRetries remaining :
  batch_trace tableName batch batch_calls
    (Some (ItemsRemainUnprocessed maxRetries remaining)) ->
  exists first retry1 retry2 retry3 unprocessed,
    batch_calls = [first; retry1; retry2; retry3] /\
    maxRetries = 3%nat /\
    submits tableName first batch /\
    map site batch_calls = [InitialWrite; RetryWrite 1; RetryWrite 2; RetryWrite 3] /\
    resubmits batch_calls /\
    result retry3 = BatchWriteItemOutput unprocessed /\ (0 < size unprocessed)%nat /\
    remaining = length (default [] (unprocessed !! tableName)).
Proof.
  intros (first & retries & -> & Hsub & Hs & Hl & Hre & Herr & Hbudget).
  assert (Hm : maxRetries = 3%nat /\
               exists call u, last (first :: retries) = Some call /\
                 result call = BatchWriteItemOutput u /\ (0 < size u)%nat /\
                 remaining = length (default [] (u !! tableName))).
  { unfold batch_outcome in Herr. destruct (last (first :: retries)) as [call|]; [|discriminate].
    destruct (result call) as [|u] eqn:Hres; [destruct (site call); discriminate|].
    destruct (Nat.ltb_spec 0 (size u)); [|discriminate].
    injection Herr as -> ->. eauto 10. }
  destruct Hm as (-> & call & u & Hlast & Hres & Hu & ->).
  specialize (Hbudget _ eq_refl).
  destruct retries as [|r1 [|r2 [|r3 [|r4 retries]]]]; try discriminate.
  cbn in Hlast. injection Hlast as ->.
  exists first, r1, r2, call, u. cbn in Hs.
  split; [reflexivity|]. split; [reflexivity|]. split; [exact Hsub|].
  split; [exact Hs|]. split; [exact Hre|]. auto.
Qed.

Lemma batch_trace_third_retry batch batch_calls err call unprocessed :
  batch_trace tableName batch batch_calls err ->
  In call batch_calls -> site call = RetryWrite 3 ->
  result call = BatchWriteItemOutput unprocessed -> (0 < size unprocessed)%nat ->
  err = Some (ItemsRemainUnprocessed 3 (length (default [] (unprocessed !! tableName)))).
Proof.
  intros (first & retries & -> & Hsub & Hs & Hl & Hre & Herr & Hbudget) Hin Hsite Hres Hu.
  cbn [map] in Hs. injection Hs as Hf Hr.
  assert (Hlast : last (first :: retries) = Some call).
  { destruct Hin as [->|Hin]; [congruence|].
    destruct retries as [|r1 [|r2 [|r3 [|r4 retries]]]]; cbn in Hl; try lia;
      cbn in Hr, Hin; try (injection Hr; intros);
      intuition (subst; try congruence; reflexivity). }
  rewrite Herr. unfold batch_outcome. rewrite Hlast, Hres.
  destruct (Nat.ltb_spec 0 (size unprocessed)); [reflexivity|lia].
Qed.

(** Only the last batch of a save can have failed. *)
Lemma save_trace_failed_batch (transactions : list Transaction) i batches err :
  save_trace tableName transactions i batches err ->
  forall batch_calls batch e,
    In batch_calls batches -> batch_trace tableName batch batch_calls (Some e) ->
    exists j, err = Some (BatchFailedAt j e).
Proof.
  induction 1 as [i Hi|i batch_calls0 e0 Hi Hb|i batch_calls0 rest err Hi Hb Hrest IH];
    intros batch_calls batch e Hin Hbt.
  - destruct Hin.
  - destruct Hin as [<-|[]].
    destruct Hb as (? & ? & _ & _ & _ & _ & _ & E1 & _).
    destruct Hbt as (? & ? & _ & _ & _ & _ & _ & E2 & _).
    rewrite <- E1 in E2. injection E2 as ->. eauto.
  - destruct Hin as [<-|Hin]; [|eauto].
    destruct Hb as (? & ? & _ & _ & _ & _ & _ & E1 & _).
    destruct Hbt as (? & ? & _ & _ & _ & _ & _ & E2 & _).
    rewrite <- E1 in E2. discriminate.
Qed.

(** C9, as the code has it.  When [Save] fails because items remain
    unprocessed, the batch at the index [i] of the error got its initial
    write and three retries, the last response still had unprocessed items,
    and the count of the error is the number of unprocessed items of that
    last response for the table: the items of that one batch.  The batches
    before it were completed and get no further call, and no call is made
    for the batches after it.  Conversely, unprocessed items in the response
    to a third retry make the whole save fail with that count. *)
Theorem Save_items_remain_unprocessed transactions (w w' : World) err :
  Save transactions w = (w', err) ->
  (forall i maxRetries remaining,
     err = Some (BatchFailedAt i (ItemsRemainUnprocessed maxRetries remaining)) ->
     exists done first retry1 retry2 retry3 unprocessed,
       calls _ w' = (calls _ w ++ concat done ++ [first; retry1; retry2; retry3])%list /\
       maxRetries = 3%nat /\ (i = 25 * length done)%nat /\ (i < length transactions)%nat /\
       Forall2 (fun batch_calls batch => batch_trace tableName batch batch_calls None)
         done (take (length done) (chunks 25 transactions)) /\
       submits tableName first (take 25 (drop i transactions)) /\
       map site [first; retry1; retry2; retry3]
         = [InitialWrite; RetryWrite 1; RetryWrite 2; RetryWrite 3] /\
       resubmits [first; retry1; retry2; retry3] /\
       result retry3 = BatchWriteItemOutput unprocessed /\ (0 < size unprocessed)%nat /\
       remaining = length (default [] (unprocessed !! tableName))) /\
  (forall trace call unprocessed,
     calls _ w' = (calls _ w ++ trace)%list -> In call trace ->
     site call = RetryWrite 3 ->
     result call = BatchWriteItemOutput unprocessed -> (0 < size unprocessed)%nat ->
     exists i,
       err = Some (BatchFailedAt i
                     (ItemsRemainUnprocessed 3
                        (length (default [] (unprocessed !! tableName)))))).
Proof.
  intros HS. apply Save_trace in HS as (batches & Hc & Ht).
  pose proof (save_trace_batches _ _ _ _ Ht) as (Hle & Hf & Hnone & Hsome).
  rewrite drop_0 in *. split.
  - intros i m k ->.
    destruct (Hsome _ _ eq_refl) as (done & failed & -> & -> & Hi & Hfail & Hdone).
    apply batch_trace_items_remain in Hfail
      as (first & r1 & r2 & r3 & u & -> & -> & Hsub & Hs & Hre & Hres & Hu & ->).
    exists done, first, r1, r2, r3, u. rewrite Hc, concat_app. cbn [concat].
    rewrite app_nil_r. cbn [Nat.add] in *.
    split; [reflexivity|]. split; [reflexivity|]. split; [reflexivity|].
    split; [exact Hi|]. split; [exact Hdone|]. split; [exact Hsub|].
    split; [exact Hs|]. split; [exact Hre|]. auto.
  - intros trace call u Ht' Hin Hsite Hres Hu.
    rewrite Hc in Ht'. apply app_inv_head in Ht' as <-.
    apply in_concat in Hin as (batch_calls & Hb & Hin).
    pose proof Hb as Hb'. apply list_elem_of_In in Hb'.
    apply list_elem_of_lookup_1 in Hb' as [j Hj].
    destruct (Forall2_lookup_l _ _ _ _ _ Hf Hj) as (batch & _ & e & Hbt).
    pose proof (batch_trace_third_retry _ _ _ _ _ Hbt Hin Hsite Hres Hu) as ->.
    eapply save_trace_failed_batch; eauto.
Qed.

End RepositoryFacts.

Section RepositoryExamples.

Import transactions.

(** The save of the sample transactions: one batch, one initial write. *)
Lemma Save_initial_writes_witness :
  exists trace k,
    calls _ (fst saved_after_one_retry) = (calls _ fresh_world ++ trace)%list /\
    length (initial_writes trace) = k /\
    Forall2 (submits sample_table) (initial_writes trace)
      (take k (chunks 25 sample_transactions)) /\
    (k <= ceil_div (length sample_transactions) 25)%nat /\
    (snd saved_after_one_retry = None -> k = ceil_div (length sample_transactions) 25) /\
    (forall i e, snd saved_after_one_retry = Some (BatchFailedAt i e) ->
                 (0 < k)%nat /\ (i = 25 * (k - 1))%nat) /\
    concat (chunks 25 sample_transactions) = sample_transactions /\
    Forall (fun batch => 0 < length batch <= 25)%nat (chunks 25 sample_transactions) /\
    length (chunks 25 sample_transactions) = ceil_div (length sample_transactions) 25.
Proof.
  apply (Save_initial_writes nat service_leaving_first_once sample_uuid sample_table
           sample_transactions fresh_world).
  vm_compute. reflexivity.
Defined.

(** C7, as stated, fails: with a service that is down, the save of 26
    transactions stops after the initial write of the first batch: one
    initial write, where [ceil(26 / 25)] is 2. *)
Lemma Save_stops_at_failed_batch :
  length (initial_writes
            (calls _ (fst (Save nat service_down sample_uuid sample_table sample_26
                             fresh_world)))) = 1%nat /\
  snd (Save nat service_down sample_uuid sample_table sample_26 fresh_world)
    = Some (BatchFailedAt 0 ExecuteBatchWriteFailed) /\
  ceil_div (length sample_26) 25 = 2%nat.
Proof. repeat split; vm_compute; reflexivity. Qed.

(** The batch of the sample transactions: an item is left by the initial
    write and none by the first retry, so the service is called twice. *)
Lemma saveBatch_retries_witness :
  snd batch_after_one_retry = None /\
  length (calls _ (fst batch_after_one_retry)) = 2%nat /\
  exists first retries,
    calls _ (fst batch_after_one_retry) = (calls _ fresh_world ++ first :: retries)%list /\
    site first = InitialWrite /\ submits sample_table first sample_transactions /\
    map site retries = map RetryWrite (seq 1 (length retries)) /\
    (length retries <= 3)%nat /\
    resubmits (first :: retries).
Proof.
  split; [reflexivity|]. split; [reflexivity|].
  destruct (saveBatch_retries nat service_leaving_first_once sample_uuid sample_table
              sample_transactions fresh_world (fst batch_after_one_retry)
              (snd batch_after_one_retry))
    as (first & retries & H1 & H2 & H3 & H4 & H5 & H6 & _).
  - vm_compute. reflexivity.
  - exists first, retries. auto 10.
Defined.

(** The 26 transactions against the service that always leaves an item:
    the first batch fails after three retries with one item unprocessed. *)
Lemma Save_items_remain_unprocessed_witness :
  snd failed_after_retries = Some (BatchFailedAt 0 (ItemsRemainUnprocessed 3 1)) /\
  exists done first retry1 retry2 retry3 unprocessed,
    calls _ (fst failed_after_retries)
      = (calls _ fresh_world ++ concat done ++ [first; retry1; retry2; retry3])%list /\
    (0 = 25 * length done)%nat /\
    submits sample_table first (take 25 (drop 0 sample_26)) /\
    result retry3 = BatchWriteItemOutput unprocessed /\ (0 < size unprocessed)%nat /\
    1%nat = length (default [] (unprocessed !! sample_table)).
Proof.
  split; [reflexivity|].
  destruct (Save_items_remain_unprocessed nat service_leaving_first sample_uuid sample_table
              sample_26 fresh_world (fst failed_after_retries) (snd failed_after_retries))
    as [H _]; [vm_compute; reflexivity|].
  destruct (H 0%nat 3%nat 1%nat eq_refl)
    as (done & first & r1 & r2 & r3 & u & H1 & _ & H3 & _ & _ & H6 & _ & _ & H9 & H10 & H11).
  exists done, first, r1, r2, r3, u. auto 10.
Defined.

(** C9, as stated, fails: in that run the error reports one item, and two
    of the 26 transactions are not written: the item that the first batch
    leaves, and the transaction of the second batch, which is never
    submitted. *)
Lemma Save_reports_failed_batch_only :
  snd (Save nat service_leaving_first sample_uuid sample_table sample_26 fresh_world)
    = Some (BatchFailedAt 0 (ItemsRemainUnprocessed 3 1)) /\
  unwritten sample_26
    (calls _ (fst (Save nat service_leaving_first sample_uuid sample_table sample_26
                     fresh_world))) = 2%nat /\
  length (initial_writes
            (calls _ (fst (Save nat service_leaving_first sample_uuid sample_table sample_26
                             fresh_world)))) = 1%nat.
Proof. repeat split; vm_compute; reflexivity. Qed.

End RepositoryExamples.

(** * Further properties of the CSV loader *)

Section ParseUintAccepts.

Import GoStrconv.

(** [ParseUint] gets through digits only: a letter is a digit of a base
    above 10. *)
Lemma ParseUint_loop_all_digits s : forall n v,
  ParseUint_loop s n = (v, None) -> all_digits s = true.
Proof.
  induction s as [|c s IH]; intros n v; cbn [ParseUint_loop all_digits]; [reflexivity|].
  change (byte "0") with 48. change (byte "9") with 57. change (byte "a") with 97.
  change (byte "z") with 122. change base with 10.
  fold (is_digit c). destruct (is_digit c); cbn [andb].
  - destruct (10 <=? _); [discriminate|]. destruct (cutoff <=? n); [discriminate|].
    destruct (_ || _); [discriminate|]. apply IH.
  - destruct (_ && _) eqn:Hl; [|discriminate].
    apply andb_true_iff in Hl as [Hl _]. apply Z.leb_le in Hl.
    destruct (Z.leb_spec 10 (lower (byte c) - 97 + 10)); [discriminate|lia].
Qed.

(** What [ParseUint(s, 10, 32)] accepts: the non-empty strings of decimal
    digits that denote at most 4294967295, with the number they denote. *)
Lemma ParseUint_accepts s v :
  ParseUint s = (v, None) <->
  s <> "" /\ all_digits s = true /\ decimal s = v /\ v <= 4294967295.
Proof.
  split.
  - intros H. assert (Hne : s <> "").
    { intros ->. discriminate. }
    assert (Hd : all_digits s = true).
    { unfold ParseUint in H. destruct (String.eqb s ""); [discriminate|].
      eapply ParseUint_loop_all_digits, H. }
    rewrite ParseUint_digits in H by assumption.
    destruct (Z.leb_spec (decimal s) 4294967295); [|discriminate].
    injection H as <-. auto.
  - intros (Hne & Hd & <- & Hv). rewrite ParseUint_digits by assumption.
    destruct (Z.leb_spec (decimal s) 4294967295); [reflexivity|lia].
Qed.

End ParseUintAccepts.

Section LoaderAccepts.

Import transactions.

Lemma TrimSpace_empty : GoStrings.TrimSpace "" = "".
Proof. reflexivity. Qed.

(** What [parseIDOptimized] accepts, and returns. *)
Lemma parseIDOptimized_inr_iff idStr id :
  parseIDOptimized idStr = inr id <->
  GoStrings.TrimSpace idStr <> "" /\
  all_digits (GoStrings.TrimSpace idStr) = true /\
  decimal (GoStrings.TrimSpace idStr) = id /\ id <= 4294967295.
Proof.
  unfold parseIDOptimized. destruct (String.eqb_spec idStr "") as [->|Hne].
  { rewrite TrimSpace_empty. split; [discriminate|]. now intros [? _]. }
  destruct (GoStrconv.ParseUint idStr) as [v [e|]] eqn:E1.
  - destruct (String.eqb_spec (GoStrings.TrimSpace idStr) "") as [->|Hne'].
    { split; [discriminate|]. now intros [? _]. }
    destruct (GoStrconv.ParseUint (GoStrings.TrimSpace idStr)) as [v' [e'|]] eqn:E2.
    + split; [discriminate|]. intros H. apply ParseUint_accepts in H. congruence.
    + split.
      * intros [= <-]. now apply ParseUint_accepts.
      * intros H. apply ParseUint_accepts in H. congruence.
  - pose proof E1 as (_ & Hd & Hv & Hle)%ParseUint_accepts.
    rewrite (TrimSpace_digits idStr Hd). split.
    + intros [= <-]. auto.
    + intros (_ & _ & <- & _). now rewrite Hv.
Qed.

(** X1.  The id field: [parseIDOptimized] accepts exactly the strings that,
    once the white space around them is trimmed, are a non-empty string of
    decimal digits denoting at most 4294967295, and returns the number they
    denote (leading zeros are allowed, a sign is not). *)
Theorem parseIDOptimized_accepts idStr id :
  parseIDOptimized idStr = inr id <->
  GoStrings.TrimSpace idStr <> "" /\
  all_digits (GoStrings.TrimSpace idStr) = true /\
  decimal (GoStrings.TrimSpace idStr) = id /\ id <= 4294967295.
Proof. apply parseIDOptimized_inr_iff. Qed.

(** X2.  The date field: [parseDateOptimized] accepts exactly the strings
    "M/D", a month and a day of one or two digits each that make a date of
    the calendar of the year the loader was built in, and only when that
    year has four digits; the date returned is that day of that year. *)
Theorem parseDateOptimized_accepts now_year config dateStr t :
  parseDateOptimized (NewCSVTransactionLoaderWithConfig now_year config) dateStr = inr t <->
  1000 <= now_year <= 9999 /\
  exists ms ds,
    dateStr = ms ++ "/" ++ ds /\ digits12 ms /\ digits12 ds /\
    1 <= decimal ms <= 12 /\
    1 <= decimal ds <= GoTime.daysIn (decimal ms) now_year /\
    t = GoTime.Date now_year (decimal ms) (decimal ds).
Proof.
  split.
  - intros (Hy & ms & ds & -> & Hms & Hds & -> & Hm & Hd)%parseDateOptimized_inr.
    split; [exact Hy|]. exists ms, ds. auto 10.
  - intros (Hy & ms & ds & -> & Hms & Hds & Hm & Hd & ->).
    norm_append. now apply parseDateOptimized_MD.
Qed.

End LoaderAccepts.

Section LoaderOutcomes.

Import transactions.

Variable ParseFloat : string -> option float.

Lemma reads_length input : forall FieldsPerRecord,
  length (GoCsv.reads FieldsPerRecord input) = length input.
Proof.
  induction input as [|[record|] input IH]; intros F; cbn [GoCsv.reads length];
    [reflexivity| |now rewrite IH].
  destruct (0 <? F); [|destruct (F =? 0)]; cbn [length]; now rewrite IH.
Qed.

Lemma loop_all_or_nothing loader ctx csvReader : forall poll acc n,
  (exists txns,
     LoadTransactions_loop ParseFloat loader ctx poll csvReader acc n = (Slice txns, None) /\
     length txns = (length acc + length csvReader)%nat) \/
  (exists e, LoadTransactions_loop ParseFloat loader ctx poll csvReader acc n = (Nil, Some e)).
Proof.
  induction csvReader as [|[err|record] csvReader IH]; intros poll acc n;
    cbn [LoadTransactions_loop]; (destruct (ctx poll); [eauto|]).
  - left. exists acc. split; [reflexivity|]. cbn. lia.
  - eauto.
  - destruct (parseRecord ParseFloat loader record n) as [err|txn]; [eauto|].
    destruct (IH (S poll) (acc ++ [txn])%list (n + 1)) as [(txns & -> & Hl)|(e & ->)]; [|eauto].
    left. exists txns. split; [reflexivity|]. rewrite length_app in Hl. cbn in *. lia.
Qed.


(** The records that the reader of a positive [FieldsPerRecord] returns
    have that many fields. *)
Lemma reads_field_count F input record :
  0 < F -> In (inr record) (GoCsv.reads F input) -> Z.of_nat (length record) = F.
Proof.
  intros HF. induction input as [|[r|] input IH]; cbn [GoCsv.reads]; [intros []| |].
  - destruct (Z.ltb_spec 0 F) as [_|]; [|lia]. intros [Hr|Hr]; [|now apply IH].
    destruct (Z.eqb_spec (Z.of_nat (length r)) F); cbn in Hr; [|discriminate].
    now injection Hr as <-.
  - intros [Hr|Hr]; [discriminate|now apply IH].
Qed.

Lemma loop_never_expected_three_fields loader ctx csvReader : forall poll acc n s e m got,
  (forall record, In (inr record) csvReader -> length record = 3%nat) ->
  LoadTransactions_loop ParseFloat loader ctx poll csvReader acc n = (s, Some e) ->
  e <> RecordValidationErrorAt m (ExpectedThreeFields got).
Proof.
  induction csvReader as [|[err|record] csvReader IH]; intros poll acc n s e m got Hr;
    cbn [LoadTransactions_loop]; (destruct (ctx poll); [intros [= <- <-]; discriminate|]).
  - discriminate.
  - intros [= <- <-]. discriminate.
  - assert (H3 : length record = 3%nat) by (apply Hr; now left).
    destruct record as [|f0 [|f1 [|f2 [|f3 r]]]]; try discriminate H3.
    destruct (parseRecord ParseFloat loader [f0; f1; f2] n) as [err|txn] eqn:E.
    + intros [= <- <-]. unfold parseRecord in E.
      destruct (parseIDOptimized f0); [injection E as <-; discriminate|].
      destruct (parseDateOptimized loader f1); [injection E as <-; discriminate|].
      destruct (parseAmountOptimized ParseFloat f2); [injection E as <-|]; discriminate.
    + apply IH. intros r Hin. apply Hr. now right.
Qed.

(** X4.  With the default configuration the reader already requires three
    fields of every record, so that the check of [parseRecord] never fires:
    every load returns, and none reports "expected 3 fields". *)
Theorem LoadTransactions_never_expected_three_fields now_year ctx reader n got :
  exists results,
    LoadTransactions ParseFloat (NewCSVTransactionLoader now_year) ctx reader
      = Returns results /\
    snd results <> Some (RecordValidationErrorAt n (ExpectedThreeFields got)).
Proof.
  unfold LoadTransactions.
  cbn [NewCSVTransactionLoader NewCSVTransactionLoaderWithConfig csvConfig DefaultCSVConfig
       FieldsPerRecord ExpectedRecords].
  change (makeslice_panics 100) with false. cbn iota.
  destruct (ctx O); [eexists; split; [reflexivity|discriminate]|].
  destruct (GoCsv.reads 3 (GoCsv.records reader)) as [|[err|header] csvReader] eqn:E;
    [eexists; split; [reflexivity|discriminate]..|].
  eexists; split; [reflexivity|].
  destruct (LoadTransactions_loop _ _ _ _ _ _ _) as [s [e|]] eqn:El; [|discriminate].
  cbn [snd]. intros [= ->].
  eapply loop_never_expected_three_fields; [|exact El|reflexivity].
  intros record Hin.
  assert (H : Z.of_nat (length record) = 3).
  { apply (reads_field_count 3 (GoCsv.records reader)); [lia|]. rewrite E. now right. }
  lia.
Qed.

(** X5.  A loader configured with a positive [FieldsPerRecord] other than 3
    loads no data line at all: the reader only passes records of that many
    fields, and [parseRecord] refuses them.  A load that succeeds has read a
    header only. *)
Theorem LoadTransactions_other_field_count now_year config ctx reader txns :
  0 < FieldsPerRecord config -> FieldsPerRecord config <> 3 ->
  LoadTransactions ParseFloat (NewCSVTransactionLoaderWithConfig now_year config) ctx reader
    = Returns (Slice txns, None) ->
  txns = [] /\ length (GoCsv.records reader) = 1%nat.
Proof.
  intros HF H3. unfold LoadTransactions.
  cbn [NewCSVTransactionLoaderWithConfig csvConfig].
  destruct (ctx O); [discriminate|].
  pose proof (reads_length (GoCsv.records reader) (FieldsPerRecord config)) as Hl.
  pose proof (reads_field_count (FieldsPerRecord config) (GoCsv.records reader)) as Hf.
  destruct (GoCsv.reads _ (GoCsv.records reader)) as [|[err|header] csvReader];
    [discriminate..|].
  destruct (makeslice_panics _); [discriminate|].
  destruct csvReader as [|[err|record] csvReader]; cbn [LoadTransactions_loop];
    (destruct (ctx 1%nat); [discriminate|]).
  - intros [= <-]. split; [reflexivity|]. cbn in Hl. lia.
  - discriminate.
  - assert (Z.of_nat (length record) = FieldsPerRecord config)
      by (apply Hf; [exact HF|right; now left]).
    unfold parseRecord.
    destruct record as [|f0 [|f1 [|f2 [|f3 r]]]]; try discriminate. cbn in H. lia.
Qed.

End LoaderOutcomes.

Section LoaderCancellation.

Import transactions.

Variable ParseFloat : string -> option float.
Variable now_year : Z.

Let loader := NewCSVTransactionLoader now_year.

Lemma loop_cancelled ctx k : forall data poll acc n,
  (k <= length data)%nat ->
  first_invalid ParseFloat loader (take k data) = None ->
  (forall j, (j < k)%nat -> ctx (poll + j)%nat = false) ->
  ctx (poll + k)%nat = true ->
  LoadTransactions_loop ParseFloat loader ctx poll (GoCsv.reads 3 data) acc n
    = (Nil, Some (ContextCancelledAt (n + Z.of_nat k))).
Proof.
  induction k as [|k IH]; intros data poll acc n Hk Hv Hc Hd.
  - rewrite Nat.add_0_r in Hd. rewrite Z.add_0_r.
    destruct data as [|l data]; [cbn; now rewrite Hd|].
    rewrite reads_cons. cbn [LoadTransactions_loop]. now rewrite Hd.
  - destruct data as [|l data]; [cbn in Hk; lia|].
    cbn [take first_invalid] in Hv. destruct (line_ok ParseFloat loader l) eqn:Hl; [|discriminate].
    destruct (first_invalid ParseFloat loader (take k data)) eqn:Hv'; [discriminate|].
    destruct l as [record|]; [|discriminate]. cbn [line_ok] in Hl.
    destruct (parseRecord ParseFloat loader record 0) as [|txn] eqn:E; [discriminate|].
    rewrite reads_cons, (parseRecord_three _ _ _ _ _ E).
    cbn [Nat.eqb LoadTransactions_loop].
    pose proof (Hc O ltac:(lia)) as H0. rewrite Nat.add_0_r in H0. rewrite H0.
    change (parseRecord ParseFloat loader record n)
      with (parseRecord ParseFloat loader record 0). rewrite E.
    rewrite (IH data (S poll) _ (n + 1)); [do 3 f_equal; lia|cbn in Hk; lia|exact Hv'| |].
    + intros j Hj. replace (S poll + j)%nat with (poll + S j)%nat by lia. apply Hc. lia.
    + now replace (S poll + k)%nat with (poll + S k)%nat by lia.
Qed.

(** X6.  Cancellation is looked at before each line is read.  When the
    context is first found done at the start of the round after [k] valid
    data lines, the load returns nil and "context cancelled at line k + 2",
    the line it was about to read; this also happens when [k] is the number
    of data lines, all of them parsed and no line left to read. *)
Theorem LoadTransactions_cancelled ctx reader header data k :
  GoCsv.records reader = GoCsv.Fields header :: data ->
  length header = 3%nat -> (k <= length data)%nat ->
  first_invalid ParseFloat loader (take k data) = None ->
  (forall j, (j <= k)%nat -> ctx j = false) -> ctx (S k) = true ->
  LoadTransactions ParseFloat loader ctx reader
    = Returns (Nil, Some (ContextCancelledAt (Z.of_nat k + 2))).
Proof.
  intros E Hh Hk Hv Hc Hd. unfold loader.
  rewrite (LoadTransactions_records _ _ _ _ _ _ E), (Hc O) by lia. rewrite Hh. cbn [Nat.eqb].
  rewrite (loop_cancelled ctx k) by (auto; intros j Hj; apply Hc; lia).
  do 4 f_equal. lia.
Qed.

End LoaderCancellation.

(** * The loader against the field rules of the specification *)

Section PartsFacts.

Lemma parts_not_nil s : parts s <> [].
Proof.
  destruct s as [|c s]; cbn [parts]; [discriminate|].
  destruct (byte c =? 47); [discriminate|]. destruct (parts s); discriminate.
Qed.

Lemma parts_no_slash s : no_slash s = true -> parts s = [s].
Proof.
  induction s as [|c s IH]; cbn [parts no_slash]; [reflexivity|].
  destruct (byte c =? 47); [discriminate|]. cbn [negb andb]. intros H. now rewrite IH.
Qed.

Lemma parts_app m rest : no_slash m = true -> parts (m ++ String "/" rest) = m :: parts rest.
Proof.
  induction m as [|c m IH]; norm_append; cbn [parts no_slash]; [reflexivity|].
  destruct (byte c =? 47); [discriminate|]. cbn [negb andb]. intros H. now rewrite IH.
Qed.

Lemma parts_single s p : parts s = [p] -> s = p /\ no_slash p = true.
Proof.
  revert p. induction s as [|c s IH]; intros p; cbn [parts].
  - intros [= <-]. auto.
  - destruct (byte c =? 47) eqn:Hc.
    + intros [= <- H]. now apply parts_not_nil in H.
    + destruct (parts s) as [|q qs] eqn:E; [now apply parts_not_nil in E|].
      intros [= <- ->]. destruct (IH q eq_refl) as [-> Hq].
      cbn [no_slash]. now rewrite Hc, Hq.
Qed.

Lemma parts_cons s p q qs :
  parts s = p :: q :: qs ->
  exists rest, s = p ++ String "/" rest /\ parts rest = q :: qs /\ no_slash p = true.
Proof.
  revert p. induction s as [|c s IH]; intros p; cbn [parts]; [discriminate|].
  destruct (byte c =? 47) eqn:Hc.
  - intros [= <- H]. exists s. apply Z.eqb_eq in Hc.
    assert (c = "/"%char) as ->.
    { apply (f_equal Z.to_N) in Hc. unfold byte in Hc. rewrite N2Z.id in Hc.
      apply (f_equal ascii_of_N) in Hc. now rewrite ascii_N_embedding in Hc. }
    auto.
  - destruct (parts s) as [|p' ps] eqn:E; [discriminate|].
    intros [= <- ->]. destruct (IH p' eq_refl) as (rest & -> & Hr & Hp).
    exists rest. norm_append. cbn [no_slash]. now rewrite Hc, Hp.
Qed.

Lemma map_Some_inj {A} (xs ys : list A) : map Some xs = map Some ys -> xs = ys.
Proof.
  revert ys. induction xs as [|x xs IH]; intros [|y ys]; try discriminate; [reflexivity|].
  intros [= -> H]. now rewrite (IH ys H).
Qed.

Lemma month_or_day_Some part v :
  month_or_day part = Some v <-> digits12 part /\ v = decimal part.
Proof.
  unfold month_or_day, digits12. destruct (all_digits part); cbn [andb].
  - destruct (Nat.eqb_spec (String.length part) 1) as [H1|H1]; cbn [orb].
    + split; [intros [= <-]; auto|]. now intros [_ ->].
    + destruct (Nat.eqb_spec (String.length part) 2) as [H2|H2].
      * split; [intros [= <-]; auto|]. now intros [_ ->].
      * split; [discriminate|]. intros [[_ [?|?]] _]; contradiction.
  - split; [discriminate|]. now intros [[? _] _].
Qed.

Lemma calendar_date_Some year month day t :
  calendar_date year month day = Some t <->
  1 <= month <= 12 /\ 1 <= day <= GoTime.daysIn month year /\ t = GoTime.Date year month day.
Proof.
  unfold calendar_date.
  destruct (Z.leb_spec 1 month), (Z.leb_spec month 12), (Z.leb_spec 1 day),
    (Z.leb_spec day (GoTime.daysIn month year)); cbn [andb];
    (split; [intros [= <-]; auto with lia|intros (? & ? & ->); first [reflexivity|lia]]).
Qed.

End PartsFacts.

Section FieldRuleFacts.

Import transactions.

Variable ParseFloat : string -> option float.
Variable now_year : Z.

Let loader := NewCSVTransactionLoader now_year.

Local Abbreviation date_of := (spec_date now_year).
Local Abbreviation amount_of := (spec_amount ParseFloat).
Local Abbreviation transaction_of := (spec_transaction ParseFloat now_year).
Local Abbreviation plain := (plain_line ParseFloat now_year).
Local Abbreviation parseRecord := (parseRecord ParseFloat loader).
Local Abbreviation LoadTransactions := (LoadTransactions ParseFloat loader).
Local Abbreviation line_ok := (line_ok ParseFloat loader).
Local Abbreviation first_invalid := (first_invalid ParseFloat loader).
Local Abbreviation parsed := (parsed ParseFloat loader).

(** The ids that the loader accepts are those of the rule that fit 32
    bits. *)
Lemma parseIDOptimized_spec_id field id :
  parseIDOptimized field = inr id <-> spec_id field = Some id /\ id <= 4294967295.
Proof.
  rewrite parseIDOptimized_inr_iff. unfold spec_id.
  destruct (String.eqb_spec (GoStrings.TrimSpace field) "") as [E|E]; cbn [negb andb].
  - split; [now intros [? _]|now intros [? _]].
  - destruct (all_digits (GoStrings.TrimSpace field)).
    + split; [intros (_ & _ & <- & H); auto|intros [[= <-] H]; auto].
    + split; [now intros (_ & ? & _)|now intros [? _]].
Qed.

(** The amounts that the loader accepts are those of the rule. *)
Lemma parseAmountOptimized_spec_amount field amount :
  parseAmountOptimized ParseFloat field = inr amount <-> amount_of field = Some amount.
Proof.
  unfold parseAmountOptimized, spec_amount, parseFloat.
  destruct field as [|c rest]; [split; discriminate|].
  change (byte "+") with 43. change (byte "-") with 45.
  destruct (byte c =? 43); cbn [negb andb].
  - destruct (ParseFloat rest); split; congruence.
  - destruct (byte c =? 45); cbn [negb];
      destruct (ParseFloat (String c rest)); split; congruence.
Qed.

(** The dates that the loader accepts are the dates of the rule in the
    form M/D, and only when its year has four digits. *)
Lemma parseDateOptimized_spec_date field t :
  parseDateOptimized loader field = inr t <->
  1000 <= now_year <= 9999 /\ date_of field = Some t /\ has_year field = false.
Proof.
  split.
  - intros (Hy & ms & ds & -> & Hms & Hds & -> & Hm & Hd)%parseDateOptimized_inr.
    split; [exact Hy|]. unfold has_year, spec_date.
    rewrite parts_app, parts_no_slash by (apply no_slash_digits; apply Hms || apply Hds).
    split; [|reflexivity].
    rewrite (proj2 (month_or_day_Some ms _) (conj Hms eq_refl)).
    rewrite (proj2 (month_or_day_Some ds _) (conj Hds eq_refl)).
    now apply calendar_date_Some.
  - intros (Hy & Hs & Hh). unfold has_year, spec_date in *.
    destruct (parts field) as [|m [|d [|y [|z r]]]] eqn:E; try discriminate.
    apply parts_cons in E as (rest & -> & (-> & Hd)%parts_single & Hm).
    destruct (month_or_day m) as [month|] eqn:Em; [|discriminate].
    destruct (month_or_day d) as [day|] eqn:Ed; [|discriminate].
    apply month_or_day_Some in Em as [Hms ->], Ed as [Hds ->].
    apply calendar_date_Some in Hs as (? & ? & ->).
    now apply parseDateOptimized_MD.
Qed.

(** A date with a year is refused. *)
Lemma parseDateOptimized_has_year field :
  has_year field = true -> exists e, parseDateOptimized loader field = inl e.
Proof.
  intros Hh. destruct (parseDateOptimized loader field) as [e|t] eqn:E; [eauto|].
  apply parseDateOptimized_spec_date in E as (_ & _ & E). congruence.
Qed.

(** The records that the loader accepts are the plain lines, with the
    transaction that they spell. *)
Lemma parseRecord_spec record n txn :
  parseRecord record n = inr txn <->
  1000 <= now_year <= 9999 /\ transaction_of (GoCsv.Fields record) = Some txn /\
  dated_with_year (GoCsv.Fields record) = false /\ ID txn <= 4294967295.
Proof.
  unfold transactions.parseRecord, spec_transaction, dated_with_year.
  destruct record as [|f0 [|f1 [|f2 [|f3 r]]]];
    try (split; [discriminate|now intros (_ & ? & _)]).
  split.
  - destruct (parseIDOptimized f0) as [|id] eqn:E0; [discriminate|].
    destruct (parseDateOptimized loader f1) as [|date] eqn:E1; [discriminate|].
    destruct (parseAmountOptimized ParseFloat f2) as [|amount] eqn:E2; [discriminate|].
    intros [= <-].
    apply parseIDOptimized_spec_id in E0 as [-> H0].
    apply parseDateOptimized_spec_date in E1 as (Hy & -> & Hh).
    apply parseAmountOptimized_spec_amount in E2 as ->. auto.
  - intros (Hy & Hs & Hh & Hid).
    destruct (spec_id f0) as [id|] eqn:E0; [|discriminate].
    destruct (spec_date now_year f1) as [date|] eqn:E1; [|discriminate].
    destruct (spec_amount ParseFloat f2) as [amount|] eqn:E2; [|discriminate].
    injection Hs as <-. cbn [ID] in Hid.
    rewrite (proj2 (parseIDOptimized_spec_id f0 id) (conj E0 Hid)).
    rewrite (proj2 (parseDateOptimized_spec_date f1 date) (conj Hy (conj E1 Hh))).
    now rewrite (proj2 (parseAmountOptimized_spec_amount f2 amount) E2).
Qed.



Lemma records_text_of lines : GoCsv.records (GoCsv.text_of lines) = lines.
Proof.
  induction lines as [|l lines IH]; [reflexivity|].
  cbn [GoCsv.text_of map GoCsv.records]. fold (GoCsv.text_of lines). now rewrite IH.
Qed.

(** The loader accepts the plain lines, (when its year has four digits,)
    and no other line. *)
Lemma line_ok_plain l :
  line_ok l = true <-> 1000 <= now_year <= 9999 /\ plain l.
Proof.
  unfold plain_line. destruct l as [record|]; cbn [line_ok].
  - destruct (parseRecord record 0) as [e|txn] eqn:E.
    + split; [discriminate|]. intros (Hy & txn & Hs & Hd & Hid).
      rewrite (proj2 (parseRecord_spec record 0 txn)) in E by auto. discriminate.
    + apply parseRecord_spec in E as (Hy & Hs & Hd & Hid). split; eauto 6.
  - split; [discriminate|]. intros (_ & txn & [=] & _).
Qed.

Lemma line_ok_invalid l : transaction_of l = None -> line_ok l = false.
Proof.
  intros Hn. destruct (line_ok l) eqn:E; [|reflexivity].
  apply line_ok_plain in E as (_ & txn & Hs & _). congruence.
Qed.

Lemma line_ok_dated_with_year l : dated_with_year l = true -> line_ok l = false.
Proof.
  intros Hn. destruct (line_ok l) eqn:E; [|reflexivity].
  apply line_ok_plain in E as (_ & txn & _ & Hd & _). congruence.
Qed.

(** The transactions of plain lines are those that the lines spell. *)
Lemma parsed_plain rows :
  1000 <= now_year <= 9999 -> Forall plain rows ->
  first_invalid rows = None /\
  map transaction_of rows = map Some (parsed rows) /\
  length (parsed rows) = length rows.
Proof.
  intros Hy. induction 1 as [|l rows Hl _ (IH1 & IH2 & IH3)]; [auto|].
  assert (Hok : line_ok l = true) by (apply line_ok_plain; auto).
  cbn [first_invalid parsed map]. rewrite Hok, IH1.
  destruct l as [record|]; [|discriminate]. cbn [line_ok] in Hok.
  destruct (parseRecord record 0) as [|txn] eqn:E; [discriminate|].
  apply parseRecord_spec in E as (_ & -> & _). cbn [map length].
  now rewrite IH2, IH3.
Qed.

(** The first line that is not plain is the first that the loader
    refuses. *)
Lemma first_invalid_plain before bad after :
  1000 <= now_year <= 9999 -> Forall plain before -> line_ok bad = false ->
  first_invalid (before ++ bad :: after) = Some (length before).
Proof.
  intros Hy Hb Hbad. apply first_invalid_app; [|exact Hbad].
  now apply parsed_plain.
Qed.

Lemma Exists_invalid (P : GoCsv.Line -> Prop) rows :
  (forall l, P l -> line_ok l = false) -> Exists P rows ->
  exists k, first_invalid rows = Some k.
Proof.
  intros HP (bad & Hin & Hbad)%Exists_exists.
  apply list_elem_of_In, in_split in Hin as (before & after & ->).
  apply exists_invalid. now apply HP.
Qed.

Lemma line_of_record_text_of lines k :
  (k < length lines)%nat -> line_of_record (GoCsv.text_of lines) k = Some (Z.of_nat k + 1).
Proof.
  revert k. induction lines as [|l lines IH]; intros k Hk; cbn in Hk; [lia|].
  cbn [GoCsv.text_of map line_of_record]. destruct k as [|k]; [reflexivity|].
  fold (GoCsv.text_of lines). rewrite IH by lia. cbn [option_map]. f_equal. lia.
Qed.


(** C3.  The claim fails on the loader for the well-formed inputs that
    have a date in the form M/D/YYYY: such an input, every line of it valid
    by the field rules, is refused as a whole, whatever the context is; so
    is the input of the repository's test for dates with a year, at its
    line 2, although its lines spell the three transactions that the test
    expects.  What holds is the claim for the plain lines: a well-formed
    input of [N] valid data lines with dates in the form M/D and ids of at
    most 32 bits, read by a loader built in a year of four digits under a
    context that is never done, yields exactly the [N] transactions that the
    lines spell, in the order of the lines; the header gives no transaction
    whatever its three fields are, and an input of a header only yields the
    empty slice, which is not nil. *)
Theorem LoadTransactions_well_formed ctx :
  (forall text rows,
     well_formed ParseFloat now_year text rows ->
     Exists (fun row => dated_with_year row = true) rows ->
     exists e, LoadTransactions ctx text = Returns (Nil, Some e)) /\
  (well_formed atof64exact 2024
     (GoCsv.text_of (GoCsv.Fields sample_header :: full_year_data)) full_year_data /\
   map (spec_transaction atof64exact 2024) full_year_data = map Some full_year_transactions /\
   transactions.LoadTransactions atof64exact (NewCSVTransactionLoader 2024) Background
     (GoCsv.text_of (GoCsv.Fields sample_header :: full_year_data))
     = Returns (Nil, Some (RecordValidationErrorAt 2
                             (InvalidDate "1/5/2022" (DateNotMD GoTime.errExtraText))))) /\
  (1000 <= now_year <= 9999 -> never_done ctx ->
   forall text rows,
     well_formed ParseFloat now_year text rows -> Forall plain rows ->
     exists txns,
       LoadTransactions ctx text = Returns (Slice txns, None) /\
       map transaction_of rows = map Some txns /\ length txns = length rows) /\
  (never_done ctx ->
   forall header,
     length header = 3%nat ->
     LoadTransactions ctx [GoCsv.Starts (GoCsv.Fields header)] = Returns (Slice [], None)).
Proof.
  split; [|split; [|split]].
  - intros text rows (header & -> & Hh & Hv) Hx.
    destruct (Exists_invalid _ rows line_ok_dated_with_year Hx) as [k Hk].
    eapply LoadTransactions_refused; [apply records_text_of|exact Hk].
  - split; [|split; vm_compute; reflexivity].
    exists sample_header. split; [reflexivity|]. split; [reflexivity|].
    repeat constructor; vm_compute; discriminate.
  - intros Hy Hctx text rows (header & -> & Hh & Hv) Hp.
    destruct (parsed_plain rows Hy Hp) as (H1 & H2 & H3).
    exists (parsed rows). split; [|auto].
    eapply LoadTransactions_all_accepted; eauto using records_text_of.
  - intros Hctx header Hh.
    now apply (LoadTransactions_all_accepted _ _ _ _ header []).
Qed.

(** C4.  The load fails as a whole, with a nil slice, when some data line
    is invalid by the field rules, whatever the first line and the context
    are.  The number in the error is the number of a record, not of a line,
    and the record is the first that is not plain, not the first that is
    invalid: under a context that is never done and after a header of three
    fields, for a loader built in a year of four digits, the error is the
    one of the first record that is not plain and carries the number of
    that record, the header being record 1; this is the number of its line
    when the text has one record on each line and no other line.  So the
    claim fails on the loader in two ways: for an invalid line after empty
    lines, here the line 6 of a text whose error says line 2; and for an
    invalid line after a valid line with a date in the form M/D/YYYY, here
    line 3 of a text that fails at its valid line 2. *)
Theorem LoadTransactions_first_invalid_line ctx :
  (forall text first rows,
     GoCsv.records text = first :: rows ->
     Exists (fun row => transaction_of row = None) rows ->
     exists e, LoadTransactions ctx text = Returns (Nil, Some e)) /\
  (1000 <= now_year <= 9999 -> never_done ctx ->
   forall text header before bad after,
     GoCsv.records text = GoCsv.Fields header :: before ++ bad :: after ->
     length header = 3%nat -> Forall plain before -> ~ plain bad ->
     exists e,
       LoadTransactions ctx text = Returns (Nil, Some e) /\
       reportedLine e = Some (Z.of_nat (length before) + 2) /\
       ((exists err, e = CSVParsingErrorAt (Z.of_nat (length before) + 2) err) \/
        (exists err, e = RecordValidationErrorAt (Z.of_nat (length before) + 2) err)) /\
       (text = GoCsv.text_of (GoCsv.Fields header :: before ++ bad :: after) ->
        line_of_record text (S (length before)) = reportedLine e)) /\
  (GoCsv.records spaced_text
     = [GoCsv.Fields sample_header; GoCsv.Fields ["x"; "1/1"; "5"]] /\
   spec_transaction atof64exact 2024 (GoCsv.Fields ["x"; "1/1"; "5"]) = None /\
   line_of_record spaced_text 1 = Some 6 /\
   transactions.LoadTransactions atof64exact (NewCSVTransactionLoader 2024) Background
     spaced_text
     = Returns (Nil, Some (RecordValidationErrorAt 2 (InvalidID "x" IDNotPositiveInteger)))) /\
  (spec_transaction atof64exact 2024 (GoCsv.Fields ["1"; "1/5/2022"; "+1250.0"])
     = Some (dated 1 2022 1 5 1250%float) /\
   spec_transaction atof64exact 2024 (GoCsv.Fields ["x"; "1/15"; "+99.5"]) = None /\
   transactions.LoadTransactions atof64exact (NewCSVTransactionLoader 2024) Background
     late_invalid_text
     = Returns (Nil, Some (RecordValidationErrorAt 2
                             (InvalidDate "1/5/2022" (DateNotMD GoTime.errExtraText))))).
Proof.
  split; [|split; [|split]].
  - intros text first rows E Hx.
    destruct (Exists_invalid _ rows line_ok_invalid Hx) as [k Hk].
    eapply LoadTransactions_refused; eauto.
  - intros Hy Hctx text header before bad after E Hh Hb Hbad.
    assert (Hok : line_ok bad = false).
    { destruct (line_ok bad) eqn:Hok; [|reflexivity].
      apply line_ok_plain in Hok as [_ Hok]. contradiction. }
    pose proof (first_invalid_plain before bad after Hy Hb Hok) as Hk.
    destruct (LoadTransactions_first_refused _ _ _ _ _ _ _ Hctx Hh E Hk) as (e & He & Hr & Hc).
    exists e. split; [exact He|]. split; [exact Hr|]. split; [exact Hc|].
    intros ->. rewrite Hr, line_of_record_text_of by (cbn; rewrite length_app; cbn; lia).
    f_equal. lia.
  - repeat split; vm_compute; reflexivity.
  - repeat split; vm_compute; reflexivity.
Qed.

(** C2.  The claim fails on the loader for the id: a data line whose id
    field spells 0, as "0" does, is loaded as a transaction whose id is 0,
    although the data model has the ids positive and the loader itself
    words its refusal of an id as "must be a valid positive integer".  The
    rest of the claim holds: every transaction of a load without an error
    has a date that is set, and an id between 0 and 4294967295. *)
Theorem LoadTransactions_zero_id ctx :
  (1000 <= now_year <= 9999 -> never_done ctx ->
   forall text header id date amount txn,
     GoCsv.records text = [GoCsv.Fields header; GoCsv.Fields [id; date; amount]] ->
     length header = 3%nat ->
     transaction_of (GoCsv.Fields [id; date; amount]) = Some txn ->
     has_year date = false -> ID txn = 0 ->
     LoadTransactions ctx text = Returns (Slice [txn], None)) /\
  (spec_id "0" = Some 0 /\
   transactions.LoadTransactions atof64exact (NewCSVTransactionLoader 2024) Background
     (GoCsv.text_of [GoCsv.Fields sample_header; GoCsv.Fields ["0"; "1/1"; "5"]])
     = Returns (Slice [dated 0 2024 1 1 5%float], None)) /\
  (forall text txns,
     LoadTransactions ctx text = Returns (Slice txns, None) ->
     Forall (fun txn =>
               GoTime.IsZero (Date txn) = false /\ 0 <= ID txn <= 4294967295) txns).
Proof.
  split; [|split].
  - intros Hy Hctx text header id date amount txn E Hh Hs Hd Hid.
    assert (Hp : plain (GoCsv.Fields [id; date; amount])).
    { exists txn. split; [exact Hs|]. split; [exact Hd|]. lia. }
    destruct (parsed_plain [_] Hy (Forall_cons_2 _ _ _ Hp (Forall_nil_2 _))) as (H1 & H2 & _).
    cbn [map] in H2. rewrite Hs in H2.
    etransitivity; [exact (LoadTransactions_all_accepted _ _ _ _ _ _ Hctx Hh E H1)|].
    do 3 f_equal. apply map_Some_inj. symmetry. exact H2.
  - split; vm_compute; reflexivity.
  - intros text txns (first & data & _ & _ & ->)%LoadTransactions_success.
    induction data as [|[record|] data IH]; cbn [parsed]; [constructor| |exact IH].
    destruct (transactions.parseRecord _ _ record 0) as [|txn] eqn:E; [exact IH|].
    constructor; [|exact IH]. clear IH.
    unfold transactions.parseRecord in E.
    destruct record as [|f0 [|f1 [|f2 [|f3 r]]]]; try discriminate.
    destruct (parseIDOptimized f0) as [|id] eqn:E0; [discriminate|].
    destruct (parseDateOptimized _ f1) as [|date] eqn:E1; [discriminate|].
    destruct (parseAmountOptimized ParseFloat f2); [discriminate|].
    injection E as <-. cbn [ID Date].
    apply parseIDOptimized_range in E0.
    apply parseDateOptimized_inr in E1 as (Hy & ms & ds & _ & _ & _ & -> & _).
    split; [|exact E0]. unfold GoTime.IsZero. cbn [GoTime.Year].
    destruct (Z.eqb_spec now_year 1); [lia|reflexivity].
Qed.

End FieldRuleFacts.

Section FieldRuleExamples.

Import transactions.

(** The sample input is well formed and its lines are plain: it loads to
    its four transactions. *)
Lemma LoadTransactions_well_formed_witness :
  exists txns,
    LoadTransactions atof64exact (NewCSVTransactionLoader 2024) Background
      (GoCsv.text_of (GoCsv.Fields sample_header :: sample_data))
      = Returns (Slice txns, None) /\
    map (spec_transaction atof64exact 2024) sample_data = map Some txns /\
    length txns = length sample_data.
Proof.
  destruct (LoadTransactions_well_formed atof64exact 2024 Background) as (_ & _ & H & _).
  apply H.
  - lia.
  - exact never_done_Background.
  - exists sample_header. split; [reflexivity|]. split; [reflexivity|].
    repeat constructor; vm_compute; discriminate.
  - repeat constructor; eexists; (split; [vm_compute; reflexivity|]);
      (split; [reflexivity|vm_compute; discriminate]).
Defined.

(** The sample input with a second data line whose amount is missing: the
    load fails at line 3. *)
Lemma LoadTransactions_first_invalid_line_witness :
  exists e,
    LoadTransactions atof64exact (NewCSVTransactionLoader 2024) Background
      (GoCsv.text_of
         [GoCsv.Fields sample_header;
          GoCsv.Fields ["1"; "1/1"; "-150"]; GoCsv.Fields ["2"; "1/3"; ""];
          GoCsv.Fields ["x"; "1/15"; "+99.5"]]) = Returns (Nil, Some e) /\
    reportedLine e = Some 3.
Proof.
  destruct (LoadTransactions_first_invalid_line atof64exact 2024 Background) as (_ & H & _).
  destruct (H ltac:(lia) never_done_Background
              (GoCsv.text_of
                 [GoCsv.Fields sample_header;
                  GoCsv.Fields ["1"; "1/1"; "-150"]; GoCsv.Fields ["2"; "1/3"; ""];
                  GoCsv.Fields ["x"; "1/15"; "+99.5"]])
              sample_header [GoCsv.Fields ["1"; "1/1"; "-150"]]
              (GoCsv.Fields ["2"; "1/3"; ""]) [GoCsv.Fields ["x"; "1/15"; "+99.5"]])
    as (e & He & Hr & _).
  - reflexivity.
  - reflexivity.
  - repeat constructor; eexists; (split; [vm_compute; reflexivity|]);
      (split; [reflexivity|vm_compute; discriminate]).
  - intros (txn & Hs & _). vm_compute in Hs. discriminate.
  - exists e. split; [exact He|exact Hr].
Defined.

(** The line "0,1/1,5" in 2024. *)
Lemma LoadTransactions_zero_id_witness :
  LoadTransactions atof64exact (NewCSVTransactionLoader 2024) Background
    (GoCsv.text_of [GoCsv.Fields sample_header; GoCsv.Fields ["0"; "1/1"; "5"]])
    = Returns (Slice [dated 0 2024 1 1 5%float], None).
Proof.
  destruct (LoadTransactions_zero_id atof64exact 2024 Background) as (H & _).
  apply (H ltac:(lia) never_done_Background _ sample_header "0" "1/1" "5"); reflexivity.
Defined.

End FieldRuleExamples.

(** * Further properties of the summarizer *)

Section MapSum.

Context {A : Type}.

Lemma map_sum_empty (f : A -> Z) : map_sum f ∅ = 0.
Proof. reflexivity. Qed.

Lemma map_sum_insert_None (f : A -> Z) (m : gmap Z A) i x :
  m !! i = None -> map_sum f (<[i := x]> m) = f x + map_sum f m.
Proof.
  intros Hi. unfold map_sum. rewrite map_fold_insert_L; [reflexivity| |exact Hi].
  intros. lia.
Qed.

Lemma map_sum_insert_Some (f : A -> Z) (m : gmap Z A) i x y :
  m !! i = Some y -> map_sum f (<[i := x]> m) = f x - f y + map_sum f m.
Proof.
  intros Hi. rewrite <- insert_delete_eq.
  rewrite map_sum_insert_None by apply lookup_delete_eq.
  unfold map_sum at 2. rewrite (map_fold_delete_L _ _ i y m); [|intros; lia|exact Hi].
  fold (map_sum f (delete i m)). lia.
Qed.

Lemma map_sum_ext (f g : A -> Z) (m : gmap Z A) :
  (forall x, f x = g x) -> map_sum f m = map_sum g m.
Proof.
  intros E. induction m as [|i x m Hi IH] using map_ind; [reflexivity|].
  now rewrite !map_sum_insert_None, IH, E by exact Hi.
Qed.

Lemma map_sum_fmap {B} (f : B -> Z) (g : A -> B) (m : gmap Z A) :
  map_sum f (g <$> m) = map_sum (fun x => f (g x)) m.
Proof. unfold map_sum. now rewrite map_fold_fmap. Qed.

End MapSum.

Section SummarizerTotals.

Import transactions summaries.

Local Abbreviation len_sum :=
  (map_sum (map_sum (fun group : list Transaction => Z.of_nat (length group)))).

Lemma TransactionCount_monthlySummaryOf group :
  TransactionCount (monthlySummaryOf group) = Z.of_nat (length group).
Proof. unfold monthlySummaryOf. now destruct (separateDebitsAndCredits group). Qed.

Lemma count_all_groups yearlyGroups :
  count_all (computeMonthlyDataFromYearlyGroups yearlyGroups) = len_sum yearlyGroups.
Proof.
  rewrite computeMonthlyDataFromYearlyGroups_fmap. unfold count_all.
  rewrite map_sum_fmap. apply map_sum_ext. intros monthGroups.
  rewrite map_sum_fmap. apply map_sum_ext, TransactionCount_monthlySummaryOf.
Qed.

(** The step adds one transaction to the groups. *)
Lemma len_sum_group_step yearlyGroups txn :
  len_sum (group_step yearlyGroups txn) = len_sum yearlyGroups + 1.
Proof.
  unfold group_step.
  set (year := SummaryYear (GoTime.Year (Date txn))). set (month := GoTime.Month (Date txn)).
  destruct (yearlyGroups !! year) as [monthGroups|] eqn:Ey.
  - rewrite Ey. cbn [from_option id].
    rewrite (map_sum_insert_Some _ _ _ _ monthGroups) by exact Ey.
    destruct (monthGroups !! month) as [group|] eqn:Em; cbn [from_option id].
    + rewrite (map_sum_insert_Some _ _ _ _ group) by exact Em.
      rewrite length_app. cbn [length]. lia.
    + rewrite map_sum_insert_None by exact Em. cbn [app length]. lia.
  - rewrite lookup_insert_eq. cbn [from_option id]. rewrite insert_insert_eq.
    rewrite map_sum_insert_None by exact Ey. rewrite lookup_empty. cbn [from_option id app].
    rewrite map_sum_insert_None by apply lookup_empty. rewrite map_sum_empty.
    cbn [length]. lia.
Qed.

Lemma len_sum_groups txns :
  len_sum (groupTransactionsByYearAndMonth txns) = Z.of_nat (length txns).
Proof.
  induction txns as [|txn txns IH] using rev_ind; [reflexivity|].
  rewrite groupTransactionsByYearAndMonth_snoc, len_sum_group_step, IH, length_app.
  cbn [length]. lia.
Qed.

(** X7.  Every transaction is counted in exactly one bucket: the
    transaction counts of all the (year, month) entries of the summary add
    up to the number of transactions given. *)
Theorem CalculateSummary_counts_add_up txns :
  count_all (YearlyData (CalculateSummary txns)) = Z.of_nat (length txns).
Proof.
  unfold CalculateSummary. destruct txns as [|txn txns]; [reflexivity|].
  cbn [length Nat.eqb YearlyData]. unfold calculateYearlyData.
  now rewrite count_all_groups, len_sum_groups.
Qed.

(** The entries of the summary, key by key. *)
Lemma CalculateSummary_entry txns year month :
  entry (YearlyData (CalculateSummary txns)) year month =
    match keyed_group year month txns with
    | [] => None
    | group => Some (bucket_summary group)
    end.
Proof.
  unfold CalculateSummary. destruct txns as [|txn txns]; [reflexivity|].
  cbn [length Nat.eqb YearlyData]. apply calculateYearlyData_entry.
Qed.



Lemma length_filter_Permutation {A} (f : A -> bool) l l' :
  Permutation l l' -> length (List.filter f l) = length (List.filter f l').
Proof.
  induction 1 as [|x l l' _ IH|x y l|l l' l'' _ IH1 _ IH2]; cbn [List.filter].
  - reflexivity.
  - destruct (f x); cbn [length]; now rewrite IH.
  - destruct (f x), (f y); reflexivity.
  - now rewrite IH1.
Qed.

(** X9.  The buckets and their counts do not depend on the order of the
    transactions: two lists with the same transactions in another order
    have entries for the same (year, month) buckets, with the same
    transaction counts. *)
Theorem CalculateSummary_counts_permutation txns txns' :
  Permutation txns txns' ->
  forall year month,
    TransactionCount <$> entry (YearlyData (CalculateSummary txns)) year month
      = TransactionCount <$> entry (YearlyData (CalculateSummary txns')) year month.
Proof.
  intros Hp year month. rewrite !CalculateSummary_entry.
  assert (Hl : length (keyed_group year month txns) = length (keyed_group year month txns')).
  { unfold keyed_group. now apply length_filter_Permutation. }
  destruct (keyed_group year month txns), (keyed_group year month txns'); try discriminate;
    cbn in *; [reflexivity|]. now rewrite Hl.
Qed.

End SummarizerTotals.

(** * The loader and the summarizer together *)

Section LoadedTransactions.

Import transactions summaries.

Variable ParseFloat : string -> option float.
Variable now_year : Z.

Let loader := NewCSVTransactionLoader now_year.

(** What [parseRecord] makes of a record it accepts. *)
Lemma parseRecord_inr record n txn :
  parseRecord ParseFloat loader record n = inr txn ->
  exists f0 f1 f2,
    record = [f0; f1; f2] /\
    parseIDOptimized f0 = inr (ID txn) /\
    parseDateOptimized loader f1 = inr (Date txn) /\
    parseAmountOptimized ParseFloat f2 = inr (Amount txn) /\
    transactions.AccountID txn = "".
Proof.
  unfold parseRecord. destruct record as [|f0 [|f1 [|f2 [|f3 r]]]]; try discriminate.
  destruct (parseIDOptimized f0) as [|id] eqn:E0; [discriminate|].
  destruct (parseDateOptimized loader f1) as [|date] eqn:E1; [discriminate|].
  destruct (parseAmountOptimized ParseFloat f2) as [|amount] eqn:E2; [discriminate|].
  intros [= <-]. exists f0, f1, f2. repeat split; assumption.
Qed.

Lemma parsed_Forall (P : Transaction -> Prop) data :
  (forall record txn, parseRecord ParseFloat loader record 0 = inr txn -> P txn) ->
  Forall P (parsed ParseFloat loader data).
Proof.
  intros HP. induction data as [|[record|] data IH]; cbn [parsed]; [constructor| |exact IH].
  destruct (parseRecord ParseFloat loader record 0) as [|txn] eqn:E; [exact IH|].
  constructor; [now apply (HP record)|exact IH].
Qed.

(** The transactions of a load without an error are those of its data
    lines. *)
Lemma LoadTransactions_parsed ctx reader txns :
  LoadTransactions ParseFloat loader ctx reader = Returns (Slice txns, None) ->
  exists header data,
    GoCsv.records reader = GoCsv.Fields header :: data /\ length header = 3%nat /\
    first_invalid ParseFloat loader data = None /\ txns = parsed ParseFloat loader data.
Proof.
  destruct (GoCsv.records reader) as [|first data] eqn:E.
  { unfold loader. rewrite (LoadTransactions_no_record _ _ _ _ E). discriminate. }
  unfold loader. rewrite (LoadTransactions_records _ _ _ _ _ _ E). intros [= H]. revert H.
  destruct (ctx O); [discriminate|].
  destruct first as [header|]; [|discriminate].
  destruct (Nat.eqb_spec (length header) 3) as [Hh|]; [|discriminate].
  intros [Hv ->]%loop_success. exists header, data. auto.
Qed.

(** The dates of the transactions of a load: days of the calendar of the
    loader's year, which has four digits. *)
Lemma LoadTransactions_dates ctx reader txns :
  LoadTransactions ParseFloat loader ctx reader = Returns (Slice txns, None) ->
  Forall (fun txn =>
            1000 <= now_year <= 9999 /\ GoTime.Year (Date txn) = now_year /\
            1 <= GoTime.Month (Date txn) <= 12 /\
            1 <= GoTime.Day (Date txn)
              <= GoTime.daysIn (GoTime.Month (Date txn)) now_year) txns.
Proof.
  intros (header & data & _ & _ & _ & ->)%LoadTransactions_parsed.
  apply parsed_Forall. intros record txn (f0 & f1 & f2 & _ & _ & Hd & _)%parseRecord_inr.
  apply parseDateOptimized_inr in Hd as (Hy & ms & ds & _ & _ & _ & -> & Hm & Hday).
  cbn [GoTime.Year GoTime.Month GoTime.Day]. auto.
Qed.

(** X10.  The summary of the transactions of one load concerns a single
    year: every entry is under the year the loader was built in, and under
    a month between 1 and 12. *)
Theorem CalculateSummary_of_loaded ctx reader txns year month s :
  LoadTransactions ParseFloat loader ctx reader = Returns (Slice txns, None) ->
  entry (YearlyData (CalculateSummary txns)) year month = Some s ->
  year = now_year /\ 1 <= month <= 12.
Proof.
  intros Hl He. apply LoadTransactions_dates in Hl.
  rewrite CalculateSummary_entry in He.
  destruct (keyed_group year month txns) as [|txn group] eqn:Eb; [discriminate|].
  assert (Hin : In txn (keyed_group year month txns)) by (rewrite Eb; now left).
  apply filter_In in Hin as [Hin [H1%Z.eqb_eq H2%Z.eqb_eq]%andb_true_iff].
  rewrite Forall_forall in Hl. apply list_elem_of_In, Hl in Hin as (Hy & Hyear & Hm & _).
  rewrite Hyear, SummaryYear_year in H1 by (change (2 ^ 63) with 9223372036854775808; lia).
  split; [now symmetry|]. now rewrite <- H2.
Qed.

End LoadedTransactions.

(** * Further properties of the repository *)

Section RepositoryOutcomes.

Import transactions.

Variable Client : Type.
Variable BatchWriteItem :
  Client -> gmap string (list WriteRequest) -> Client * BatchWriteItemResult.
Variable uuid_New : nat -> string.
Variable tableName : string.

Local Abbreviation World := (World Client).
Local Abbreviation Save := (Save Client BatchWriteItem uuid_New tableName).

(** The calls of a batch that is completed: the batch is submitted first,
    and the response to the last call has no unprocessed items. *)
Lemma batch_trace_completed batch batch_calls :
  batch_trace tableName batch batch_calls None ->
  exists first final,
    head batch_calls = Some first /\ submits tableName first batch /\
    last batch_calls = Some final /\ result final = BatchWriteItemOutput ∅.
Proof.
  intros (first & retries & -> & Hsub & _ & _ & _ & Herr & _).
  unfold batch_outcome in Herr.
  destruct (last (first :: retries)) as [final|] eqn:El.
  - exists first, final. repeat split; auto.
    destruct (result final) as [|unprocessed]; [destruct (site final); discriminate|].
    destruct (Nat.ltb_spec 0 (size unprocessed)); [discriminate|].
    f_equal. apply map_size_empty_iff. lia.
  - apply last_None in El. discriminate.
Qed.

Lemma save_trace_success (transactions : list Transaction) i batches :
  save_trace tableName transactions i batches None ->
  Forall2 (fun batch_calls batch => batch_trace tableName batch batch_calls None)
    batches (chunks 25 (drop i transactions)).
Proof.
  remember None as err eqn:Eerr.
  induction 1 as [i Hi|i batch_calls e Hi Hb|i batch_calls rest err Hi Hb Hrest IH].
  - rewrite chunks_drop_all by exact Hi. constructor.
  - discriminate.
  - subst err. rewrite chunks_drop by exact Hi. constructor; [exact Hb|now apply IH].
Qed.

(** X11.  [Save] returns without an error only when every batch is
    acknowledged in full: its calls are, batch after batch in the order of
    the list, the calls of each batch of 25, which start with the write of
    the batch and end with a response that leaves no unprocessed item. *)
Theorem Save_success_acknowledged transactions (w w' : World) :
  Save transactions w = (w', None) ->
  exists batches,
    calls _ w' = (calls _ w ++ concat batches)%list /\
    Forall2 (fun batch_calls batch =>
               exists first final,
                 head batch_calls = Some first /\ submits tableName first batch /\
                 last batch_calls = Some final /\
                 result final = BatchWriteItemOutput ∅)
      batches (chunks 25 transactions).
Proof.
  intros (batches & Hc & Ht)%Save_trace. exists batches. split; [exact Hc|].
  apply save_trace_success in Ht. rewrite drop_0 in Ht.
  eapply Forall2_impl; [exact Ht|]. intros batch_calls batch. apply batch_trace_completed.
Qed.

Lemma batch_trace_length batch batch_calls err :
  batch_trace tableName batch batch_calls err -> (1 <= length batch_calls <= 4)%nat.
Proof. intros (first & retries & -> & _ & _ & Hl & _). cbn [length]. lia. Qed.

Lemma concat_length_bound {A} (ls : list (list A)) n :
  Forall (fun l => length l <= n)%nat ls -> (length (concat ls) <= n * length ls)%nat.
Proof.
  induction 1 as [|l ls Hl _ IH]; cbn [concat length]; [lia|].
  rewrite length_app. lia.
Qed.

(** X12.  The calls of one [Save] are bounded: at most four calls of
    [BatchWriteItem] for each batch of 25, so at most [4 * ceil(N / 25)] in
    all.  An empty list makes no call at all, and any other list makes at
    least one. *)
Theorem Save_calls_bound transactions (w w' : World) err :
  Save transactions w = (w', err) ->
  exists trace,
    calls _ w' = (calls _ w ++ trace)%list /\
    (length trace <= 4 * ceil_div (length transactions) 25)%nat /\
    (trace = [] <-> transactions = []).
Proof.
  intros (batches & Hc & Ht)%Save_trace. exists (concat batches). split; [exact Hc|].
  pose proof (save_trace_batches _ _ _ _ _ Ht) as (Hle & Hf & _).
  rewrite drop_0, length_chunks_25 in Hle.
  assert (Hb : Forall (fun batch_calls => 1 <= length batch_calls <= 4)%nat batches).
  { clear -Hf. induction Hf as [|? ? ? ? [e He%batch_trace_length]]; constructor; auto. }
  split.
  - transitivity (4 * length batches)%nat; [|lia].
    apply concat_length_bound. eapply Forall_impl; [exact Hb|]. cbn. lia.
  - split.
    + intros Hnil. destruct transactions as [|txn transactions]; [reflexivity|].
      inversion Ht as [i Hi|i batch_calls e Hi Hbt|i batch_calls rest e Hi Hbt Hrest]; subst;
        [cbn in Hi; lia| |];
        apply batch_trace_length in Hbt; cbn [concat] in Hnil;
        destruct batch_calls; cbn in *; [lia|discriminate|lia|discriminate].
    + intros ->. inversion Ht as [| |]; subst; [reflexivity|cbn in *; lia..].
Qed.

End RepositoryOutcomes.

Section StoredDate.

Import GoStrconv GoTime.

Lemma decimal_from_zeros k : forall x,
  decimal_from x (string_of_list_ascii (repeat "0"%char k)) = x * 10 ^ Z.of_nat k.
Proof.
  induction k as [|k IH]; intros x; cbn [repeat string_of_list_ascii decimal_from]; [lia|].
  rewrite IH. change (byte "0") with 48. rewrite Nat2Z.inj_succ, Z.pow_succ_r by lia. lia.
Qed.

Lemma all_digits_zeros k : all_digits (string_of_list_ascii (repeat "0"%char k)) = true.
Proof. induction k as [|k IH]; [reflexivity|]. cbn. exact IH. Qed.

Lemma length_zeros k : String.length (string_of_list_ascii (repeat "0"%char k)) = k.
Proof. induction k as [|k IH]; [reflexivity|]. cbn. now rewrite IH. Qed.

(** [appendInt] of a number that fits the width: the digits of the number,
    with zeros before them up to the width. *)
Lemma appendInt_digits x width :
  (0 < width)%nat -> 0 <= x < 10 ^ Z.of_nat width ->
  all_digits (appendInt x width) = true /\
  String.length (appendInt x width) = width /\
  decimal (appendInt x width) = x.
Proof.
  intros Hw Hx. unfold appendInt. rewrite Z.abs_eq by lia.
  destruct (Z.ltb_spec x 0); [lia|]. norm_append.
  destruct (formatBits_digits x "" ltac:(lia)) as (ds & E & Hd & Hv & Hl & Hlo & Hhi).
  rewrite append_nil_r in E. rewrite E.
  assert (Hlen : (String.length ds <= width)%nat).
  { destruct Hlo as [->|Hlo].
    - rewrite formatBits_equation_1 in E. cbn in E. subst ds. cbn. lia.
    - assert (10 ^ (Z.of_nat (String.length ds) - 1) < 10 ^ Z.of_nat width) by lia.
      apply Z.pow_lt_mono_r_iff in H0; lia. }
  rewrite all_digits_app, all_digits_zeros, Hd, length_append, length_zeros.
  unfold decimal. rewrite decimal_from_app, decimal_from_zeros, Hv.
  repeat split; lia.
Qed.

Lemma append_inj_length (a a' b b' : string) :
  a ++ b = a' ++ b' -> String.length a = String.length a' -> a = a' /\ b = b'.
Proof.
  revert a'. induction a as [|x a IH]; intros [|x' a']; norm_append; cbn [String.length];
    try discriminate; [auto|].
  intros [= -> E] [= Hl]. destruct (IH a' E Hl) as [-> ->]. auto.
Qed.

(** X13.  The date that [saveBatch] stores: for a date of a year up to 9999
    (as every date of the loader is), [Format] writes the 20 characters
    YYYY-MM-DDT00:00:00Z, and the string determines the date: two dates that
    are stored as the same string are the same date. *)
Theorem Format_RFC3339_Z_injective t t' :
  0 <= Year t <= 9999 -> 1 <= Month t <= 12 -> 1 <= Day t <= 31 ->
  0 <= Year t' <= 9999 -> 1 <= Month t' <= 12 -> 1 <= Day t' <= 31 ->
  String.length (Format_RFC3339_Z t) = 20%nat /\
  (exists rest, Format_RFC3339_Z t = rest ++ "T00:00:00Z") /\
  (Format_RFC3339_Z t = Format_RFC3339_Z t' -> t = t').
Proof.
  intros Hy Hm Hd Hy' Hm' Hd'. unfold Format_RFC3339_Z.
  change (appendInt 0 2) with "00".
  destruct (appendInt_digits (Year t) 4) as (_ & Ly & Vy); [lia|change (10 ^ Z.of_nat 4) with 10000; lia|].
  destruct (appendInt_digits (Month t) 2) as (_ & Lm & Vm); [lia|change (10 ^ Z.of_nat 2) with 100; lia|].
  destruct (appendInt_digits (Day t) 2) as (_ & Ld & Vd); [lia|change (10 ^ Z.of_nat 2) with 100; lia|].
  destruct (appendInt_digits (Year t') 4) as (_ & Ly' & Vy'); [lia|change (10 ^ Z.of_nat 4) with 10000; lia|].
  destruct (appendInt_digits (Month t') 2) as (_ & Lm' & Vm'); [lia|change (10 ^ Z.of_nat 2) with 100; lia|].
  destruct (appendInt_digits (Day t') 2) as (_ & Ld' & Vd'); [lia|change (10 ^ Z.of_nat 2) with 100; lia|].
  split; [|split].
  - rewrite !length_append, Ly, Lm, Ld. reflexivity.
  - exists (appendInt (Year t) 4 ++ "-" ++ appendInt (Month t) 2 ++ "-" ++ appendInt (Day t) 2).
    rewrite !append_assoc. reflexivity.
  - intros E.
    apply append_inj_length in E as [Ey E]; [|congruence].
    apply (append_inj_length "-" "-") in E as [_ E]; [|reflexivity].
    apply append_inj_length in E as [Em E]; [|congruence].
    apply (append_inj_length "-" "-") in E as [_ E]; [|reflexivity].
    apply append_inj_length in E as [Ed _]; [|congruence].
    destruct t as [y m d], t' as [y' m' d']. cbn [Year Month Day] in *.
    f_equal; congruence.
Qed.

End StoredDate.

(** * The S3 storage *)

Section SplitFacts.

Import GoStrings.

Lemma byte_inj c c' : byte c = byte c' -> c = c'.
Proof.
  unfold byte. intros H. apply N2Z.inj in H.
  rewrite <- (ascii_N_embedding c), <- (ascii_N_embedding c'). now rewrite H.
Qed.

Lemma HasPrefix_append prefix s : HasPrefix (prefix ++ s) prefix = true.
Proof.
  induction prefix as [|p prefix IH]; norm_append; cbn [HasPrefix]; [reflexivity|].
  now rewrite Z.eqb_refl, IH.
Qed.

Lemma HasPrefix_true s prefix :
  HasPrefix s prefix = true -> s = prefix ++ slice_from (String.length prefix) s.
Proof.
  revert s. induction prefix as [|p prefix IH]; intros s; cbn [HasPrefix]; [reflexivity|].
  destruct s as [|c s]; [discriminate|].
  intros [Hc Hs]%andb_true_iff. apply Z.eqb_eq, byte_inj in Hc as ->.
  norm_append. cbn [String.length slice_from]. now rewrite <- IH.
Qed.

Lemma TrimPrefix_append prefix s : TrimPrefix (prefix ++ s) prefix = s.
Proof. unfold TrimPrefix. rewrite HasPrefix_append. apply slice_app. Qed.

(** The first "/" of a string, when it has one: the string is cut there,
    and the part before has none. *)
Lemma IndexByte_slash s :
  match IndexByte s "/" with
  | None => no_slash s = true
  | Some m =>
      s = slice_to m s ++ String "/" (slice_from (S m) s) /\ no_slash (slice_to m s) = true
  end.
Proof.
  induction s as [|c s IH]; cbn [IndexByte no_slash]; [reflexivity|].
  change (byte "/") with 47. destruct (byte c =? 47) eqn:Hc.
  - apply Z.eqb_eq in Hc. assert (c = "/"%char) as -> by now apply byte_inj.
    cbn. now destruct s.
  - destruct (IndexByte s "/") as [m|]; cbn [option_map negb andb].
    + destruct IH as [E Hn].
      change (slice_from (S (S m)) (String c s)) with (slice_from (S m) s).
      cbn [slice_to no_slash]. rewrite Hc, Hn. norm_append. now rewrite <- E.
    + exact IH.
Qed.

Lemma IndexByte_append a b :
  no_slash a = true -> IndexByte (a ++ String "/" b) "/" = Some (String.length a).
Proof.
  induction a as [|c a IH]; norm_append; cbn [IndexByte no_slash String.length];
    [reflexivity|].
  change (byte "/") with 47. intros [Hc Ha]%andb_true_iff.
  apply negb_true_iff in Hc. rewrite Hc, IH by exact Ha. reflexivity.
Qed.

(** The part before the first "/" of a string is determined by the
    string. *)
Lemma split_first_slash a b c d :
  a ++ String "/" b = c ++ String "/" d ->
  no_slash a = true -> no_slash c = true -> a = c /\ b = d.
Proof.
  intros E Ha Hc. pose proof (IndexByte_append a b Ha) as H1.
  rewrite E, (IndexByte_append c d Hc) in H1. injection H1 as Hl.
  apply append_inj_length in E as [-> E]; [|now symmetry]. now injection E as ->.
Qed.

Lemma SplitN_slash_2 s :
  SplitN s "/" 2 =
    match IndexByte s "/" with
    | None => [s]
    | Some m => [slice_to m s; slice_from (S m) s]
    end.
Proof.
  unfold SplitN. cbn [Nat.eqb]. destruct s as [|c s]; [reflexivity|].
  destruct (Nat.ltb_spec (String.length (String c s) + 1) 2) as [H|_];
    [cbn [String.length] in H; lia|].
  cbn [Nat.sub genSplit]. destruct (IndexByte (String c s) "/"); reflexivity.
Qed.

End SplitFacts.

Section S3StorageFacts.

Import summaries.

(** A path is read as a bucket and a key when, after the scheme "s3://"
    is taken off once, it is a non-empty bucket without "/", one "/" and a
    non-empty key. *)
Lemma parsePath_inr path bucket key :
  parsePath path = inr (bucket, key) <->
  bucket <> "" /\ key <> "" /\ no_slash bucket = true /\
  GoStrings.TrimPrefix path "s3://" = bucket ++ "/" ++ key.
Proof.
  unfold parsePath. rewrite SplitN_slash_2.
  pose proof (IndexByte_slash (GoStrings.TrimPrefix path "s3://")) as Hi.
  destruct (String.eqb_spec path "") as [->|Hne].
  { split; [discriminate|]. intros (_ & _ & _ & E). cbn in E. destruct bucket; discriminate. }
  norm_append. destruct (GoStrings.IndexByte _ "/") as [m|].
  - destruct Hi as [E Hn].
    remember (slice_to m (GoStrings.TrimPrefix path "s3://")) as part0 eqn:E0.
    remember (slice_from (S m) (GoStrings.TrimPrefix path "s3://")) as part1 eqn:E1.
    clear E0 E1. split.
    + destruct (String.eqb_spec part0 ""); [discriminate|].
      destruct (String.eqb_spec part1 ""); [discriminate|].
      intros [= <- <-]. auto.
    + intros (Hb & Hk & Hnb & E'). rewrite E' in E.
      apply split_first_slash in E as [<- <-]; auto.
      destruct (String.eqb_spec bucket ""); [contradiction|].
      destruct (String.eqb_spec key ""); [contradiction|]. reflexivity.
  - split; [discriminate|]. intros (_ & _ & _ & E'). rewrite E' in Hi.
    now rewrite no_slash_app_slash in Hi.
Qed.

(** X14.  What [parsePath] accepts: the paths that, after the scheme
    "s3://" is taken off once when it is there, are a non-empty bucket
    without "/", one "/", and a non-empty key; the key is all that follows
    the first "/", further "/" included. *)
Theorem parsePath_accepts path bucket key :
  parsePath path = inr (bucket, key) <->
  bucket <> "" /\ key <> "" /\ no_slash bucket = true /\
  GoStrings.TrimPrefix path "s3://" = bucket ++ "/" ++ key.
Proof. apply parsePath_inr. Qed.

Lemma TrimPrefix_bare bucket rest :
  no_slash bucket = true -> bucket <> "s3:" ->
  GoStrings.TrimPrefix (bucket ++ String "/" rest) "s3://" = bucket ++ String "/" rest.
Proof.
  intros Hn Hb. unfold GoStrings.TrimPrefix.
  destruct (GoStrings.HasPrefix _ "s3://") eqn:Hp; [|reflexivity].
  apply HasPrefix_true in Hp.
  assert (Hp' : bucket ++ String "/" rest
                = "s3:" ++ String "/" (String "/" (slice_from 5 (bucket ++ String "/" rest))))
    by exact Hp.
  apply split_first_slash in Hp' as [-> _]; [contradiction|exact Hn|reflexivity].
Qed.

(** X15.  The path that the processor writes for a bucket and a key,
    "s3://bucket/key", is read back as that bucket and that key, for a
    non-empty bucket without "/" and a non-empty key.  The form without the
    scheme, "bucket/key", is read back in the same way unless the bucket is
    "s3:": "s3:" followed by "/" and a key that starts with "/" is the
    scheme. *)
Theorem parsePath_round_trip bucket key :
  bucket <> "" -> no_slash bucket = true -> key <> "" ->
  parsePath ("s3://" ++ bucket ++ "/" ++ key) = inr (bucket, key) /\
  (bucket <> "s3:" -> parsePath (bucket ++ "/" ++ key) = inr (bucket, key)).
Proof.
  intros Hb Hn Hk. split.
  - apply parsePath_inr. repeat split; auto; apply TrimPrefix_append.
  - intros Hs. apply parsePath_inr. repeat split; auto; norm_append;
      now apply TrimPrefix_bare.
Qed.

Section WithClient.

Variable Map_unicode_ToLower : string -> string.
Variable Reader : Type.
Variable S3Client : Type.
Variable GetObject : S3Client -> string -> string -> S3Client * option Reader.
Variable GetObjectTagging : S3Client -> string -> string -> S3Client * option (list AwsS3.Tag).

Local Abbreviation S3World := (S3World S3Client).
Local Abbreviation tag_step := (tag_step Map_unicode_ToLower).
Local Abbreviation last_value := (last_value Map_unicode_ToLower).
Local Abbreviation getFileMetadata :=
  (getFileMetadata Map_unicode_ToLower S3Client GetObjectTagging).
Local Abbreviation Get :=
  (Get Map_unicode_ToLower Reader S3Client GetObject GetObjectTagging).

Lemma last_value_snoc names TagSet t :
  last_value names (TagSet ++ [t]) =
    if tag_named Map_unicode_ToLower names t then default "" (AwsS3.Value t)
    else last_value names TagSet.
Proof.
  unfold last_value. rewrite rev_app_distr. cbn [rev app List.find].
  now destruct (tag_named Map_unicode_ToLower names t).
Qed.

(** The loop over the tags keeps, for the account id and for the email,
    the value of the last tag named so. *)
Lemma tag_step_last_value TagSet :
  fold_left tag_step TagSet ("", "")
    = (last_value accountID_names TagSet, last_value accountEmail_names TagSet).
Proof.
  induction TagSet as [|t TagSet IH] using rev_ind; [reflexivity|].
  rewrite fold_left_app, IH, !last_value_snoc. cbn [fold_left].
  unfold summaries.tag_step, tag_named, accountID_names, accountEmail_names.
  destruct (AwsS3.Key t) as [tagKey|], (AwsS3.Value t) as [tagValue|]; try reflexivity.
  cbn [existsb default from_option id]. rewrite !orb_false_r.
  set (lowered := GoStrings.ToLower Map_unicode_ToLower tagKey).
  destruct (String.eqb_spec lowered "accountid") as [->|]; [reflexivity|].
  destruct (String.eqb_spec lowered "account_id") as [->|]; [reflexivity|].
  cbn [orb].
  destruct (String.eqb lowered "accountemail"), (String.eqb lowered "account_email"),
    (String.eqb lowered "email"); reflexivity.
Qed.

Lemma toLowerASCII_id s : GoStrings.hasUpper s = false -> GoStrings.toLowerASCII s = s.
Proof.
  unfold GoStrings.hasUpper. induction s as [|c s IH]; [reflexivity|].
  cbn [list_ascii_of_string existsb GoStrings.toLowerASCII].
  intros [Hc Hs]%orb_false_iff. unfold GoStrings.toLowerByte. now rewrite Hc, IH.
Qed.

(** X16.  The metadata of a file are read off its tags by name, whatever
    the case of the letters of the name (for a name in ASCII, byte by byte):
    the account id is the value of the last tag named accountid or
    account_id, the email that of the last tag named accountemail,
    account_email or email; tags without a key or a value are passed over.
    [getFileMetadata] succeeds exactly when the tags can be fetched and both
    values are not empty. *)
Theorem getFileMetadata_last_tag bucket key (w w' : S3World) accountID accountEmail :
  (getFileMetadata bucket key w = (w', inr (accountID, accountEmail)) <->
   exists TagSet,
     callGetObjectTagging S3Client GetObjectTagging bucket key w = (w', Some TagSet) /\
     accountID = last_value accountID_names TagSet /\
     accountEmail = last_value accountEmail_names TagSet /\
     accountID <> "" /\ accountEmail <> "") /\
  (forall tagKey,
     GoStrings.isASCII tagKey = true ->
     GoStrings.ToLower Map_unicode_ToLower tagKey = GoStrings.toLowerASCII tagKey).
Proof.
  split.
  - unfold summaries.getFileMetadata.
    destruct (callGetObjectTagging _ _ _ _ _) as [w1 [TagSet|]].
    + rewrite tag_step_last_value.
      destruct (String.eqb_spec (last_value accountID_names TagSet) "") as [E1|N1]; cbn [orb].
      * split; [discriminate|]. intros (T & [= <- <-] & -> & _ & H & _). contradiction.
      * destruct (String.eqb_spec (last_value accountEmail_names TagSet) "") as [E2|N2].
        -- split; [discriminate|]. intros (T & [= <- <-] & _ & -> & _ & H). contradiction.
        -- split.
           ++ intros [= <- <- <-]. exists TagSet. auto.
           ++ intros (T & [= <- <-] & -> & -> & _). reflexivity.
    + split; [discriminate|]. intros (T & [=] & _).
  - intros tagKey Ha. unfold GoStrings.ToLower. rewrite Ha.
    destruct (GoStrings.hasUpper tagKey) eqn:Hu; [reflexivity|].
    symmetry. now apply toLowerASCII_id.
Qed.

Lemma callGetObject_calls bucket key (w w' : S3World) output :
  callGetObject Reader S3Client GetObject bucket key w = (w', output) ->
  s3calls _ w' = (s3calls _ w ++ [AwsS3.GetObject bucket key])%list.
Proof.
  unfold callGetObject. destruct (GetObject _ _ _). now intros [= <- _].
Qed.

Lemma callGetObjectTagging_calls bucket key (w w' : S3World) output :
  callGetObjectTagging S3Client GetObjectTagging bucket key w = (w', output) ->
  s3calls _ w' = (s3calls _ w ++ [AwsS3.GetObjectTagging bucket key])%list.
Proof.
  unfold callGetObjectTagging. destruct (GetObjectTagging _ _ _). now intros [= <- _].
Qed.

(** What [Get] does and returns, case by case. *)
Lemma Get_cases path (w w' : S3World) res :
  Get path w = (w', res) ->
  match res with
  | inl (InvalidS3Path path' e) => path' = path /\ parsePath path = inl e /\ w' = w
  | inl (GetObjectFailed bucket key) =>
      parsePath path = inr (bucket, key) /\
      s3calls _ w' = (s3calls _ w ++ [AwsS3.GetObject bucket key])%list
  | inl (GetTagsFailed bucket key) | inl (MissingRequiredTags bucket key _ _) =>
      parsePath path = inr (bucket, key) /\
      s3calls _ w' =
        (s3calls _ w ++ [AwsS3.GetObject bucket key; AwsS3.GetObjectTagging bucket key])%list
  | inr file =>
      exists bucket key,
        parsePath path = inr (bucket, key) /\
        s3calls _ w' =
          (s3calls _ w ++ [AwsS3.GetObject bucket key; AwsS3.GetObjectTagging bucket key])%list /\
        summary.Path file = "s3://" ++ bucket ++ "/" ++ key /\
        summary.AccountID file <> "" /\ summary.AccountEmail file <> ""
  end.
Proof.
  unfold summaries.Get. destruct (parsePath path) as [e|[bucket key]] eqn:Ep.
  { intros [= <- <-]. auto. }
  destruct (callGetObject _ _ _ _ _ _) as [w1 [Body|]] eqn:E1;
    apply callGetObject_calls in E1; [|intros [= <- <-]; auto].
  unfold summaries.getFileMetadata.
  destruct (callGetObjectTagging _ _ _ _ _) as [w2 [TagSet|]] eqn:E2;
    apply callGetObjectTagging_calls in E2; rewrite E1, <- app_assoc in E2; cbn [app] in E2;
    [|intros [= <- <-]; auto].
  destruct (fold_left _ _ _) as [accountID accountEmail].
  destruct (String.eqb_spec accountID "") as [|N1]; cbn [orb]; [intros [= <- <-]; auto|].
  destruct (String.eqb_spec accountEmail "") as [|N2]; intros [= <- <-]; [auto|].
  exists bucket, key. cbn. auto.
Qed.

(** X17.  [Get] makes no request to S3 for a path it cannot read, and asks
    for the object before it asks for its tags.  A file that it returns has
    its path in the form "s3://bucket/key", whichever form the path given
    had, and an account id and an email that are not empty. *)
Theorem Get_outcome path (w w' : S3World) res :
  Get path w = (w', res) ->
  (parsePath path = inl PathIsEmpty \/ parsePath path = inl PathMalformed -> w' = w) /\
  (exists requests,
     s3calls _ w' = (s3calls _ w ++ requests)%list /\
     exists bucket key,
       requests = take (length requests)
                    [AwsS3.GetObject bucket key; AwsS3.GetObjectTagging bucket key]) /\
  (forall file,
     res = inr file ->
     summary.Path file = "s3://" ++ GoStrings.TrimPrefix path "s3://" /\
     parsePath (summary.Path file) = parsePath path /\
     summary.AccountID file <> "" /\ summary.AccountEmail file <> "").
Proof.
  intros HG. pose proof (Get_cases _ _ _ _ HG) as Hc. split; [|split].
  - intros He. unfold summaries.Get in HG.
    destruct (parsePath path) as [e|[bucket key]]; [now injection HG as <- _|].
    destruct He; discriminate.
  - destruct res as [[p e|bucket key|bucket key|bucket key a b]|file].
    + destruct Hc as (_ & _ & ->). exists []. rewrite app_nil_r. split; [reflexivity|].
      now exists "", "".
    + destruct Hc as [_ ->]. eexists. split; [reflexivity|]. now exists bucket, key.
    + destruct Hc as [_ ->]. eexists. split; [reflexivity|]. now exists bucket, key.
    + destruct Hc as [_ ->]. eexists. split; [reflexivity|]. now exists bucket, key.
    + destruct Hc as (bucket & key & _ & -> & _). eexists. split; [reflexivity|].
      now exists bucket, key.
  - intros file ->. destruct Hc as (bucket & key & Hp & _ & -> & Hid & Hem).
    pose proof Hp as (Hb & Hk & Hn & E)%parsePath_inr. rewrite E.
    repeat split; auto. rewrite Hp.
    apply parsePath_inr. repeat split; auto; apply TrimPrefix_append.
Qed.

End WithClient.

End S3StorageFacts.

(** * The processor *)

Section ProcessorFacts.

Import application.

Variable Reader : Type.
Variable W : Type.
Variables StorageError LoadError SaveError SendError LogError : Type.

Variable tp : DefaultProcessor Reader W StorageError LoadError SaveError SendError LogError.

Local Abbreviation World := (World Reader W StorageError LoadError SaveError SendError).
Local Abbreviation logger_Info := (logger_Info _ _ _ _ _ _ _ tp).
Local Abbreviation logger_Error := (logger_Error _ _ _ _ _ _ _ tp).
Local Abbreviation storage_Get := (storage_Get _ _ _ _ _ _ _ tp).
Local Abbreviation loader_LoadTransactions := (loader_LoadTransactions _ _ _ _ _ _ _ tp).
Local Abbreviation repository_Save := (repository_Save _ _ _ _ _ _ _ tp).
Local Abbreviation summarizer_CalculateSummary :=
  (summarizer_CalculateSummary _ _ _ _ _ _ _ tp).
Local Abbreviation mailer_Send := (mailer_Send _ _ _ _ _ _ _ tp).

Lemma logger_Info_trace message (w : World) :
  trace (logger_Info message w) = (trace w ++ [LoggerCall blend.Info message])%list.
Proof. unfold application.logger_Info. now destruct (blend.Logger.Info _ _ _). Qed.

Lemma logger_Error_trace message (w : World) :
  trace (logger_Error message w) = (trace w ++ [LoggerCall blend.Error message])%list.
Proof. unfold application.logger_Error. now destruct (blend.Logger.Error _ _ _). Qed.

Lemma storage_Get_trace ctx path (w w' : World) result :
  storage_Get ctx path w = (w', result) ->
  trace w' = (trace w ++ [GetCall path result])%list.
Proof. unfold application.storage_Get. destruct (storage _ _ _ _). now intros [= <- <-]. Qed.

Lemma loader_LoadTransactions_trace ctx reader (w w' : World) result :
  loader_LoadTransactions ctx reader w = (w', result) ->
  trace w' = (trace w ++ [LoadTransactionsCall reader result])%list.
Proof.
  unfold application.loader_LoadTransactions. destruct (loader _ _ _ _). now intros [= <- <-].
Qed.

Lemma repository_Save_trace ctx txns (w w' : World) result :
  repository_Save ctx txns w = (w', result) ->
  trace w' = (trace w ++ [SaveCall txns result])%list.
Proof.
  unfold application.repository_Save. destruct (repository _ _ _ _). now intros [= <- <-].
Qed.

Lemma summarizer_CalculateSummary_trace ctx txns (w w' : World) result :
  summarizer_CalculateSummary ctx txns w = (w', result) ->
  trace w' = (trace w ++ [CalculateSummaryCall txns result])%list.
Proof.
  unfold application.summarizer_CalculateSummary. destruct (summarizer _ _ _ _).
  now intros [= <- <-].
Qed.

Lemma mailer_Send_trace ctx to summary (w w' : World) result :
  mailer_Send ctx to summary w = (w', result) ->
  trace w' = (trace w ++ [SendCall to summary result])%list.
Proof.
  unfold application.mailer_Send. destruct (mailer _ _ _ _ _). now intros [= <- <-].
Qed.

Lemma elems_update_each {A} (f : A -> A) (s : slice A) :
  elems (update_each f s) = map f (elems s).
Proof. now destruct s. Qed.

(** The calls of one run of [ProcessFile], for each of its outcomes. *)
Lemma ProcessFile_steps ctx bucket key (w w' : World) res :
  ProcessFile tp ctx bucket key w = (w', res) ->
  exists steps,
    trace w' = (trace w ++ steps)%list /\
    match res with
    | inl (FailedToLoadFile err) =>
        steps =
          [LoggerCall blend.Info "Obtaining summary file content from %s...";
           GetCall ("s3://" ++ bucket ++ "/" ++ key) (inl err);
           LoggerCall blend.Error "Failed to load summary file: %v"]
    | inl (FailedToParseTransactions err) =>
        exists file partial,
          steps =
            [LoggerCall blend.Info "Obtaining summary file content from %s...";
             GetCall ("s3://" ++ bucket ++ "/" ++ key) (inr file);
             LoggerCall blend.Info "Successfully loaded summary file for account %s";
             LoggerCall blend.Info "Parsing transactions...";
             LoadTransactionsCall (summary.Content file) (partial, Some err);
             LoggerCall blend.Error "Failed to parse transactions: %v"]
    | inl (FailedToPersistTransactions err) =>
        exists file loaded,
          let txns := map (withAccountID (summary.AccountID file)) (elems loaded) in
          steps =
            [LoggerCall blend.Info "Obtaining summary file content from %s...";
             GetCall ("s3://" ++ bucket ++ "/" ++ key) (inr file);
             LoggerCall blend.Info "Successfully loaded summary file for account %s";
             LoggerCall blend.Info "Parsing transactions...";
             LoadTransactionsCall (summary.Content file) (loaded, None);
             LoggerCall blend.Info "Transactions parsed successfully (%d transactions)";
             LoggerCall blend.Info "Persisting transactions to repository...";
             SaveCall txns (Some err);
             LoggerCall blend.Error "Failed to persist transactions: %v"]
    | inl (FailedToSendEmail err) =>
        exists file loaded summaryData,
          let txns := map (withAccountID (summary.AccountID file)) (elems loaded) in
          summary.AccountEmail file <> "" /\
          steps =
            [LoggerCall blend.Info "Obtaining summary file content from %s...";
             GetCall ("s3://" ++ bucket ++ "/" ++ key) (inr file);
             LoggerCall blend.Info "Successfully loaded summary file for account %s";
             LoggerCall blend.Info "Parsing transactions...";
             LoadTransactionsCall (summary.Content file) (loaded, None);
             LoggerCall blend.Info "Transactions parsed successfully (%d transactions)";
             LoggerCall blend.Info "Persisting transactions to repository...";
             SaveCall txns None;
             LoggerCall blend.Info "Successfully persisted %d transactions";
             LoggerCall blend.Info "Calculating summary...";
             CalculateSummaryCall txns summaryData;
             LoggerCall blend.Info "Calculated summary for account: $(%s)";
             LoggerCall blend.Info "Sending summary email to %s...";
             SendCall (summary.AccountEmail file) summaryData (Some err);
             LoggerCall blend.Error "Failed to send email: %v"]
    | inr result =>
        exists file loaded summaryData,
          let txns := map (withAccountID (summary.AccountID file)) (elems loaded) in
          result =
            {| FilePath := summary.Path file;
               AccountID := summary.AccountID file;
               AccountEmail := summary.AccountEmail file;
               TransactionCount := Z.of_nat (length txns);
               Summary := summaryData |} /\
          steps =
            ([LoggerCall blend.Info "Obtaining summary file content from %s...";
              GetCall ("s3://" ++ bucket ++ "/" ++ key) (inr file);
              LoggerCall blend.Info "Successfully loaded summary file for account %s";
              LoggerCall blend.Info "Parsing transactions...";
              LoadTransactionsCall (summary.Content file) (loaded, None);
              LoggerCall blend.Info "Transactions parsed successfully (%d transactions)";
              LoggerCall blend.Info "Persisting transactions to repository...";
              SaveCall txns None;
              LoggerCall blend.Info "Successfully persisted %d transactions";
              LoggerCall blend.Info "Calculating summary...";
              CalculateSummaryCall txns summaryData;
              LoggerCall blend.Info "Calculated summary for account: $(%s)"]
             ++ (if String.eqb (summary.AccountEmail file) ""
                 then [LoggerCall blend.Info
                         "No account email provided; skipping email sending..."]
                 else [LoggerCall blend.Info "Sending summary email to %s...";
                       SendCall (summary.AccountEmail file) summaryData None;
                       LoggerCall blend.Info "Sent summary email to %s"])
             ++ [LoggerCall blend.Info "File %s processed successfully"])%list
    end.
Proof.
  unfold application.ProcessFile. intros H.
  repeat
    match type of H with
    | context [storage_Get ?c ?p ?x] =>
        let E := fresh "E" in
        destruct (storage_Get c p x) as [? [?|?]] eqn:E; apply storage_Get_trace in E
    | context [loader_LoadTransactions ?c ?r ?x] =>
        let E := fresh "E" in
        destruct (loader_LoadTransactions c r x) as [? [? [?|]]] eqn:E;
        apply loader_LoadTransactions_trace in E
    | context [repository_Save ?c ?t ?x] =>
        let E := fresh "E" in
        destruct (repository_Save c t x) as [? [?|]] eqn:E;
        apply repository_Save_trace in E
    | context [summarizer_CalculateSummary ?c ?t ?x] =>
        let E := fresh "E" in
        destruct (summarizer_CalculateSummary c t x) as [? ?] eqn:E;
        apply summarizer_CalculateSummary_trace in E
    | context [mailer_Send ?c ?t ?sm ?x] =>
        let E := fresh "E" in
        destruct (mailer_Send c t sm x) as [? [?|]] eqn:E;
        apply mailer_Send_trace in E
    | context [String.eqb ?a ""] => destruct (String.eqb_spec a ""); cbn [negb] in H
    end;
    injection H as <- <-;
    rewrite ?logger_Info_trace, ?logger_Error_trace in *.
  all: repeat match goal with E : trace _ = _ |- _ => rewrite E; clear E end.
  all: rewrite ?logger_Info_trace, ?logger_Error_trace, ?elems_update_each, <- ?app_assoc.
  all: cbn [app]; eexists; (split; [reflexivity|]).
  all: try (do 3 eexists; split; [reflexivity|]).
  all: try (destruct (String.eqb_spec (summary.AccountEmail s) "");
            first [reflexivity|congruence]).
  all: eauto 8.
Qed.

(** X18.  The pipeline is strict.  One run of [ProcessFile] calls its
    collaborators in the order storage, loader, repository, summarizer,
    mailer, each at most once, for the path "s3://bucket/key"; the first call
    that fails is the last call made, and its error is the error returned.
    The repository and the summarizer get the same transactions, those of
    the loader with the account id of the file on each; the email is sent
    after the transactions are saved, and only when the file has an address.
    The result reports the path, the account and the email of the file, the
    number of transactions and the summary. *)
Theorem ProcessFile_pipeline ctx bucket key (w w' : World) res :
  ProcessFile tp ctx bucket key w = (w', res) ->
  exists steps,
    trace w' = (trace w ++ steps)%list /\
    match res with
    | inl (FailedToLoadFile err) =>
        collaborator_calls steps = [GetCall ("s3://" ++ bucket ++ "/" ++ key) (inl err)]
    | inl (FailedToParseTransactions err) =>
        exists file partial,
          collaborator_calls steps =
            [GetCall ("s3://" ++ bucket ++ "/" ++ key) (inr file);
             LoadTransactionsCall (summary.Content file) (partial, Some err)]
    | inl (FailedToPersistTransactions err) =>
        exists file loaded,
          let txns := map (withAccountID (summary.AccountID file)) (elems loaded) in
          collaborator_calls steps =
            [GetCall ("s3://" ++ bucket ++ "/" ++ key) (inr file);
             LoadTransactionsCall (summary.Content file) (loaded, None);
             SaveCall txns (Some err)]
    | inl (FailedToSendEmail err) =>
        exists file loaded summaryData,
          let txns := map (withAccountID (summary.AccountID file)) (elems loaded) in
          summary.AccountEmail file <> "" /\
          collaborator_calls steps =
            [GetCall ("s3://" ++ bucket ++ "/" ++ key) (inr file);
             LoadTransactionsCall (summary.Content file) (loaded, None);
             SaveCall txns None;
             CalculateSummaryCall txns summaryData;
             SendCall (summary.AccountEmail file) summaryData (Some err)]
    | inr result =>
        exists file loaded summaryData,
          let txns := map (withAccountID (summary.AccountID file)) (elems loaded) in
          result =
            {| FilePath := summary.Path file;
               AccountID := summary.AccountID file;
               AccountEmail := summary.AccountEmail file;
               TransactionCount := Z.of_nat (length txns);
               Summary := summaryData |} /\
          collaborator_calls steps =
            ([GetCall ("s3://" ++ bucket ++ "/" ++ key) (inr file);
              LoadTransactionsCall (summary.Content file) (loaded, None);
              SaveCall txns None;
              CalculateSummaryCall txns summaryData]
             ++ (if String.eqb (summary.AccountEmail file) "" then []
                 else [SendCall (summary.AccountEmail file) summaryData None]))%list
    end.
Proof.
  intros (steps & Ht & Hs)%ProcessFile_steps. exists steps. split; [exact Ht|].
  destruct res as [[err|err|err|err]|result].
  - now subst steps.
  - destruct Hs as (file & partial & ->). now exists file, partial.
  - destruct Hs as (file & loaded & ->). now exists file, loaded.
  - destruct Hs as (file & loaded & summaryData & Hm & ->).
    now exists file, loaded, summaryData.
  - destruct Hs as (file & loaded & summaryData & -> & ->).
    exists file, loaded, summaryData. split; [reflexivity|].
    now destruct (String.eqb (summary.AccountEmail file) "").
Qed.

(** X19.  An error is always logged before it is returned: when
    [ProcessFile] returns an error, the last thing it did was to log one line
    at the level of errors, the only such line of the run; when it returns a
    result, it logged no line at that level. *)
Theorem ProcessFile_error_logged ctx bucket key (w w' : World) res :
  ProcessFile tp ctx bucket key w = (w', res) ->
  exists steps,
    trace w' = (trace w ++ steps)%list /\
    match res with
    | inl _ =>
        exists before message,
          steps = (before ++ [LoggerCall blend.Error message])%list /\
          error_lines before = []
    | inr _ => error_lines steps = []
    end.
Proof.
  intros (steps & Ht & Hs)%ProcessFile_steps. exists steps. split; [exact Ht|].
  destruct res as [[err|err|err|err]|result];
    [|destruct Hs as (file & partial & Hs)|destruct Hs as (file & loaded & Hs)
     |destruct Hs as (file & loaded & summaryData & Hm & Hs)
     |destruct Hs as (file & loaded & summaryData & _ & ->);
      now destruct (String.eqb (summary.AccountEmail file) "")];
    cbv zeta in Hs; subst steps;
    match goal with
    | |- exists before message, ?l = _ /\ _ =>
        exists (removelast l); cbn [removelast]; eexists; split; reflexivity
    end.
Qed.

End ProcessorFacts.

(** * The processor of the Lambda: the components together *)

Section WiredProcessor.

Import application.

Variable Map_unicode_ToLower : string -> string.
Variable S3Client : Type.
Variable GetObject : S3Client -> string -> string -> S3Client * option (list GoCsv.TextLine).
Variable GetObjectTagging : S3Client -> string -> string -> S3Client * option (list AwsS3.Tag).
Variable DynamoClient : Type.
Variable BatchWriteItem :
  DynamoClient -> gmap string (list transactions.WriteRequest)
  -> DynamoClient * transactions.BatchWriteItemResult.
Variable uuid_New : nat -> string.
Variable ParseFloat : string -> option float.
Variable now_year : Z.
Variable Outside : Type.
Variables SendError LogError : Type.
Variable smtp_Send : string -> summaries.Summary -> Outside -> Outside * option SendError.
Variable stdout_logger : blend.Logger.Logger Outside LogError.
Variable tableName : string.

Local Abbreviation Services := (main.Services S3Client DynamoClient Outside).
Local Abbreviation s3 := (main.s3 S3Client DynamoClient Outside).
Local Abbreviation dynamodb := (main.dynamodb S3Client DynamoClient Outside).
Local Abbreviation tp :=
  (main.processor Map_unicode_ToLower S3Client GetObject GetObjectTagging DynamoClient
     BatchWriteItem uuid_New ParseFloat now_year Outside SendError LogError smtp_Send
     stdout_logger tableName).
Local Abbreviation World :=
  (World (list GoCsv.TextLine) Services summaries.StorageError transactions.LoadError
     transactions.SaveError SendError).
Local Abbreviation Get :=
  (summaries.Get Map_unicode_ToLower (list GoCsv.TextLine) S3Client GetObject GetObjectTagging).
Local Abbreviation LoadTransactions :=
  (transactions.LoadTransactions ParseFloat (transactions.NewCSVTransactionLoader now_year)).
Local Abbreviation Save :=
  (transactions.Save DynamoClient BatchWriteItem uuid_New tableName).

Local Abbreviation logger_Info := (logger_Info _ _ _ _ _ _ _ tp).
Local Abbreviation logger_Error := (logger_Error _ _ _ _ _ _ _ tp).
Local Abbreviation storage_Get := (storage_Get _ _ _ _ _ _ _ tp).
Local Abbreviation loader_LoadTransactions := (loader_LoadTransactions _ _ _ _ _ _ _ tp).
Local Abbreviation repository_Save := (repository_Save _ _ _ _ _ _ _ tp).
Local Abbreviation summarizer_CalculateSummary :=
  (summarizer_CalculateSummary _ _ _ _ _ _ _ tp).
Local Abbreviation mailer_Send := (mailer_Send _ _ _ _ _ _ _ tp).

(** The logger only writes outside. *)
Lemma logger_Info_frame message (w : World) :
  s3 (services (logger_Info message w)) = s3 (services w) /\
  dynamodb (services (logger_Info message w)) = dynamodb (services w).
Proof.
  unfold application.logger_Info. cbn. unfold main.on_outside.
  now destruct (blend.Logger.Info _ _ _).
Qed.

Lemma logger_Error_frame message (w : World) :
  s3 (services (logger_Error message w)) = s3 (services w) /\
  dynamodb (services (logger_Error message w)) = dynamodb (services w).
Proof.
  unfold application.logger_Error. cbn. unfold main.on_outside.
  now destruct (blend.Logger.Error _ _ _).
Qed.

Lemma storage_Get_frame ctx path (w w' : World) result :
  storage_Get ctx path w = (w', result) ->
  Get path (s3 (services w)) = (s3 (services w'), result) /\
  dynamodb (services w') = dynamodb (services w).
Proof.
  unfold application.storage_Get. cbn. unfold main.storage.
  destruct (summaries.Get _ _ _ _ _ _ _). now intros [= <- <-].
Qed.

(** The loader of the processor returns what [LoadTransactions] returns,
    which never panics. *)
Lemma loader_LoadTransactions_frame ctx reader (w w' : World) result :
  loader_LoadTransactions ctx reader w = (w', result) ->
  LoadTransactions ctx reader = Returns result /\
  s3 (services w') = s3 (services w) /\ dynamodb (services w') = dynamodb (services w).
Proof.
  unfold application.loader_LoadTransactions. cbn. unfold main.loader.
  destruct (LoadTransactions_returns ParseFloat now_year ctx reader) as [results ->].
  now intros [= <- <-].
Qed.

Lemma repository_Save_frame ctx txns (w w' : World) result :
  repository_Save ctx txns w = (w', result) ->
  Save txns (dynamodb (services w)) = (dynamodb (services w'), result) /\
  s3 (services w') = s3 (services w).
Proof.
  unfold application.repository_Save. cbn. unfold main.repo.
  destruct (transactions.Save _ _ _ _ _ _). now intros [= <- <-].
Qed.

Lemma summarizer_CalculateSummary_frame ctx txns (w w' : World) result :
  summarizer_CalculateSummary ctx txns w = (w', result) ->
  result = summaries.CalculateSummary txns /\
  s3 (services w') = s3 (services w) /\ dynamodb (services w') = dynamodb (services w).
Proof. unfold application.summarizer_CalculateSummary. cbn. now intros [= <- <-]. Qed.

Lemma mailer_Send_frame ctx to summary (w w' : World) result :
  mailer_Send ctx to summary w = (w', result) ->
  s3 (services w') = s3 (services w) /\ dynamodb (services w') = dynamodb (services w).
Proof.
  unfold application.mailer_Send. cbn. unfold main.mailer, main.on_outside.
  destruct (smtp_Send _ _ _). now intros [= <- <-].
Qed.

(** One run of the processor, in terms of its components: what the
    storage returns for the path on the S3 service decides the rest. *)
Lemma processor_run ctx bucket key (w w' : World) res :
  ProcessFile tp ctx bucket key w = (w', res) ->
  exists got,
    Get ("s3://" ++ bucket ++ "/" ++ key) (s3 (services w)) = (s3 (services w'), got) /\
    match got with
    | inl err =>
        res = inl (FailedToLoadFile err) /\ dynamodb (services w') = dynamodb (services w)
    | inr file =>
        exists results,
          LoadTransactions ctx (summary.Content file) = Returns results /\
          match results with
          | (_, Some err) =>
              res = inl (FailedToParseTransactions err) /\
              dynamodb (services w') = dynamodb (services w)
          | (loaded, None) =>
              let txns := map (withAccountID (summary.AccountID file)) (elems loaded) in
              exists saved,
                Save txns (dynamodb (services w)) = (dynamodb (services w'), saved) /\
                match saved with
                | Some err => res = inl (FailedToPersistTransactions err)
                | None =>
                    res = inr {| FilePath := summary.Path file;
                                 AccountID := summary.AccountID file;
                                 AccountEmail := summary.AccountEmail file;
                                 TransactionCount := Z.of_nat (length txns);
                                 Summary := summaries.CalculateSummary txns |} \/
                    (summary.AccountEmail file <> "" /\
                     exists err, res = inl (FailedToSendEmail err))
                end
          end
    end.
Proof.
  unfold application.ProcessFile. intros H.
  repeat
    match type of H with
    | context [storage_Get ?c ?p ?x] =>
        let E := fresh "E" in
        destruct (storage_Get c p x) as [? [?|?]] eqn:E;
        apply storage_Get_frame in E as [? ?]
    | context [loader_LoadTransactions ?c ?r ?x] =>
        let E := fresh "E" in
        destruct (loader_LoadTransactions c r x) as [? [? [?|]]] eqn:E;
        apply loader_LoadTransactions_frame in E as (? & ? & ?)
    | context [repository_Save ?c ?t ?x] =>
        let E := fresh "E" in
        destruct (repository_Save c t x) as [? [?|]] eqn:E;
        apply repository_Save_frame in E as [? ?]
    | context [summarizer_CalculateSummary ?c ?t ?x] =>
        let E := fresh "E" in
        destruct (summarizer_CalculateSummary c t x) as [? ?] eqn:E;
        apply summarizer_CalculateSummary_frame in E as (? & ? & ?)
    | context [mailer_Send ?c ?t ?sm ?x] =>
        let E := fresh "E" in
        destruct (mailer_Send c t sm x) as [? [?|]] eqn:E;
        apply mailer_Send_frame in E as [? ?]
    | context [String.eqb ?a ""] => destruct (String.eqb_spec a ""); cbn [negb] in H
    end;
    injection H as <- <-.
  all: repeat
    match goal with
    | H : context [services (logger_Info ?m ?x)] |- _ =>
        let F := fresh in let F' := fresh in
        pose proof (logger_Info_frame m x) as [F F']; progress rewrite ?F, ?F' in H; clear F F'
    | H : context [services (logger_Error ?m ?x)] |- _ =>
        let F := fresh in let F' := fresh in
        pose proof (logger_Error_frame m x) as [F F']; progress rewrite ?F, ?F' in H; clear F F'
    | |- context [services (logger_Info ?m ?x)] =>
        progress rewrite ?(proj1 (logger_Info_frame m x)), ?(proj2 (logger_Info_frame m x))
    | |- context [services (logger_Error ?m ?x)] =>
        progress rewrite ?(proj1 (logger_Error_frame m x)), ?(proj2 (logger_Error_frame m x))
    end.
  all: match goal with HG : Get _ _ = (_, ?g) |- _ => exists g end.
  all: split; [congruence|].
  all: cbv zeta.
  all: try match goal with
       | HL : LoadTransactions _ _ = Returns ?r |- _ =>
           exists r; split; [exact HL|]; clear HL
       end.
  all: try (split; [reflexivity | congruence]).
  all: rewrite ?elems_update_each in *.
  all: match goal with
       | HS : Save ?t ?d = (?d', ?r) |- _ =>
           exists r; split;
           [replace (dynamodb (services w)) with d by congruence;
            rewrite HS; f_equal; congruence|]
       end.
  all: subst; eauto.
Qed.

Local Abbreviation loader := (transactions.NewCSVTransactionLoader now_year).
Local Abbreviation first_invalid := (first_invalid ParseFloat loader).
Local Abbreviation parsed := (parsed ParseFloat loader).

(** A load without an error: the input has a header, the loader accepts
    every data line, and the transactions are those of the data lines. *)
Lemma LoadTransactions_None ctx reader loaded :
  LoadTransactions ctx reader = Returns (loaded, None) ->
  exists header data,
    GoCsv.records reader = GoCsv.Fields header :: data /\ first_invalid data = None /\
    loaded = Slice (parsed data) /\ length (parsed data) = length data.
Proof.
  intros HL.
  assert (exists txns, loaded = Slice txns /\ length (GoCsv.records reader) = S (length txns))
    as (txns & -> & Hlen).
  { revert HL. unfold transactions.LoadTransactions. destruct (ctx O); [discriminate|].
    pose proof (reads_length (GoCsv.records reader)
                  (transactions.FieldsPerRecord (transactions.csvConfig loader))) as Hl.
    destruct (GoCsv.reads _ (GoCsv.records reader)) as [|[err|header] csvReader];
      [discriminate..|].
    destruct (transactions.makeslice_panics _); [discriminate|].
    destruct (loop_all_or_nothing ParseFloat loader ctx csvReader 1 [] 2)
      as [(txns & -> & Ht)|(e & ->)]; [|discriminate].
    intros [= <-]. exists txns. split; [reflexivity|]. cbn in *. lia. }
  apply LoadTransactions_parsed in HL as (header & data & E & _ & Hv & ->).
  exists header, data. rewrite E in Hlen. cbn in Hlen. repeat split; auto. lia.
Qed.

(** X20.  A file with an invalid data line leaves nothing behind: the
    processor returns the error of the loader, DynamoDB is not called and
    no identifier is generated, and no email is sent, whatever the lines
    before the invalid one. *)
Theorem processor_invalid_file ctx bucket key (w w' : World) res s3' file first data k :
  ProcessFile tp ctx bucket key w = (w', res) ->
  Get ("s3://" ++ bucket ++ "/" ++ key) (s3 (services w)) = (s3', inr file) ->
  GoCsv.records (summary.Content file) = first :: data ->
  first_invalid data = Some k ->
  (exists err, res = inl (FailedToParseTransactions err)) /\
  dynamodb (services w') = dynamodb (services w) /\
  exists steps,
    trace w' = (trace w ++ steps)%list /\
    forall txns saved to summaryData sent,
      ~ In (SaveCall txns saved) steps /\ ~ In (SendCall to summaryData sent) steps.
Proof.
  intros HP HG Hc Hk. pose proof (processor_run _ _ _ _ _ _ HP) as (got & HG' & Hr).
  rewrite HG in HG'. injection HG' as _ <-.
  destruct Hr as ([loaded [err|]] & HL & Hr).
  - destruct Hr as [-> Hd]. split; [eauto|]. split; [exact Hd|].
    apply ProcessFile_steps in HP as (steps & Ht & file' & partial & ->).
    eexists. split; [exact Ht|]. intros txns saved to summaryData sent.
    split; intros Hin; cbn in Hin; intuition discriminate.
  - apply LoadTransactions_None in HL as (header & data' & E & Hv & _).
    rewrite Hc in E. injection E as -> <-. congruence.
Qed.

(** X21.  What a result tells, with the storage on S3 behind the
    processor: the path is the one asked for, the account id and the email
    are not empty, the email was sent with the summary of the result, and
    the number of transactions is both the number of lines of the file
    after the first and the sum of the counts of the summary. *)
Theorem processor_result ctx bucket key (w w' : World) result :
  ProcessFile tp ctx bucket key w = (w', inr result) ->
  FilePath result = "s3://" ++ bucket ++ "/" ++ key /\
  AccountID result <> "" /\ AccountEmail result <> "" /\
  count_all (summaries.YearlyData (Summary result)) = TransactionCount result /\
  (exists file header data,
     Get ("s3://" ++ bucket ++ "/" ++ key) (s3 (services w)) = (s3 (services w'), inr file) /\
     GoCsv.records (summary.Content file) = GoCsv.Fields header :: data /\
     TransactionCount result = Z.of_nat (length data)) /\
  exists before after,
    trace w' =
      (trace w ++ before ++ SendCall (AccountEmail result) (Summary result) None :: after)%list.
Proof.
  intros HP. pose proof (processor_run _ _ _ _ _ _ HP) as (got & HG & Hr).
  pose proof (Get_cases _ _ _ _ _ _ _ _ _ HG) as Hc.
  destruct got as [err|file]; [destruct Hr; discriminate|].
  destruct Hc as (bucket' & key' & Hp & _ & Hpath & Hid & Hem).
  destruct Hr as ([loaded [err|]] & HL & Hr); [destruct Hr; discriminate|].
  apply LoadTransactions_None in HL as (header & data & Hcontent & _ & -> & Hlen).
  cbv zeta in Hr. destruct Hr as ([err|] & _ & Hr); [discriminate|].
  destruct Hr as [[= ->]|(_ & err & [=])].
  cbn [FilePath AccountID AccountEmail TransactionCount Summary elems].
  rewrite length_map, Hlen.
  split; [|split; [exact Hid|split; [exact Hem|split; [|split]]]].
  - rewrite Hpath. apply parsePath_inr in Hp as (_ & _ & _ & E).
    rewrite TrimPrefix_append in E. now rewrite <- E.
  - unfold summaries.CalculateSummary.
    destruct (map _ (parsed data)) as [|txn txns] eqn:Em.
    + apply (f_equal (@length _)) in Em. rewrite length_map, Hlen in Em. now rewrite Em.
    + cbn [length Nat.eqb summaries.YearlyData]. unfold summaries.calculateYearlyData.
      rewrite count_all_groups, len_sum_groups, <- Em, length_map, Hlen. reflexivity.
  - exists file, header, data. auto.
  - apply ProcessFile_steps in HP as (steps & Ht & file' & loaded & summaryData & E & ->).
    injection E as _ _ Ee _ Es. rewrite Es, Ee.
    destruct (String.eqb_spec (summary.AccountEmail file') "") as [E|_]; [congruence|].
    rewrite Ht. eexists (_ :: _ :: _ :: _ :: _ :: _ :: _ :: _ :: _ :: _ :: _ :: _ :: [_]), _.
    reflexivity.
Qed.

(** X22.  When the processor returns a result, or fails to send the
    email, every transaction of the file is in DynamoDB and stays there: the
    calls to DynamoDB of the run are those of the batches of 25 of the data
    lines, in order, each submitted under the account id of the file and
    acknowledged in full.  A failure of the email undoes nothing. *)
Theorem processor_writes ctx bucket key (w w' : World) res :
  ProcessFile tp ctx bucket key w = (w', res) ->
  (exists result, res = inr result) \/ (exists err, res = inl (FailedToSendEmail err)) ->
  exists file header data batches,
    Get ("s3://" ++ bucket ++ "/" ++ key) (s3 (services w)) = (s3 (services w'), inr file) /\
    GoCsv.records (summary.Content file) = GoCsv.Fields header :: data /\
    let txns := map (withAccountID (summary.AccountID file)) (parsed data) in
    length txns = length data /\
    Forall (fun txn => transactions.AccountID txn = summary.AccountID file) txns /\
    transactions.calls _ (dynamodb (services w')) =
      (transactions.calls _ (dynamodb (services w)) ++ concat batches)%list /\
    Forall2 (fun batch_calls batch =>
               exists first final,
                 head batch_calls = Some first /\ submits tableName first batch /\
                 last batch_calls = Some final /\
                 transactions.result final = transactions.BatchWriteItemOutput ∅)
      batches (chunks 25 txns).
Proof.
  intros HP Hres. pose proof (processor_run _ _ _ _ _ _ HP) as (got & HG & Hr).
  destruct got as [err|file]; [destruct Hr as [-> _], Hres as [[? [=]]|[? [=]]]|].
  destruct Hr as ([loaded [err|]] & HL & Hr);
    [destruct Hr as [-> _], Hres as [[? [=]]|[? [=]]]|].
  apply LoadTransactions_None in HL as (header & data & Hcontent & _ & -> & Hlen).
  cbv zeta in Hr. cbn [elems] in Hr. destruct Hr as ([err|] & HS & Hr);
    [subst res; destruct Hres as [[? [=]]|[? [=]]]|].
  apply Save_trace in HS as (batches & Hcalls & Ht).
  exists file, header, data, batches. cbv zeta.
  split; [exact HG|split; [exact Hcontent|split; [|split; [|split; [exact Hcalls|]]]]].
  - now rewrite length_map.
  - apply Forall_map, Forall_forall. reflexivity.
  - apply save_trace_success in Ht. rewrite drop_0 in Ht.
    eapply Forall2_impl; [exact Ht|]. intros batch_calls batch. apply batch_trace_completed.
Qed.

End WiredProcessor.

(** * The handler *)

Section HandlerFacts.

Import main.

Variable W : Type.
Variables ProcessError ProcessingResult LogError InitError : Type.
Variable buildProcessor :
  W -> W * (InitError + TransactionProcessor W ProcessError ProcessingResult).
Variable initializeLogger : blend.Logger.Logger W LogError.
Variable WithTimeout : Context -> Z -> Context.
Variable time_Now : W -> Z.
Variable Duration_String : Z -> string.

Local Abbreviation World := (World W ProcessError ProcessingResult InitError).
Local Abbreviation Call := (Call ProcessError ProcessingResult).
Local Abbreviation logger_log := (logger_log W ProcessError ProcessingResult LogError InitError initializeLogger).
Local Abbreviation logger_Info := (logger_Info W ProcessError ProcessingResult LogError InitError initializeLogger).
Local Abbreviation logger_Warn := (logger_Warn W ProcessError ProcessingResult LogError InitError initializeLogger).
Local Abbreviation logger_Error := (logger_Error W ProcessError ProcessingResult LogError InitError initializeLogger).
Local Abbreviation processRecord :=
  (processRecord W ProcessError ProcessingResult LogError InitError initializeLogger WithTimeout).
Local Abbreviation Handler_loop :=
  (Handler_loop W ProcessError ProcessingResult LogError InitError initializeLogger WithTimeout).
Local Abbreviation generateSummary :=
  (generateSummary W ProcessError ProcessingResult LogError InitError initializeLogger Duration_String).
Local Abbreviation summary_text := (summary_text Duration_String).
Local Abbreviation getProcessor :=
  (getProcessor W ProcessError ProcessingResult InitError buildProcessor).
Local Abbreviation Handler :=
  (Handler W ProcessError ProcessingResult LogError InitError buildProcessor initializeLogger
     WithTimeout time_Now Duration_String).

Lemma logger_log_run level method message (w : World) :
  trace (logger_log level method message w) = (trace w ++ [LoggerCall level message])%list /\
  processorOnce (logger_log level method message w) = processorOnce w.
Proof. unfold main.logger_log. now destruct (method _ _ _). Qed.

Lemma handler_logger_Info message (w : World) :
  trace (logger_Info message w) = (trace w ++ [LoggerCall blend.Info message])%list /\
  processorOnce (logger_Info message w) = processorOnce w.
Proof. apply logger_log_run. Qed.

Lemma handler_logger_Warn message (w : World) :
  trace (logger_Warn message w) = (trace w ++ [LoggerCall blend.Warn message])%list /\
  processorOnce (logger_Warn message w) = processorOnce w.
Proof. apply logger_log_run. Qed.

Lemma handler_logger_Error message (w : World) :
  trace (logger_Error message w) = (trace w ++ [LoggerCall blend.Error message])%list /\
  processorOnce (logger_Error message w) = processorOnce w.
Proof. apply logger_log_run. Qed.

Lemma processed_app (a b : list Call) : processed (a ++ b) = (processed a ++ processed b)%list.
Proof.
  induction a as [|[| |] a IH]; cbn [app processed]; [reflexivity|exact IH..|].
  now rewrite IH.
Qed.

Lemma lines_app level message (a b : list Call) :
  lines level message (a ++ b) = lines level message a + lines level message b.
Proof. unfold lines. rewrite List.filter_app, length_app. lia. Qed.

Lemma successes_app (a b : list Call) : successes (a ++ b) = successes a + successes b.
Proof. unfold successes. rewrite processed_app, List.filter_app, length_app. lia. Qed.

Lemma builds_app (a b : list Call) : builds (a ++ b) = (builds a + builds b)%nat.
Proof. unfold builds. now rewrite List.filter_app, length_app. Qed.

(** One record: what [processRecord] calls and what it makes of the
    stats. *)
Lemma processRecord_run ctx proc i rec stats (w w' : World) stats' err :
  processRecord ctx proc i rec stats w = (w', (stats', err)) ->
  processorOnce w' = processorOnce w /\
  match validateS3Record rec with
  | inl e =>
      trace w' =
        (trace w ++ [LoggerCall blend.Error "Failed to validate S3 record %d: %v"])%list /\
      stats' = AddError ProcessError stats i "" "" (ValidationFailed e) /\
      err = Some (ValidationFailed e)
  | inr (bucket, key) =>
      exists result,
        trace w' =
          (trace w ++
           [LoggerCall blend.Info "Processing file from S3: s3://%s/%s...";
            ProcessFileCall (WithTimeout ctx ProcessingTimeout) bucket key result;
            match result with
            | inl _ => LoggerCall blend.Error "Failed to process file s3://%s/%s: %v"
            | inr _ => LoggerCall blend.Info "Successfully processed file s3://%s/%s"
            end])%list /\
        match result with
        | inl e =>
            stats' = AddError ProcessError stats i bucket key (ProcessingFailed e) /\
            err = Some (ProcessingFailed e)
        | inr _ => stats' = stats /\ err = None
        end
  end.
Proof.
  unfold main.processRecord. destruct (validateS3Record rec) as [e|[bucket key]].
  - intros [= <- <- <-].
    destruct (handler_logger_Error "Failed to validate S3 record %d: %v" w) as [-> ->]. auto.
  - destruct (handler_logger_Info "Processing file from S3: s3://%s/%s..." w) as [Ht Hp].
    remember (logger_Info "Processing file from S3: s3://%s/%s..." w) as w1 eqn:E1. clear E1.
    unfold main.proc_ProcessFile.
    destruct (proc (WithTimeout ctx ProcessingTimeout) bucket key (services w1))
      as [s [e|result]]; cbv zeta; intros [= <- <- <-].
    + match goal with |- context [logger_Error ?msg ?x] =>
        destruct (handler_logger_Error msg x) as [-> ->] end.
      cbn [trace processorOnce]. rewrite Ht, Hp, <- !app_assoc. split; [reflexivity|].
      exists (inl e). auto.
    + match goal with |- context [logger_Info ?msg ?x] =>
        destruct (handler_logger_Info msg x) as [-> ->] end.
      cbn [trace processorOnce]. rewrite Ht, Hp, <- !app_assoc. split; [reflexivity|].
      exists (inr result). auto.
Qed.

(** The loop over the records: what it calls and what it counts. *)
Lemma Handler_loop_run ctx proc : forall records i stats (w w' : World) stats',
  Handler_loop ctx proc i records stats w = (w', stats') ->
  exists steps,
    trace w' = (trace w ++ steps)%list /\
    processorOnce w' = processorOnce w /\
    map fst (processed steps) =
      map (fun '(bucket, key) => (WithTimeout ctx ProcessingTimeout, bucket, key))
        (valid_records records) /\
    builds steps = 0%nat /\
    lines blend.Error "Error details: %v" steps = 0 /\
    lines blend.Warn "Processing completed with %d errors" steps = 0 /\
    TotalRecords stats' = TotalRecords stats /\
    SuccessCount stats' = SuccessCount stats + successes steps /\
    FailureCount stats' = FailureCount stats + (Z.of_nat (length records) - successes steps) /\
    Z.of_nat (length (Errors stats')) =
      Z.of_nat (length (Errors stats)) + (Z.of_nat (length records) - successes steps).
Proof.
  induction records as [|rec records IH]; intros i stats w w' stats'; cbn [main.Handler_loop].
  - intros [= <- <-]. exists []. rewrite app_nil_r. unfold successes, lines, builds. cbn.
    repeat split; lia.
  - destruct (processRecord ctx proc i rec stats w) as [w1 [stats1 err]] eqn:E.
    apply processRecord_run in E as [Hp Hr]. cbn [valid_records].
    destruct (validateS3Record rec) as [e|[bucket key]].
    + destruct Hr as (Ht & -> & ->). intros (steps & Ht' & Hp' & Hv & Hb & He & Hw & H1 & H2 & H3 & H4)%IH.
      eexists. rewrite Ht', Ht, <- app_assoc. split; [reflexivity|].
      rewrite builds_app, !lines_app, successes_app, processed_app.
      cbn [processed app]. cbn [TotalRecords SuccessCount FailureCount Errors main.AddError] in *.
      rewrite length_app in H4. cbn [length] in *.
      change (successes [_]) with 0. change (builds [_]) with 0%nat.
      change (lines _ _ [_]) with 0.
      repeat split; try congruence; try lia.
    + destruct Hr as ([e|result] & Ht & -> & ->);
        intros (steps & Ht' & Hp' & Hv & Hb & He & Hw & H1 & H2 & H3 & H4)%IH;
        eexists; rewrite Ht', Ht, <- app_assoc; (split; [reflexivity|]);
        rewrite builds_app, !lines_app, successes_app, processed_app;
        cbn [processed app map fst];
        cbn [TotalRecords SuccessCount FailureCount Errors main.AddError] in *;
        rewrite ?length_app in H4; cbn [length] in *;
        change (builds [_; _; _]) with 0%nat;
        change (lines _ _ [_; _; _]) with 0.
      * change (successes [_; _; _]) with 0. repeat split; try congruence; try lia.
      * change (successes [_; _; _]) with 1. repeat split; try congruence; try lia.
Qed.

Lemma error_details_run (errors : list (RecordError ProcessError)) : forall w : World,
  let w' := fold_left (fun w _ => logger_Error "Error details: %v" w) errors w in
  trace w' =
    (trace w ++ repeat (LoggerCall blend.Error "Error details: %v") (length errors))%list /\
  processorOnce w' = processorOnce w.
Proof.
  induction errors as [|e errors IH]; intros w; cbn [fold_left length repeat].
  - now rewrite app_nil_r.
  - destruct (IH (logger_Error "Error details: %v" w)) as [-> ->].
    destruct (handler_logger_Error "Error details: %v" w) as [-> ->].
    now rewrite <- app_assoc.
Qed.

Lemma generateSummary_run stats (w w' : World) summary :
  generateSummary stats w = (w', summary) ->
  summary = summary_text (SuccessCount stats) (FailureCount stats) (TotalRecords stats)
              (ProcessingTime stats) /\
  processorOnce w' = processorOnce w /\
  trace w' =
    (trace w ++
     match Errors stats with
     | [] => []
     | _ :: _ =>
         LoggerCall blend.Warn "Processing completed with %d errors"
         :: repeat (LoggerCall blend.Error "Error details: %v") (length (Errors stats))
     end ++ [LoggerCall blend.Info summary])%list.
Proof.
  unfold main.generateSummary. cbv zeta. intros [= <- <-]. split; [reflexivity|].
  match goal with |- context [logger_Info ?msg ?x] =>
    destruct (handler_logger_Info msg x) as [-> ->] end.
  destruct (Errors stats) as [|e errors] eqn:Ee.
  - split; reflexivity.
  - cbn [length Nat.ltb Nat.leb].
    destruct (error_details_run (e :: errors)
                (logger_Warn "Processing completed with %d errors" w)) as [-> ->].
    destruct (handler_logger_Warn "Processing completed with %d errors" w) as [-> ->].
    now rewrite <- !app_assoc.
Qed.

(** One invocation of the handler. *)
Lemma Handler_run ctx Records (w w' : World) out :
  Handler ctx Records w = (w', out) ->
  exists built,
    let first := match processorOnce w with Some _ => [] | None => [BuildProcessorCall] end in
    processorOnce w' = Some built /\
    (forall b, processorOnce w = Some b -> b = built) /\
    match built with
    | inl e =>
        out = ("", Some (FailedToInitializeProcessor e)) /\ trace w' = (trace w ++ first)%list
    | inr proc =>
        exists steps duration,
          let failed := Z.of_nat (length Records) - successes steps in
          let summary :=
            summary_text (successes steps) failed (Z.of_nat (length Records)) duration in
          out = (summary, None) /\
          trace w' =
            (trace w ++ first ++
             [LoggerCall blend.Info "Starting S3 event processing with %d records..."] ++
             steps ++
             (if failed =? 0 then []
              else LoggerCall blend.Warn "Processing completed with %d errors"
                   :: repeat (LoggerCall blend.Error "Error details: %v") (Z.to_nat failed)) ++
             [LoggerCall blend.Info summary])%list /\
          map fst (processed steps) =
            map (fun '(bucket, key) => (WithTimeout ctx ProcessingTimeout, bucket, key))
              (valid_records Records) /\
          builds steps = 0%nat /\
          lines blend.Error "Error details: %v" steps = 0 /\
          lines blend.Warn "Processing completed with %d errors" steps = 0
    end.
Proof.
  unfold main.Handler.
  assert (exists w0 built,
            getProcessor w = (w0, built) /\ processorOnce w0 = Some built /\
            (forall b, processorOnce w = Some b -> b = built) /\
            trace w0 =
              (trace w ++ match processorOnce w with Some _ => [] | None => [BuildProcessorCall] end)%list)
    as (w0 & built & -> & Hp0 & Hb & Ht0).
  { unfold main.getProcessor. destruct (processorOnce w) as [b|] eqn:E.
    - exists w, b. rewrite app_nil_r. repeat split; auto. now intros ? [= <-].
    - destruct (buildProcessor (services w)) as [s b]. eexists _, b.
      repeat split; auto. discriminate. }
  intros HH. exists built. revert HH. cbv beta iota zeta. destruct built as [e|proc].
  { intros [= <- <-]. auto. }
  destruct (handler_logger_Info "Starting S3 event processing with %d records..." w0)
    as [Ht1 Hp1].
  remember (logger_Info "Starting S3 event processing with %d records..." w0) as w1 eqn:E1.
  clear E1.
  destruct (Handler_loop ctx proc 0 Records _ w1) as [w2 stats] eqn:EL.
  apply Handler_loop_run in EL as (steps & Ht2 & Hp2 & Hv & Hb' & He & Hw & H1 & H2 & H3 & H4).
  cbn [TotalRecords SuccessCount FailureCount Errors length] in *.
  destruct (generateSummary _ w2) as [w3 summary] eqn:EG.
  apply generateSummary_run in EG as (Hs & Hp3 & Ht3).
  cbn [TotalRecords SuccessCount FailureCount Errors ProcessingTime] in *.
  intros [= <- <-]. split; [congruence|]. split; [exact Hb|].
  exists steps, (time_Now (services w2) - time_Now (services w)).
  rewrite H1, H2, H3, !Z.add_0_l in Hs.
  split; [now rewrite Hs|]. split; [|auto].
  rewrite Ht3, Ht2, Ht1, Ht0, <- !app_assoc. do 3 f_equal. cbn [app]. f_equal.
  rewrite <- Hs. f_equal. cbn [Z.of_nat] in H4. rewrite Z.add_0_l in H4.
  destruct (Z.eqb_spec (Z.of_nat (length Records) - successes steps) 0) as [E|E].
  - destruct (Errors stats); [reflexivity|cbn [length] in H4; lia].
  - destruct (Errors stats) as [|e errors] eqn:Ee; [cbn [length] in H4; lia|].
    rewrite <- H4, Nat2Z.id. reflexivity.
Qed.

Lemma lines_repeat level message level' message' n :
  lines level message (repeat (LoggerCall level' message' : Call) n) =
    if blend.Equal level' level && String.eqb message' message then Z.of_nat n else 0.
Proof.
  unfold lines. induction n as [|n IH]; cbn [repeat List.filter].
  - now destruct (_ && _).
  - destruct (blend.Equal level' level && String.eqb message' message); cbn [length]; lia.
Qed.

Lemma successes_bound (steps : list Call) :
  0 <= successes steps <= Z.of_nat (length (processed steps)).
Proof.
  unfold successes. pose proof (List.filter_length_le
    (fun call : Context * string * string * (ProcessError + ProcessingResult) =>
       match call with (_, inr _) => true | _ => false end) (processed steps)). lia.
Qed.


(** X24.  The summary accounts for every record of the event: the number
    of successes is the number of calls of [ProcessFile] that returned a
    result, every other record is counted as failed, and the two add up to
    the total, the number of records.  One line of details is logged for
    each failure, after one warning when there is any, and the summary is
    the last line logged.  Failures of records are never returned as an
    error. *)
Theorem Handler_summary ctx Records (w w' : World) summary :
  Handler ctx Records w = (w', (summary, None)) ->
  exists steps duration,
    trace w' = (trace w ++ steps)%list /\
    let succeeded := successes steps in
    let failed := Z.of_nat (length Records) - succeeded in
    summary = summary_text succeeded failed (Z.of_nat (length Records)) duration /\
    0 <= succeeded <= Z.of_nat (length (valid_records Records)) /\
    lines blend.Error "Error details: %v" steps = failed /\
    lines blend.Warn "Processing completed with %d errors" steps
      = (if failed =? 0 then 0 else 1) /\
    last steps = Some (LoggerCall blend.Info summary).
Proof.
  intros (built & Hp & _ & Hr)%Handler_run. cbv zeta in Hr.
  destruct built as [e|proc]; [destruct Hr as [[=] _]|].
  destruct Hr as (steps & duration & [= ->] & -> & Hv & _ & He & Hw).
  eexists _, duration. split; [reflexivity|]. cbv zeta.
  pose proof (successes_bound steps) as Hb.
  apply (f_equal (@length _)) in Hv. rewrite !length_map in Hv. rewrite Hv in Hb.
  assert (Hf : 0 <= Z.of_nat (length Records) - successes steps).
  { assert (length (valid_records Records) <= length Records)%nat; [|lia].
    clear. induction Records as [|rec Records IH]; cbn [valid_records length]; [lia|].
    destruct (validateS3Record rec); cbn [length]; lia. }
  set (failed := Z.of_nat (length Records) - successes steps) in *.
  set (text := summary_text (successes steps) failed _ duration).
  set (first := match processorOnce w with Some _ => [] | None => [BuildProcessorCall] end).
  set (tail := if failed =? 0 then []
               else LoggerCall blend.Warn "Processing completed with %d errors"
                    :: repeat (LoggerCall blend.Error "Error details: %v") (Z.to_nat failed)).
  assert (Hfirst : successes first = 0 /\
                   lines blend.Error "Error details: %v" first = 0 /\
                   lines blend.Warn "Processing completed with %d errors" first = 0)
    by (unfold first; now destruct (processorOnce w)).
  assert (Htail : successes tail = 0 /\
                  lines blend.Error "Error details: %v" tail = failed /\
                  lines blend.Warn "Processing completed with %d errors" tail
                    = (if failed =? 0 then 0 else 1)).
  { unfold tail. destruct (Z.eqb_spec failed 0) as [->|Hne]; [now repeat split|].
    change (?c :: repeat ?d ?n) with ([c] ++ repeat d n)%list.
    rewrite successes_app, !lines_app, !lines_repeat. cbn [blend.Equal].
    change (lines _ _ [_]) with 0 at 1. change (lines _ _ [_]) with 1.
    change (successes [_]) with 0. split; [|split; [|reflexivity]].
    - unfold successes. assert (processed (repeat
        (LoggerCall blend.Error "Error details: %v" : Call) (Z.to_nat failed)) = []) as ->
        by (induction (Z.to_nat failed); auto). reflexivity.
    - change (blend.Equal blend.Error blend.Error && _) with true. cbv iota. lia. }
  destruct Hfirst as (F1 & F2 & F3), Htail as (T1 & T2 & T3).
  rewrite !successes_app, !lines_app, F1, F2, F3, T1, T2, T3, He, Hw.
  change (successes [_]) with 0. change (lines _ _ [LoggerCall blend.Info _]) with 0.
  rewrite !Z.add_0_l, !Z.add_0_r. fold failed. fold text.
  repeat split; try lia. rewrite !app_assoc. apply last_snoc.
Qed.

Lemma builds_repeat_logger level message n :
  builds (repeat (LoggerCall level message : Call) n) = 0%nat.
Proof. induction n; auto. Qed.

(** X25.  The processor is built once.  An invocation calls
    [buildProcessor] exactly when no invocation did before it, and keeps
    what was built.  The handler returns an error exactly when the
    initialization has failed; then it returns no summary and processes no
    record, and the failure stays: every later invocation returns the same
    error without building the processor again and without any call. *)
Theorem Handler_initialization ctx Records (w w' : World) summary err :
  Handler ctx Records w = (w', (summary, err)) ->
  exists steps,
    trace w' = (trace w ++ steps)%list /\
    builds steps = match processorOnce w with Some _ => 0 | None => 1 end%nat /\
    (forall built, processorOnce w = Some built -> processorOnce w' = Some built) /\
    (forall e,
       err = Some (FailedToInitializeProcessor e) <-> processorOnce w' = Some (inl e)) /\
    (err <> None ->
     summary = "" /\ processed steps = [] /\
     forall ctx' Records', Handler ctx' Records' w' = (w', ("", err))).
Proof.
  intros (built & Hp & Hb & Hr)%Handler_run. cbv zeta in Hr. destruct built as [e|proc].
  - destruct Hr as [[= -> ->] ->]. eexists. split; [reflexivity|].
    split; [now destruct (processorOnce w)|]. split; [now intros b ->%Hb|].
    split; [split; congruence|]. intros _. split; [reflexivity|].
    split; [now destruct (processorOnce w)|].
    intros ctx' Records'. unfold main.Handler, main.getProcessor. now rewrite Hp.
  - destruct Hr as (steps & duration & [= -> ->] & -> & _ & Hbuilds & _).
    eexists. split; [reflexivity|]. split; [|split; [now intros b ->%Hb|]].
    + rewrite !builds_app, Hbuilds.
      assert (forall failed : Z,
                builds (if failed =? 0 then []
                        else (LoggerCall blend.Warn "Processing completed with %d errors" : Call)
                             :: repeat (LoggerCall blend.Error "Error details: %v")
                                  (Z.to_nat failed)) = 0%nat) as ->.
      { intros failed. destruct (failed =? 0); [reflexivity|].
        apply (builds_repeat_logger blend.Error "Error details: %v" (Z.to_nat failed)). }
      now destruct (processorOnce w).
    + split; [split; [discriminate|congruence]|]. now intros [].
Qed.

End HandlerFacts.

(** * The configuration *)

Section ConfigFacts.

Import application.

Variable W : Type.
Variable E : Type.
Variable env : EnvProvider W E.
Variable secrets : SecretsProvider W E.

Local Abbreviation ConfigWorld := (ConfigWorld W E).

Lemma env_GetEnv_lookups key (w w' : ConfigWorld) result :
  env_GetEnv W E env key w = (w', result) ->
  lookups w' = (lookups w ++ [GetEnvLookup key result])%list.
Proof. unfold env_GetEnv. destruct (GetEnv _ _ _). now intros [= <- <-]. Qed.

Lemma secrets_GetString_lookups key (w w' : ConfigWorld) result :
  secrets_GetString W E secrets key w = (w', result) ->
  lookups w' = (lookups w ++ [GetStringLookup key result])%list.
Proof. unfold secrets_GetString. destruct (GetString _ _ _). now intros [= <- <-]. Qed.

Lemma secrets_GetInt_lookups key (w w' : ConfigWorld) result :
  secrets_GetInt W E secrets key w = (w', result) ->
  lookups w' = (lookups w ++ [GetIntLookup key result])%list.
Proof. unfold secrets_GetInt. destruct (GetInt _ _ _). now intros [= <- <-]. Qed.

Local Abbreviation six table host port user pass from :=
  [GetEnvLookup "DYNAMODB_TABLE_NAME" (inr table);
   GetStringLookup "SMTP_HOST" (inr host);
   GetIntLookup "SMTP_PORT" (inr port);
   GetStringLookup "SMTP_USERNAME" (inr user);
   GetStringLookup "SMTP_PASSWORD" (inr pass);
   GetStringLookup "SMTP_FROM" (inr from) : Lookup E].

(** X26.  [Load] is all or nothing.  It asks for the six values in a fixed
    order, the table name of the environment first, and stops at the first
    that is missing: the error returned is the error of that lookup, no value
    is asked for after it, and the configuration is left as it was.  Only
    when all six are found is the configuration assigned, each field with
    the value found. *)
Theorem Load_all_or_nothing config (w w' : ConfigWorld) config' err :
  Load env secrets config w = (w', (config', err)) ->
  exists table host port user pass from found failed,
    lookups w' = (lookups w ++ found ++ failed)%list /\
    found =
      take (length found)
        [GetEnvLookup "DYNAMODB_TABLE_NAME" (inr table);
         GetStringLookup "SMTP_HOST" (inr host);
         GetIntLookup "SMTP_PORT" (inr port);
         GetStringLookup "SMTP_USERNAME" (inr user);
         GetStringLookup "SMTP_PASSWORD" (inr pass);
         GetStringLookup "SMTP_FROM" (inr from)] /\
    match err with
    | None =>
        length found = 6%nat /\ failed = [] /\
        config' =
          {| TransactionsDynamoDB := {| TableName := table |};
             EmailSMTP := {| Host := host; Port := port; Username := user;
                             Password := pass; From := from |} |}
    | Some e =>
        config' = config /\
        exists key,
          nth_error ["DYNAMODB_TABLE_NAME"; "SMTP_HOST"; "SMTP_PORT"; "SMTP_USERNAME";
                     "SMTP_PASSWORD"; "SMTP_FROM"] (length found) = Some key /\
          (failed = [GetEnvLookup key (inl e)] \/ failed = [GetStringLookup key (inl e)] \/
           failed = [GetIntLookup key (inl e)])
    end.
Proof.
  unfold Load.
  destruct (env_GetEnv _ _ _ _ w) as [w1 [e|table]] eqn:E1; apply env_GetEnv_lookups in E1.
  { intros [= <- <- <-]. exists "", "", 0, "", "", "", (take 0 (six "" "" 0 "" "" "")), [GetEnvLookup "DYNAMODB_TABLE_NAME" (inl e)].
    cbn. eauto 10. }
  destruct (secrets_GetString _ _ _ _ w1) as [w2 [e|host]] eqn:E2;
    apply secrets_GetString_lookups in E2; rewrite E1, <- app_assoc in E2.
  { intros [= <- <- <-]. exists table, "", 0, "", "", "", (take 1 (six table "" 0 "" "" "")), [GetStringLookup "SMTP_HOST" (inl e)].
    cbn. eauto 10. }
  destruct (secrets_GetInt _ _ _ _ w2) as [w3 [e|port]] eqn:E3;
    apply secrets_GetInt_lookups in E3; rewrite E2, <- app_assoc in E3.
  { intros [= <- <- <-]. exists table, host, 0, "", "", "", (take 2 (six table host 0 "" "" "")), [GetIntLookup "SMTP_PORT" (inl e)].
    cbn. eauto 10. }
  destruct (secrets_GetString _ _ _ _ w3) as [w4 [e|user]] eqn:E4;
    apply secrets_GetString_lookups in E4; rewrite E3, <- app_assoc in E4.
  { intros [= <- <- <-].
    exists table, host, port, "", "", "", (take 3 (six table host port "" "" "")), [GetStringLookup "SMTP_USERNAME" (inl e)].
    cbn. eauto 10. }
  destruct (secrets_GetString _ _ _ _ w4) as [w5 [e|pass]] eqn:E5;
    apply secrets_GetString_lookups in E5; rewrite E4, <- app_assoc in E5.
  { intros [= <- <- <-].
    exists table, host, port, user, "", "", (take 4 (six table host port user "" "")),
      [GetStringLookup "SMTP_PASSWORD" (inl e)].
    cbn. eauto 10. }
  destruct (secrets_GetString _ _ _ _ w5) as [w6 [e|from]] eqn:E6;
    apply secrets_GetString_lookups in E6; rewrite E5, <- app_assoc in E6.
  { intros [= <- <- <-].
    exists table, host, port, user, pass, "", (take 5 (six table host port user pass "")),
      [GetStringLookup "SMTP_FROM" (inl e)].
    cbn. eauto 10. }
  intros [= <- <- <-]. exists table, host, port, user, pass, from, (take 6 (six table host port user pass from)), [].
  cbn. rewrite E6. auto.
Qed.

End ConfigFacts.

Section ProviderFacts.

Import application.

Variable SecretsClient : Type.
Variable GetSecretValue : SecretsClient -> string -> SecretsClient * option (option string).
Variable Atoi : string -> option Z.

Local Abbreviation ProviderWorld := (ProviderWorld SecretsClient).
Local Abbreviation ConfigWorld := (ConfigWorld ProviderWorld ConfigError).
Local Abbreviation GetString := (AWSSecretsProvider_GetString SecretsClient GetSecretValue).
Local Abbreviation GetInt := (AWSSecretsProvider_GetInt SecretsClient GetSecretValue Atoi).
Local Abbreviation Load :=
  (Load (DefaultEnvProvider SecretsClient)
     (NewAWSSecretsProvider SecretsClient GetSecretValue Atoi)).

Lemma GetString_run key (w w' : ProviderWorld) result :
  GetString key w = (w', result) ->
  os_Getenv w' = os_Getenv w /\
  secretRequests w' = (secretRequests w ++ [key])%list /\
  result <> inl ErrEnvVarNotSet /\ result <> inl ErrSecretTypeMismatch.
Proof.
  unfold AWSSecretsProvider_GetString. destruct (GetSecretValue _ _) as [c [[v|]|]];
    cbv zeta; intros [= <- <-]; cbn; repeat split; try reflexivity; intros ?; discriminate.
Qed.

Lemma GetInt_run key (w w' : ProviderWorld) result :
  GetInt key w = (w', result) ->
  os_Getenv w' = os_Getenv w /\
  secretRequests w' = (secretRequests w ++ [key])%list /\
  result <> inl ErrEnvVarNotSet /\
  (forall port, result = inr port -> exists text, Atoi text = Some port).
Proof.
  unfold AWSSecretsProvider_GetInt.
  destruct (GetString key w) as [w1 [e|val]] eqn:E;
    apply GetString_run in E as (H1 & H2 & H3 & H4).
  - intros [= <- <-]. split; [|split; [|split]]; auto; [|intros port [=]].
    intros [= ->]. now apply H3.
  - destruct (Atoi val) as [intVal|] eqn:Ea; intros [= <- <-];
      (split; [|split; [|split]]); auto; try (intros ?; discriminate); try (intros ? [=]).
    subst. eauto.
Qed.

Lemma secrets_GetString_run key (w w' : ConfigWorld) result :
  secrets_GetString _ _ (NewAWSSecretsProvider SecretsClient GetSecretValue Atoi) key w
    = (w', result) ->
  os_Getenv (providers w') = os_Getenv (providers w) /\
  secretRequests (providers w') = (secretRequests (providers w) ++ [key])%list /\
  result <> inl ErrEnvVarNotSet /\ result <> inl ErrSecretTypeMismatch.
Proof.
  unfold secrets_GetString. cbn [application.GetString NewAWSSecretsProvider].
  destruct (GetString key (providers w)) as [s r] eqn:E. intros [= <- <-].
  now apply GetString_run in E.
Qed.

Lemma secrets_GetInt_run key (w w' : ConfigWorld) result :
  secrets_GetInt _ _ (NewAWSSecretsProvider SecretsClient GetSecretValue Atoi) key w
    = (w', result) ->
  os_Getenv (providers w') = os_Getenv (providers w) /\
  secretRequests (providers w') = (secretRequests (providers w) ++ [key])%list /\
  result <> inl ErrEnvVarNotSet /\
  (forall port, result = inr port -> exists text, Atoi text = Some port).
Proof.
  unfold secrets_GetInt. cbn [application.GetInt NewAWSSecretsProvider].
  destruct (GetInt key (providers w)) as [s r] eqn:E. intros [= <- <-].
  now apply GetInt_run in E.
Qed.

(** X27.  [Load] with the providers of the Lambda.  A table name that is
    set to the empty string counts as not set.  When the table name is
    missing no secret is asked for; otherwise the secrets are asked for in
    the order host, port, user name, password, sender, up to the first that
    is missing.  A configuration that is loaded has a table name that is
    not empty and a port that [strconv.Atoi] read from a secret. *)
Theorem Load_with_providers config (w w' : ConfigWorld) config' err :
  Load config w = (w', (config', err)) ->
  (err = Some ErrEnvVarNotSet <-> os_Getenv (providers w) "DYNAMODB_TABLE_NAME" = "") /\
  (exists asked,
     secretRequests (providers w') = (secretRequests (providers w) ++ asked)%list /\
     asked =
       take (length asked)
         ["SMTP_HOST"; "SMTP_PORT"; "SMTP_USERNAME"; "SMTP_PASSWORD"; "SMTP_FROM"] /\
     (err = Some ErrEnvVarNotSet -> asked = []) /\
     (err = Some ErrSecretTypeMismatch -> asked = ["SMTP_HOST"; "SMTP_PORT"]) /\
     (err = None -> length asked = 5%nat)) /\
  (err = None ->
   TableName (TransactionsDynamoDB config')
     = os_Getenv (providers w) "DYNAMODB_TABLE_NAME" /\
   TableName (TransactionsDynamoDB config') <> "" /\
   exists text, Atoi text = Some (Port (EmailSMTP config'))).
Proof.
  unfold application.Load, env_GetEnv at 1.
  cbn [GetEnv DefaultEnvProvider]. unfold DefaultEnvProvider_GetEnv.
  destruct (String.eqb_spec (os_Getenv (providers w) "DYNAMODB_TABLE_NAME") "") as [E0|E0].
  { intros [= <- <- <-]. cbn. split; [tauto|]. split; [|discriminate].
    exists []. rewrite app_nil_r. repeat split; auto; discriminate. }
  match goal with |- context [secrets_GetString _ _ _ _ ?x] => set (w0 := x) end.
  assert (H0 : secretRequests (providers w0) = secretRequests (providers w)) by reflexivity.
  clearbody w0.
  destruct (secrets_GetString _ _ _ "SMTP_HOST" w0) as [w1 [e|host]] eqn:E1;
    apply secrets_GetString_run in E1 as (_ & H1 & N1 & M1); rewrite H0 in H1.
  { intros [= <- <- <-]. split; [split; [intros [= ->]; congruence|contradiction]|].
    split; [|discriminate]. exists ["SMTP_HOST"]. repeat split; auto; intros [= ->]; congruence. }
  destruct (secrets_GetInt _ _ _ "SMTP_PORT" w1) as [w2 [e|port]] eqn:E2;
    apply secrets_GetInt_run in E2 as (_ & H2 & N2 & A2); rewrite H1, <- app_assoc in H2.
  { intros [= <- <- <-]. split; [split; [intros [= ->]; congruence|contradiction]|].
    split; [|discriminate]. exists ["SMTP_HOST"; "SMTP_PORT"].
    repeat split; auto; intros [= ->]; congruence. }
  destruct (secrets_GetString _ _ _ "SMTP_USERNAME" w2) as [w3 [e|user]] eqn:E3;
    apply secrets_GetString_run in E3 as (_ & H3 & N3 & M3); rewrite H2, <- app_assoc in H3.
  { intros [= <- <- <-]. split; [split; [intros [= ->]; congruence|contradiction]|].
    split; [|discriminate]. exists ["SMTP_HOST"; "SMTP_PORT"; "SMTP_USERNAME"].
    repeat split; auto; intros [= ->]; congruence. }
  destruct (secrets_GetString _ _ _ "SMTP_PASSWORD" w3) as [w4 [e|pass]] eqn:E4;
    apply secrets_GetString_run in E4 as (_ & H4 & N4 & M4); rewrite H3, <- app_assoc in H4.
  { intros [= <- <- <-]. split; [split; [intros [= ->]; congruence|contradiction]|].
    split; [|discriminate]. exists ["SMTP_HOST"; "SMTP_PORT"; "SMTP_USERNAME"; "SMTP_PASSWORD"].
    repeat split; auto; intros [= ->]; congruence. }
  destruct (secrets_GetString _ _ _ "SMTP_FROM" w4) as [w5 [e|from]] eqn:E5;
    apply secrets_GetString_run in E5 as (_ & H5 & N5 & M5); rewrite H4, <- app_assoc in H5.
  { intros [= <- <- <-]. split; [split; [intros [= ->]; congruence|contradiction]|].
    split; [|discriminate].
    exists ["SMTP_HOST"; "SMTP_PORT"; "SMTP_USERNAME"; "SMTP_PASSWORD"; "SMTP_FROM"].
    repeat split; auto; intros [= ->]; congruence. }
  intros [= <- <- <-]. split; [split; [discriminate|contradiction]|]. split.
  - exists ["SMTP_HOST"; "SMTP_PORT"; "SMTP_USERNAME"; "SMTP_PASSWORD"; "SMTP_FROM"].
    repeat split; auto; discriminate.
  - intros _. cbn. repeat split; auto.
Qed.

End ProviderFacts.

(** * Sample runs *)

Section SampleRuns.

Import transactions summaries.

(** A header of two fields under the loader for two fields. *)
Lemma LoadTransactions_other_field_count_witness :
  LoadTransactions atof64exact (NewCSVTransactionLoaderWithConfig 2024 two_fields) Background
    [GoCsv.Starts (GoCsv.Fields ["Id"; "Date"])] = Returns (Slice [], None) /\
  length (GoCsv.records [GoCsv.Starts (GoCsv.Fields ["Id"; "Date"])]) = 1%nat.
Proof.
  split; [vm_compute; reflexivity|].
  apply (LoadTransactions_other_field_count atof64exact 2024 two_fields Background
           [GoCsv.Starts (GoCsv.Fields ["Id"; "Date"])] []).
  - reflexivity.
  - discriminate.
  - vm_compute; reflexivity.
Defined.

(** The sample file under a context that is done after the first data
    line. *)
Lemma LoadTransactions_cancelled_witness :
  LoadTransactions atof64exact (NewCSVTransactionLoader 2024) (done_from 2)
    (GoCsv.text_of (GoCsv.Fields sample_header :: sample_data))
    = Returns (Nil, Some (ContextCancelledAt 3)).
Proof.
  apply (LoadTransactions_cancelled atof64exact 2024 (done_from 2) _ sample_header sample_data 1).
  - reflexivity.
  - reflexivity.
  - cbn. lia.
  - vm_compute; reflexivity.
  - intros [|[|j]] Hj; [reflexivity|reflexivity|lia].
  - reflexivity.
Defined.


(** The sample transactions in reverse order. *)
Lemma CalculateSummary_counts_permutation_witness :
  sample_transactions ≡ₚ rev sample_transactions /\
  TransactionCount <$> entry (YearlyData (CalculateSummary sample_transactions)) 2024 1 =
  TransactionCount <$> entry (YearlyData (CalculateSummary (rev sample_transactions))) 2024 1.
Proof.
  split; [apply Permutation_rev|].
  apply (CalculateSummary_counts_permutation sample_transactions (rev sample_transactions)).
  apply Permutation_rev.
Defined.

(** The summary of the sample file, loaded in 2024. *)
Lemma CalculateSummary_of_loaded_witness :
  LoadTransactions atof64exact (NewCSVTransactionLoader 2024) Background
    (GoCsv.text_of (GoCsv.Fields sample_header :: sample_data))
    = Returns (Slice sample_transactions, None) /\
  exists s,
    entry (YearlyData (CalculateSummary sample_transactions)) 2024 1 = Some s /\
    2024 = 2024 /\ 1 <= 1 <= 12.
Proof.
  assert (H : LoadTransactions atof64exact (NewCSVTransactionLoader 2024) Background
                (GoCsv.text_of (GoCsv.Fields sample_header :: sample_data))
              = Returns (Slice sample_transactions, None))
    by (vm_compute; reflexivity).
  split; [exact H|].
  destruct (entry (YearlyData (CalculateSummary sample_transactions)) 2024 1) as [s|] eqn:E;
    [|vm_compute in E; discriminate].
  exists s. split; [reflexivity|].
  exact (CalculateSummary_of_loaded atof64exact 2024 Background
           (GoCsv.text_of (GoCsv.Fields sample_header :: sample_data))
           sample_transactions 2024 1 s H E).
Defined.

(** The sample transactions saved after one retry. *)
Lemma Save_success_acknowledged_witness :
  Save nat service_leaving_first_once sample_uuid sample_table sample_transactions fresh_world
    = (fst saved_after_one_retry, None) /\
  exists batches,
    calls _ (fst saved_after_one_retry) = (calls _ fresh_world ++ concat batches)%list /\
    length batches = length (chunks 25 sample_transactions).
Proof.
  assert (H : Save nat service_leaving_first_once sample_uuid sample_table sample_transactions
                fresh_world = (fst saved_after_one_retry, None)) by (vm_compute; reflexivity).
  split; [exact H|].
  destruct (Save_success_acknowledged nat service_leaving_first_once sample_uuid sample_table
              sample_transactions fresh_world (fst saved_after_one_retry) H)
    as (batches & Hc & Hf).
  exists batches. split; [exact Hc|]. exact (Forall2_length _ _ _ Hf).
Defined.

(** The 26 transactions against the service that always leaves an item:
    four calls, all for the first batch. *)
Lemma Save_calls_bound_witness :
  Save nat service_leaving_first sample_uuid sample_table sample_26 fresh_world
    = (fst failed_after_retries, snd failed_after_retries) /\
  exists trace,
    calls _ (fst failed_after_retries) = (calls _ fresh_world ++ trace)%list /\
    (length trace <= 4 * ceil_div (length sample_26) 25)%nat /\
    (trace = [] <-> sample_26 = []).
Proof.
  assert (H : Save nat service_leaving_first sample_uuid sample_table sample_26 fresh_world
              = (fst failed_after_retries, snd failed_after_retries))
    by (vm_compute; reflexivity).
  split; [exact H|].
  exact (Save_calls_bound nat service_leaving_first sample_uuid sample_table sample_26
           fresh_world (fst failed_after_retries) (snd failed_after_retries) H).
Defined.

(** Two days of January 2024. *)
Lemma Format_RFC3339_Z_injective_witness :
  GoTime.Format_RFC3339_Z (GoTime.Date 2024 1 15) <> GoTime.Format_RFC3339_Z (GoTime.Date 2024 1 5).
Proof.
  destruct (Format_RFC3339_Z_injective (GoTime.Date 2024 1 15) (GoTime.Date 2024 1 5))
    as (_ & _ & H); cbn; try lia.
  intros E. apply H in E. discriminate.
Defined.

(** A key with a directory. *)
Lemma parsePath_round_trip_witness :
  parsePath "s3://my-bucket/2024/file.csv" = inr ("my-bucket", "2024/file.csv") /\
  parsePath "my-bucket/2024/file.csv" = inr ("my-bucket", "2024/file.csv").
Proof.
  destruct (parsePath_round_trip "my-bucket" "2024/file.csv") as [H1 H2];
    [discriminate|reflexivity|discriminate|].
  split; [exact H1|]. apply H2. discriminate.
Defined.

(** The sample file from the sample service. *)
Lemma Get_outcome_witness :
  sample_storage_Get "s3://bucket/file.csv" sample_s3 = sample_got /\
  forall file,
    snd sample_got = inr file ->
    summary.Path file = "s3://" ++ GoStrings.TrimPrefix "s3://bucket/file.csv" "s3://" /\
    parsePath (summary.Path file) = parsePath "s3://bucket/file.csv" /\
    summary.AccountID file <> "" /\ summary.AccountEmail file <> "".
Proof.
  assert (H : sample_storage_Get "s3://bucket/file.csv" sample_s3
              = (fst sample_got, snd sample_got)) by (vm_compute; reflexivity).
  split; [vm_compute; reflexivity|].
  apply (Get_outcome (fun s => s) (list GoCsv.TextLine) nat sample_GetObject
           sample_GetObjectTagging "s3://bucket/file.csv" sample_s3
           (fst sample_got) (snd sample_got) H).
Defined.

Section SampleProcessor.

Import application.

Local Abbreviation run_of name :=
  (ProcessFile sample_processor Background "bucket" name sample_start).

(** The sample file through the sample processor: the five collaborators
    in order. *)
Lemma ProcessFile_pipeline_witness :
  run_of "file.csv" = sample_run /\
  exists steps,
    trace (fst sample_run) = (trace sample_start ++ steps)%list /\
    map (fun call => match call with
                     | GetCall _ _ => "storage"
                     | LoadTransactionsCall _ _ => "loader"
                     | SaveCall _ _ => "repository"
                     | CalculateSummaryCall _ _ => "summarizer"
                     | SendCall _ _ _ => "mailer"
                     | LoggerCall _ _ => "logger"
                     end) (collaborator_calls steps)
      = ["storage"; "loader"; "repository"; "summarizer"; "mailer"].
Proof.
  assert (H : run_of "file.csv" = (fst sample_run, snd sample_run)) by (vm_compute; reflexivity).
  split; [vm_compute; reflexivity|].
  destruct (ProcessFile_pipeline _ _ _ _ _ _ _ sample_processor Background "bucket" "file.csv"
              sample_start (fst sample_run) (snd sample_run) H) as (steps & Ht & Hs).
  exists steps. split; [exact Ht|].
  cbn [snd sample_run] in Hs. destruct Hs as (file & loaded & summaryData & E & ->).
  injection E as _ _ <- _ _. reflexivity.
Defined.

(** The file with an invalid line: one line of error, the last. *)
Lemma ProcessFile_error_logged_witness :
  run_of "bad.csv" = sample_bad_run /\
  exists steps before message,
    trace (fst sample_bad_run) = (trace sample_start ++ steps)%list /\
    steps = (before ++ [LoggerCall blend.Error message])%list /\
    error_lines before = [].
Proof.
  assert (H : run_of "bad.csv" = (fst sample_bad_run, snd sample_bad_run))
    by (vm_compute; reflexivity).
  split; [vm_compute; reflexivity|].
  destruct (ProcessFile_error_logged _ _ _ _ _ _ _ sample_processor Background "bucket"
              "bad.csv" sample_start (fst sample_bad_run) (snd sample_bad_run) H)
    as (steps & Ht & Hs).
  cbn [snd sample_bad_run] in Hs. destruct Hs as (before & message & Hs & He).
  exists steps, before, message. auto.
Defined.

(** The file with an invalid line leaves DynamoDB as it was. *)
Lemma processor_invalid_file_witness :
  run_of "bad.csv" = sample_bad_run /\
  sample_storage_Get "s3://bucket/bad.csv" sample_s3
    = (fst (sample_storage_Get "s3://bucket/bad.csv" sample_s3), inr sample_bad_file) /\
  first_invalid atof64exact (transactions.NewCSVTransactionLoader 2024) sample_bad_data
    = Some 1%nat /\
  (exists err, snd sample_bad_run = inl (FailedToParseTransactions err)) /\
  main.dynamodb _ _ _ (services (fst sample_bad_run)) = fresh_world.
Proof.
  assert (H : run_of "bad.csv" = (fst sample_bad_run, snd sample_bad_run))
    by (vm_compute; reflexivity).
  assert (HG : sample_storage_Get "s3://bucket/bad.csv" sample_s3
               = (fst (sample_storage_Get "s3://bucket/bad.csv" sample_s3), inr sample_bad_file))
    by (vm_compute; reflexivity).
  assert (Hk : first_invalid atof64exact (transactions.NewCSVTransactionLoader 2024)
                 sample_bad_data = Some 1%nat) by (vm_compute; reflexivity).
  split; [vm_compute; reflexivity|]. split; [exact HG|]. split; [exact Hk|].
  destruct (processor_invalid_file (fun s => s) nat sample_GetObject sample_GetObjectTagging
              nat service_leaving_first_once sample_uuid atof64exact 2024
              (list string) unit unit sample_smtp_Send blend.NewDummyLogger sample_table
              Background "bucket" "bad.csv" sample_start (fst sample_bad_run)
              (snd sample_bad_run) _ sample_bad_file (GoCsv.Fields sample_header)
              sample_bad_data 1%nat H HG eq_refl Hk) as (He & Hd & _).
  split; [exact He|exact Hd].
Defined.

(** The result for the sample file. *)
Lemma processor_result_witness :
  exists result,
    run_of "file.csv" = (fst sample_run, inr result) /\
    FilePath result = "s3://bucket/file.csv" /\
    AccountID result <> "" /\ AccountEmail result <> "" /\
    count_all (summaries.YearlyData (Summary result)) = TransactionCount result.
Proof.
  destruct (snd sample_run) as [e|result] eqn:E; [vm_compute in E; discriminate|].
  assert (H : run_of "file.csv" = (fst sample_run, inr result))
    by (rewrite <- E; vm_compute; reflexivity).
  exists result. split; [exact H|].
  destruct (processor_result (fun s => s) nat sample_GetObject sample_GetObjectTagging
              nat service_leaving_first_once sample_uuid atof64exact 2024
              (list string) unit unit sample_smtp_Send blend.NewDummyLogger sample_table
              Background "bucket" "file.csv" sample_start (fst sample_run) result H)
    as (H1 & H2 & H3 & H4 & _).
  auto.
Defined.

(** The writes of the sample file: one batch, acknowledged after a retry. *)
Lemma processor_writes_witness :
  run_of "file.csv" = sample_run /\
  exists file header data batches,
    sample_storage_Get "s3://bucket/file.csv" sample_s3
      = (main.s3 _ _ _ (services (fst sample_run)), inr file) /\
    GoCsv.records (summary.Content file) = GoCsv.Fields header :: data /\
    transactions.calls _ (main.dynamodb _ _ _ (services (fst sample_run)))
      = (transactions.calls _ fresh_world ++ concat batches)%list /\
    length batches = length (chunks 25 data).
Proof.
  assert (H : run_of "file.csv" = (fst sample_run, snd sample_run)) by (vm_compute; reflexivity).
  split; [vm_compute; reflexivity|].
  destruct (processor_writes (fun s => s) nat sample_GetObject sample_GetObjectTagging
              nat service_leaving_first_once sample_uuid atof64exact 2024
              (list string) unit unit sample_smtp_Send blend.NewDummyLogger sample_table
              Background "bucket" "file.csv" sample_start (fst sample_run) (snd sample_run) H)
    as (file & header & data & batches & HG & Hc & Hl & _ & Hcalls & Hf).
  { left. eexists. reflexivity. }
  exists file, header, data, batches. split; [exact HG|]. split; [exact Hc|].
  split; [exact Hcalls|].
  rewrite (Forall2_length _ _ _ Hf), !length_chunks_25, Hl. reflexivity.
Defined.

End SampleProcessor.

Section SampleHandler.

Import main.

Local Abbreviation handled := (sample_Handler Background sample_records sample_cold).


(** The summary of the event of three records. *)
Lemma Handler_summary_witness :
  snd handled
    = ("S3 event processing completed: 1 succeeded, 2 failed (total: 3, duration: 0s)", None) /\
  exists steps,
    trace (fst handled) = (trace sample_cold ++ steps)%list /\
    lines blend.Error "Error details: %v" steps = 3 - successes steps /\
    last steps = Some (LoggerCall blend.Info (fst sample_summary)).
Proof.
  assert (Hs : snd handled = sample_summary) by (vm_compute; reflexivity).
  assert (H : handled = (fst handled, (fst sample_summary, None)))
    by (change (fst sample_summary, None) with sample_summary; rewrite <- Hs;
        apply surjective_pairing).
  split; [exact Hs|].
  destruct (Handler_summary _ _ _ _ _ _ _ _ _ _ Background sample_records
              sample_cold (fst handled) (fst sample_summary) H)
    as (steps & duration & Ht & _ & _ & He & _ & Hl).
  exists steps. auto.
Defined.

(** A deployment whose initialization fails: the error stays. *)
Lemma Handler_initialization_witness :
  snd (sample_failing_Handler Background sample_records sample_cold)
    = ("", Some (FailedToInitializeProcessor tt)) /\
  forall ctx' Records',
    sample_failing_Handler ctx' Records'
      (fst (sample_failing_Handler Background sample_records sample_cold))
    = (fst (sample_failing_Handler Background sample_records sample_cold),
       ("", Some (FailedToInitializeProcessor tt))).
Proof.
  assert (H : sample_failing_Handler Background sample_records sample_cold
              = (fst (sample_failing_Handler Background sample_records sample_cold),
                 ("", Some (FailedToInitializeProcessor tt)))) by reflexivity.
  split; [reflexivity|].
  destruct (Handler_initialization _ _ _ _ _ _ _ _ _ _ Background sample_records sample_cold
              _ "" (Some (FailedToInitializeProcessor tt)) H) as (steps & _ & _ & _ & _ & Hf).
  apply Hf. discriminate.
Defined.

End SampleHandler.

Section SampleConfiguration.

Import application.

(** The configuration of the sample environment and secrets. *)
Lemma Load_all_or_nothing_witness :
  snd sample_loaded
    = ({| TransactionsDynamoDB := {| TableName := "transactions" |};
          EmailSMTP := {| Host := "secret"; Port := 587; Username := "secret";
                          Password := "secret"; From := "secret" |} |}, None) /\
  exists found,
    lookups (fst sample_loaded) = (lookups sample_providers ++ found)%list /\
    length found = 6%nat.
Proof.
  split; [vm_compute; reflexivity|].
  destruct (Load_all_or_nothing _ _ (DefaultEnvProvider nat)
              (NewAWSSecretsProvider nat sample_GetSecretValue sample_Atoi)
              empty_config sample_providers (fst sample_loaded) (fst (snd sample_loaded)) None)
    as (table & host & port & user & pass & from & found & failed & Hl & _ & Hn & -> & _).
  { vm_compute; reflexivity. }
  exists found. rewrite app_nil_r in Hl. auto.
Defined.

Lemma Load_with_providers_witness :
  snd (snd sample_loaded) = None /\
  TableName (TransactionsDynamoDB (fst (snd sample_loaded))) = "transactions" /\
  exists text, sample_Atoi text = Some (Port (EmailSMTP (fst (snd sample_loaded)))).
Proof.
  split; [vm_compute; reflexivity|].
  destruct (Load_with_providers nat sample_GetSecretValue sample_Atoi
              empty_config sample_providers (fst sample_loaded) (fst (snd sample_loaded)) None)
    as (_ & _ & H).
  { vm_compute; reflexivity. }
  destruct (H eq_refl) as (Ht & _ & Hp). split; [exact Ht|exact Hp].
Defined.

End SampleConfiguration.

End SampleRuns.
